(** * HATCHet copy-number plotting core: [hatchet/utils/plot_cn_1d2d.py]

    A shallow embedding of the numeric core of the 1D/2D copy-number
    plots: the state codec ([str2state], [cn2total]), the state indexer
    ([reindex]), the expected-value projector ([cn2evs]), the gamma
    estimator ([compute_gamma]), the colour mapping and key lookups of
    [plot_clusters], the table checks and chromosome axis of
    [generate_1D2D_plots], and the tracks of [plot_genome].

    Conventions of the embedding.
    - Python exceptions are values of [exn]; a computation that may raise
      has type [result A].
    - Python [float]s are idealised as exact rationals ([Q]); the values
      [nan] and [inf] that numpy produces instead of raising are explicit
      constructors of [npfloat].
    - Python [str] is [string]; characters are read as code points below
      256.
    - A [dict] is an association list in insertion order with unique
      keys, which is the order Python iterates it in.
    - A pandas [DataFrame] is a header (the column names) and typed rows
      in the layout of HATCHet's [best.bbc.ucn] table. *)

From Stdlib Require Import ZArith QArith Qround List String Ascii Bool Lia.
From Stdlib Require Import Permutation Sorted DecimalString DecimalNat.
From Stdlib Require Import OrderedTypeEx.
Import ListNotations.

Local Open Scope string_scope.
Local Open Scope Z_scope.

(* ================================================================= *)
(** ** Python values and exceptions *)

(** Keys of the state-index mapping: pandas hands [groupby] keys over as
    a bare string when one column is grouped and as a tuple of strings
    when several are. *)
Inductive pykey : Type :=
| KStr (s : string)
| KTuple (t : list string).

Definition pykey_eq_dec (x y : pykey) : {x = y} + {x <> y}.
Proof.
  decide equality; try apply string_dec.
  apply (list_eq_dec string_dec).
Defined.

(** [str(k)], as a [KeyError] reports the key. *)
Definition show_key (k : pykey) : string :=
  match k with
  | KStr s => s
  | KTuple t => "(" ++ String.concat ", " t ++ ")"
  end.

Inductive exn : Type :=
| ValueError (msg : string)
| KeyError (k : string)
| AssertionError
| IndexError
| AttributeError.

Inductive result (A : Type) : Type :=
| Ok (a : A)
| Raise (e : exn).
Arguments Ok {A} a.
Arguments Raise {A} e.

Definition bind {A B : Type} (c : result A) (f : A -> result B) : result B :=
  match c with
  | Ok a => f a
  | Raise e => Raise e
  end.

Declare Scope py_scope.
Delimit Scope py_scope with py.
Notation "x <- c ;; k" := (bind c (fun x => k))
  (at level 61, c at next level, right associativity) : py_scope.
Notation "' pat <- c ;; k" := (bind c (fun x => match x with pat => k end))
  (at level 61, pat pattern, c at next level, right associativity) : py_scope.
Notation "c ;;; k" := (bind c (fun _ => k))
  (at level 61, right associativity) : py_scope.
Local Open Scope py_scope.

Definition is_ok {A : Type} (c : result A) : bool :=
  match c with Ok _ => true | Raise _ => false end.

(** [assert b] *)
Definition py_assert (b : bool) : result unit :=
  if b then Ok tt else Raise AssertionError.

(** A list comprehension whose body may raise: elements are evaluated
    left to right and the first exception wins. *)
Fixpoint mapM {A B : Type} (f : A -> result B) (l : list A) : result (list B) :=
  match l with
  | [] => Ok []
  | a :: l' => b <- f a ;; bs <- mapM f l' ;; Ok (b :: bs)
  end.

(** numpy floats: a finite value, or what numpy returns where the
    arithmetic has no finite answer. *)
Inductive npfloat : Type :=
| Finite (q : Q)
| PosInf
| NegInf
| NaN.

(** [x / y] on numpy floats with a finite numerator and denominator. *)
Definition np_div (x y : Q) : npfloat :=
  if Qeq_bool y 0 then
    (if Qeq_bool x 0 then NaN
     else if Qle_bool 0 x then PosInf else NegInf)
  else Finite (x / y).

Definition Qsum (l : list Q) : Q := fold_right Qplus 0%Q l.

(** [np.mean] of a series of finite values; the mean of an empty series
    is [nan] (numpy warns and does not raise). *)
Definition np_mean (l : list Q) : npfloat :=
  match l with
  | [] => NaN
  | _ => Finite (Qsum l / inject_Z (Z.of_nat (List.length l)))
  end.

(* ================================================================= *)
(** ** Strings: [str.split], [int], [str], [startswith] *)

(** [s.split(sep)] for a one-character separator. *)
Fixpoint split (sep : ascii) (s : string) : list string :=
  match s with
  | EmptyString => [EmptyString]
  | String c r =>
      if Ascii.eqb c sep then EmptyString :: split sep r
      else match split sep r with
           | h :: t => String c h :: t
           | [] => [String c EmptyString]
           end
  end.

(** The white space [int] skips around a literal: tab to carriage
    return, space, and the two spaces of Latin-1 (NEL and NBSP). *)
Definition is_space (c : ascii) : bool :=
  let n := nat_of_ascii c in
  ((9 <=? n) && (n <=? 13) || (n =? 32) || (n =? 133) || (n =? 160))%nat.

Fixpoint lstrip (s : string) : string :=
  match s with
  | String c r => if is_space c then lstrip r else s
  | EmptyString => EmptyString
  end.

(** [rstrip]: drop the trailing run of white space. *)
Fixpoint rstrip (s : string) : string :=
  match s with
  | EmptyString => EmptyString
  | String c r =>
      match rstrip r with
      | EmptyString => if is_space c then EmptyString else String c EmptyString
      | r' => String c r'
      end
  end.

Definition strip (s : string) : string := rstrip (lstrip s).

Definition digit_of (c : ascii) : option Z :=
  let n := Z.of_nat (nat_of_ascii c) in
  if (48 <=? n) && (n <=? 57) then Some (n - 48) else None.

(** The digits of a decimal literal as [int] accepts them: one or more
    digits, single underscores allowed between two digits. [prev] tells
    whether the previous character was a digit. *)
Fixpoint int_digits (acc : Z) (prev : bool) (s : string) : option Z :=
  match s with
  | EmptyString => if prev then Some acc else None
  | String c r =>
      match digit_of c with
      | Some d => int_digits (10 * acc + d) true r
      | None =>
          if Ascii.eqb c "_"%char && prev then int_digits acc false r
          else None
      end
  end.

(** [int(s)] on a string: surrounding white space is ignored, then an
    optional sign, then the digits; anything else raises [ValueError]. *)
Definition py_int (s : string) : result Z :=
  let bad := Raise (ValueError "invalid literal for int() with base 10") in
  match strip s with
  | String "-"%char r =>
      match int_digits 0 false r with Some n => Ok (- n) | None => bad end
  | String "+"%char r =>
      match int_digits 0 false r with Some n => Ok n | None => bad end
  | t =>
      match int_digits 0 false t with Some n => Ok n | None => bad end
  end.

(** [str(n)] for a non-negative integer. *)
Definition py_str (n : nat) : string :=
  NilZero.string_of_uint (Nat.to_uint n).

(** [s.startswith(p)] *)
Definition startswith (p s : string) : bool := String.prefix p s.

(* ================================================================= *)
(** ** State codec *)

(** [str2state = lambda cn: tuple([int(a) for a in cn.split('|')])] *)
Definition str2state (cn : string) : result (list Z) :=
  mapM py_int (split "|"%char cn).

(** [str2cn] has the same body as [str2state]. *)
Definition str2cn (x : string) : result (list Z) :=
  mapM py_int (split "|"%char x).

(** [cn2total(s)]:
<<
    tkns = s.split('|')
    assert len(tkns) == 2
    return int(tkns[0]) + int(tkns[1])
>> *)
Definition cn2total (s : string) : result Z :=
  let tkns := split "|"%char s in
  py_assert (Nat.eqb (List.length tkns) 2) ;;;
  match tkns with
  | [t0; t1] => a <- py_int t0 ;; b <- py_int t1 ;; Ok (a + b)
  | _ => Raise IndexError
  end.

(** The token ["A|B"] that HATCHet writes for the state [(a, b)]; used
    to state what the parsers do on well-formed input. *)
Definition state_token (a b : nat) : string :=
  py_str a ++ "|" ++ py_str b.

(* ================================================================= *)
(** ** Dictionaries *)

Section Dict.
Context {K V : Type} (K_eq_dec : forall x y : K, {x = y} + {x <> y}).

(** [d.get(k)] *)
Fixpoint dict_get (d : list (K * V)) (k : K) : option V :=
  match d with
  | [] => None
  | (k', v) :: d' => if K_eq_dec k k' then Some v else dict_get d' k
  end.

(** [d[k] = v]: an existing key keeps its place, a new one goes last. *)
Fixpoint dict_set (d : list (K * V)) (k : K) (v : V) : list (K * V) :=
  match d with
  | [] => [(k, v)]
  | (k', v') :: d' =>
      if K_eq_dec k k' then (k', v) :: d' else (k', v') :: dict_set d' k v
  end.

(** [d[k]], which raises [KeyError] on a missing key. *)
Definition dict_lookup (show : K -> string) (d : list (K * V)) (k : K)
  : result V :=
  match dict_get d k with
  | Some v => Ok v
  | None => Raise (KeyError (show k))
  end.
End Dict.

(* ================================================================= *)
(** ** State indexer: [reindex] *)

Section Reindex.
Context {K : Type} (K_eq_dec : forall x y : K, {x = y} + {x <> y}).
Variable show : K -> string.

(** One step of [Counter(labels)]: [c[k] += 1]. *)
Fixpoint counter_add (c : list (K * nat)) (k : K) : list (K * nat) :=
  match c with
  | [] => [(k, 1%nat)]
  | (k', n) :: c' =>
      if K_eq_dec k k' then (k', S n) :: c' else (k', n) :: counter_add c' k
  end.

(** [Counter(labels)]: the counts, keys in order of first occurrence. *)
Definition Counter (labels : list K) : list (K * nat) :=
  fold_left counter_add labels [].

(** [c[k]] on a [Counter]: a missing key counts 0. *)
Definition counter_get (c : list (K * nat)) (k : K) : nat :=
  match dict_get K_eq_dec c k with Some n => n | None => 0%nat end.

(** [sorted(items, key=itemgetter(1), reverse=True)] is a stable sort
    by descending count: an item is placed before the first item whose
    count is not larger. *)
Fixpoint insert_by_count (x : K * nat) (l : list (K * nat))
  : list (K * nat) :=
  match l with
  | [] => [x]
  | y :: l' =>
      if (snd y <=? snd x)%nat then x :: y :: l'
      else y :: insert_by_count x l'
  end.

(** [Counter.most_common()] *)
Definition most_common (c : list (K * nat)) : list (K * nat) :=
  fold_right insert_by_count [] c.

(** The loop of [reindex]:
<<
  for i, _ in Counter(labels).most_common():
      old2new[i] = j
      j += 1
>> *)
Fixpoint reindex_loop (items : list (K * nat)) (old2new : list (K * Z))
  (j : Z) : list (K * Z) :=
  match items with
  | [] => old2new
  | (i, _) :: items' => reindex_loop items' (dict_set K_eq_dec old2new i j) (j + 1)
  end.

(** [reindex(labels)]: the re-ranked labels and the mapping. *)
Definition reindex (labels : list K) : result (list Z * list (K * Z)) :=
  let old2new := reindex_loop (most_common (Counter labels)) [] 1 in
  ranks <- mapM (dict_lookup K_eq_dec show old2new) labels ;;
  Ok (ranks, old2new).

(** The mapping alone (the second component; building it cannot raise). *)
Definition reindex_mapping (labels : list K) : list (K * Z) :=
  reindex_loop (most_common (Counter labels)) [] 1.
End Reindex.

(* ================================================================= *)
(** ** Expected-value projector: [cn2evs] *)

(** [x[i]] on a tuple. *)
Definition tuple_get (x : list Z) (i : nat) : result Z :=
  match nth_error x i with
  | Some v => Ok v
  | None => Raise IndexError
  end.

(** Elementwise product of two arrays of equal length, then [np.sum]. *)
Fixpoint dot (xs : list Z) (ps : list Q) : Q :=
  match xs, ps with
  | x :: xs', p :: ps' => (inject_Z x * p + dot xs' ps')%Q
  | _, _ => 0%Q
  end.

(** [cn2evs(cns, props)]:
<<
    assert len(cns) == len(props)
    A = np.array([x[0] for x in cns])
    B = np.array([x[1] for x in cns])
    return np.sum((A + B) * props), np.sum(B * props) / np.sum((A+B) * props)
>> *)
Definition cn2evs (cns : list (list Z)) (props : list Q)
  : result (Q * npfloat) :=
  py_assert (Nat.eqb (List.length cns) (List.length props)) ;;;
  A <- mapM (fun x => tuple_get x 0) cns ;;
  B <- mapM (fun x => tuple_get x 1) cns ;;
  let total := dot (map (fun ab => fst ab + snd ab) (combine A B)) props in
  Ok (total, np_div (dot B props) total).

(* ================================================================= *)
(** ** The input table *)

(** One row of the table. The typed fields are the cells of the columns
    [#CHR START END SAMPLE RD #SNPS COV ALPHA BETA BAF CLUSTER cn_normal
    u_normal cn_clone1 u_clone1 ...]: position [11 + 2i] holds the state
    token of clone [i] and position [12 + 2i] its mixing proportion, with
    the normal clone as clone 0. [CHR] is [str] of the [#CHR] cell. The
    columns the code never reads ([#SNPS], [COV], ...) carry no field. *)
Record Bin : Type := mkBin {
  CHR : string;
  START : Z;
  END : Z;
  SAMPLE : string;
  RD : Q;
  BAF : Q;
  cn_normal : string;
  u_normal : Q;
  clones : list (string * Q)
}.

(** A [DataFrame]: the header and the rows. A column is found by name
    when the header lists the name, and by position when the header is
    long enough; either way the cell read is the typed field. *)
Record DataFrame : Type := mkFrame {
  columns : list string;
  rows : list Bin
}.

Definition has_column (bbc : DataFrame) (name : string) : bool :=
  existsb (String.eqb name) (columns bbc).

(** The header of a table of [n] tumor clones. *)
Definition clone_columns (n : nat) : list string :=
  flat_map (fun i => ["cn_clone" ++ py_str i; "u_clone" ++ py_str i])
           (seq 1 n).

Definition bbc_header (n : nat) : list string :=
  ["#CHR"; "START"; "END"; "SAMPLE"; "RD"; "#SNPS"; "COV"; "ALPHA"; "BETA";
   "BAF"; "CLUSTER"; "cn_normal"; "u_normal"] ++ clone_columns n.

(** State token and proportion of clone [i] in a row (clone 0 is the
    normal clone). A rectangular table has them for every clone of the
    header. *)
Definition cn_of (b : Bin) (i : nat) : result string :=
  match i with
  | O => Ok (cn_normal b)
  | S j => match nth_error (clones b) j with
           | Some (c, _) => Ok c
           | None => Raise IndexError
           end
  end.

Definition u_of (b : Bin) (i : nat) : result Q :=
  match i with
  | O => Ok (u_normal b)
  | S j => match nth_error (clones b) j with
           | Some (_, u) => Ok u
           | None => Raise IndexError
           end
  end.

(** [bbc.iloc[:, p]] for the state column of clone [i], [p = 11 + 2i]. *)
Definition iloc_cn (bbc : DataFrame) (i : nat) : result (list string) :=
  if (11 + 2 * i <? List.length (columns bbc))%nat
  then mapM (fun b => cn_of b i) (rows bbc)
  else Raise IndexError.

(** [bbc.iloc[:, p]] for the proportion column of clone [i],
    [p = 12 + 2i]. *)
Definition iloc_u (bbc : DataFrame) (i : nat) : result (list Q) :=
  if (12 + 2 * i <? List.length (columns bbc))%nat
  then mapM (fun b => u_of b i) (rows bbc)
  else Raise IndexError.

(** [bbc[name]] read through [get]. *)
Definition column {A : Type} (bbc : DataFrame) (name : string)
  (get : Bin -> result A) : result (list A) :=
  if has_column bbc name then mapM get (rows bbc)
  else Raise (KeyError name).

(** [bbc[name][i]] (the index is [0..len-1] after [reset_index]). *)
Definition cell {A : Type} (bbc : DataFrame) (name : string) (i : nat)
  (get : Bin -> result A) : result A :=
  if has_column bbc name then
    match nth_error (rows bbc) i with
    | Some b => get b
    | None => Raise (KeyError (py_str i))
    end
  else Raise (KeyError name).

(** [n_clones = max([i for i in range(5) if f'cn_clone{i}' in bbc.columns])] *)
Definition count_clones (bbc : DataFrame) : result nat :=
  match filter (fun i => has_column bbc ("cn_clone" ++ py_str i)) (seq 0 5) with
  | [] => Raise (ValueError "max() arg is an empty sequence")
  | i :: l => Ok (fold_left Nat.max l i)
  end.

(** [Series.unique()]: the distinct values in order of first appearance. *)
Fixpoint unique (l : list string) : list string :=
  match l with
  | [] => []
  | x :: l' => x :: filter (fun y => negb (String.eqb x y)) (unique l')
  end.

(* ================================================================= *)
(** ** [groupby] keys *)

Section SortedKeys.
Context {K : Type} (K_eq_dec : forall x y : K, {x = y} + {x <> y}).
Variable leb : K -> K -> bool.

Fixpoint insert_key (k : K) (l : list K) : list K :=
  match l with
  | [] => [k]
  | k' :: l' =>
      if K_eq_dec k k' then l
      else if leb k k' then k :: l
      else k' :: insert_key k l'
  end.

(** The keys [groupby] iterates over: each distinct key once, in
    ascending order ([sort=True] is the default). *)
Definition group_keys (ks : list K) : list K :=
  fold_right insert_key [] ks.
End SortedKeys.

(** [<=] on tuples of strings: lexicographic. *)
Fixpoint tuple_leb (s t : list string) : bool :=
  match s, t with
  | [], _ => true
  | _ :: _, [] => false
  | x :: s', y :: t' =>
      match String.compare x y with
      | Lt => true
      | Gt => false
      | Eq => tuple_leb s' t'
      end
  end.

(** Keys of one [groupby] all have the same shape; a bare string is
    ordered as a string, a tuple as a tuple. *)
Definition key_leb (a b : pykey) : bool :=
  match a, b with
  | KStr s, KStr t => String.leb s t
  | KTuple s, KTuple t => tuple_leb s t
  | KStr _, KTuple _ => true
  | KTuple _, KStr _ => false
  end.

(** The state columns [[f'cn_clone{i + 1}' for i in range(n_clones)]] of
    a row, read as [tuple(r)]. *)
Definition state_tuple (n_clones : nat) (b : Bin) : result (list string) :=
  mapM (fun i => cn_of b (S i)) (seq 0 n_clones).

(** The key pandas gives a row when grouping by the state columns: the
    bare value for one column, the tuple for several. (This is pandas
    before 2.0, the behaviour [plot_clusters] tests for with
    [type(k) == str].) *)
Definition row_key (n_clones : nat) (b : Bin) : result pykey :=
  match n_clones with
  | 1%nat => c <- cn_of b 1 ;; Ok (KStr c)
  | _ => t <- state_tuple n_clones b ;; Ok (KTuple t)
  end.

(** [[k for k, _ in bbc.groupby([f'cn_clone{i + 1}' for i in range(n_clones)])]] *)
Definition groupby_states (bbc : DataFrame) (n_clones : nat)
  : result (list pykey) :=
  match n_clones with
  | O => Raise (ValueError "No group keys passed!")
  | _ =>
      match find (fun i => negb (has_column bbc ("cn_clone" ++ py_str (S i))))
                 (seq 0 n_clones) with
      | Some i => Raise (KeyError ("cn_clone" ++ py_str (S i)))
      | None =>
          ks <- mapM (row_key n_clones) (rows bbc) ;;
          Ok (group_keys pykey_eq_dec key_leb ks)
      end
  end.

(* ================================================================= *)
(** ** Gamma estimator: [compute_gamma] *)

(** [np.argmax]: the first index of the largest value. *)
Fixpoint argmax_from (best : Q) (besti i : nat) (l : list Q) : nat :=
  match l with
  | [] => besti
  | x :: l' =>
      if Qle_bool x best then argmax_from best besti (S i) l'
      else argmax_from x i (S i) l'
  end.

Definition np_argmax (l : list Q) : result nat :=
  match l with
  | [] => Raise (ValueError "attempt to get argmax of an empty sequence")
  | x :: l' => Ok (argmax_from x 0 1 l')
  end.

(** [max(iterable, key = f)]: the first element with the largest key. *)
Fixpoint max_by_from {A : Type} (key : A -> nat) (best : A) (l : list A) : A :=
  match l with
  | [] => best
  | x :: l' =>
      if (key best <? key x)%nat then max_by_from key x l'
      else max_by_from key best l'
  end.

Definition py_max_by {A : Type} (key : A -> nat) (l : list A) : result A :=
  match l with
  | [] => Raise (ValueError "max() arg is an empty sequence")
  | x :: l' => Ok (max_by_from key x l')
  end.

(** [set(['1|1', '2|2', '3|3', '4|4'])]. Python iterates a set of strings
    in an order fixed by the strings' hashes, which change from one
    interpreter run to the next; the embedding takes that order as the
    list [balanced_options]. *)
Definition balanced_candidates : list string := ["1|1"; "2|2"; "3|3"; "4|4"].

(** [s.remove(x)]: the other elements keep their iteration order. *)
Fixpoint set_remove (x : string) (s : list string) : result (list string) :=
  match s with
  | [] => Raise (KeyError x)
  | y :: s' =>
      if String.eqb x y then Ok s'
      else s'' <- set_remove x s' ;; Ok (y :: s'')
  end.

Fixpoint zip_with {A B C : Type} (f : A -> B -> C) (l : list A) (m : list B)
  : list C :=
  match l, m with
  | a :: l', b :: m' => f a b :: zip_with f l' m'
  | _, _ => []
  end.

(** The column [fractional_cn]:
<<
    sum([bbc.iloc[:, 11 + 2*i].map(cn2total) * bbc.iloc[:, 12 + 2*i]
         for i in range(n_clones + 1)])
>>
    [sum] starts from 0 and adds the series left to right. *)
Definition fractional_cn (bbc : DataFrame) (n_clones : Z) : result (list Q) :=
  terms <- mapM (fun i =>
                   cns <- iloc_cn bbc i ;;
                   totals <- mapM cn2total cns ;;
                   us <- iloc_u bbc i ;;
                   Ok (zip_with (fun t u => inject_Z t * u)%Q totals us))
                (seq 0 (Z.to_nat (n_clones + 1))) ;;
  Ok (fold_left (zip_with Qplus) terms
                (repeat 0%Q (List.length (rows bbc)))).

(** The bins used for calibration:
<<
    [i for i in range(len(bbc)) if
       all([bbc['cn_clone{}'.format(j + 1)][i] == largest_balanced
            for j in range(n_clones)])
       and bbc.loc[i, 'RD'] > 0]
>> *)
Definition is_balanced_row (bbc : DataFrame) (n_clones : Z)
  (largest_balanced : string) (i : nat) : result bool :=
  eqs <- mapM (fun j =>
                 c <- cell bbc ("cn_clone" ++ py_str (S j)) i
                        (fun b => cn_of b (S j)) ;;
                 Ok (String.eqb c largest_balanced))
              (seq 0 (Z.to_nat n_clones)) ;;
  if forallb (fun x => x) eqs
  then rd <- cell bbc "RD" i (fun b => Ok (RD b)) ;;
       Ok (negb (Qle_bool rd 0))
  else Ok false.

Fixpoint filterM {A : Type} (f : A -> result bool) (l : list A)
  : result (list A) :=
  match l with
  | [] => Ok []
  | a :: l' =>
      keep <- f a ;;
      rest <- filterM f l' ;;
      Ok (if keep then a :: rest else rest)
  end.

Definition balanced_idx (bbc : DataFrame) (n_clones : Z)
  (largest_balanced : string) : result (list nat) :=
  filterM (is_balanced_row bbc n_clones largest_balanced)
          (seq 0 (List.length (rows bbc))).

(** [bbc.iloc[balanced_idx].fractional_cn / bbc.iloc[balanced_idx].RD]:
    every selected row has [RD > 0], so each quotient is finite. *)
Definition calibration_ratios (bbc : DataFrame) (fcn : list Q)
  (idx : list nat) : result (list Q) :=
  if has_column bbc "RD" then
    mapM (fun i =>
            match nth_error fcn i, nth_error (rows bbc) i with
            | Some f, Some b => Ok (f / RD b)%Q
            | _, _ => Raise IndexError
            end) idx
  else Raise AttributeError.

(** [compute_gamma(bbc)], with the iteration order of the set of
    candidates as a parameter. Returns [(n_clones, gamma)]. *)
Definition compute_gamma (balanced_options : list string) (bbc : DataFrame)
  : result (Z * npfloat) :=
  let n_clones := Z.quot (Z.of_nat (List.length (columns bbc)) - 13) 2 in
  fcn <- fractional_cn bbc n_clones ;;
  us <- mapM (fun i => cell bbc ("u_clone" ++ py_str (S i)) 0
                         (fun b => u_of b (S i)))
             (seq 0 (Z.to_nat n_clones)) ;;
  largest_clone <- np_argmax us ;;
  dominant <- column bbc ("cn_clone" ++ py_str (S largest_clone))
                (fun b => cn_of b (S largest_clone)) ;;
  let dominant_cns := Counter string_dec dominant in
  let key := counter_get string_dec dominant_cns in
  largest_balanced <- py_max_by key balanced_options ;;
  idx <- balanced_idx bbc n_clones largest_balanced ;;
  idx' <- match idx with
          | [] =>
              balanced_options' <- set_remove largest_balanced balanced_options ;;
              largest_balanced' <- py_max_by key balanced_options' ;;
              balanced_idx bbc n_clones largest_balanced'
          | _ => Ok idx
          end ;;
  ratios <- calibration_ratios bbc fcn idx' ;;
  Ok (n_clones, np_mean ratios).

(* ================================================================= *)
(** ** Colour mapping and the 2D view: [plot_clusters] *)

(** What is handed to the colormap: an index into the 20-colour palette
    [tab20], or a position in the 40-entry colormap built from [tab20b]
    and [tab20c]. *)
Inductive colorpos : Type :=
| PaletteIndex (i : Z)
| Position (x : Q).

(** The colour step of [plot_clusters] (and of [plot_genome]):
<<
    n_states = len(mapping)
    if n_states <= 20:
        mapping = {k:v%20 for k,v in mapping.items()}
    else:
        mapping = {k:v%40 / n_states for k,v in mapping.items()}
>> *)
Definition color_mapping {K : Type} (mapping : list (K * Z))
  : list (K * colorpos) :=
  let n_states := Z.of_nat (List.length mapping) in
  if n_states <=? 20
  then map (fun kv => (fst kv, PaletteIndex (snd kv mod 20))) mapping
  else map (fun kv => (fst kv,
                       Position (inject_Z (snd kv mod 40) / inject_Z n_states)))
           mapping.

(** [round] to the nearest integer, ties to the even one. *)
Definition round_half_even (x : Q) : Z :=
  let f := Qfloor x in
  match (x - inject_Z f ?= 1 # 2)%Q with
  | Lt => f
  | Gt => f + 1
  | Eq => if Z.even f then f else f + 1
  end.

(** [x.round(6)] *)
Definition np_round6 (x : Q) : Q :=
  (inject_Z (round_half_even (x * 1000000)) / 1000000)%Q.

(** [props = np.array([bbc_.iloc[0, 2 * i + 12]
                       for i in range(n_clones + 1)]).round(6)] *)
Definition sample_props (bbc_ : DataFrame) (n_clones : nat)
  : result (list Q) :=
  us <- mapM (fun i =>
                if (2 * i + 12 <? List.length (columns bbc_))%nat then
                  match rows bbc_ with
                  | b :: _ => u_of b i
                  | [] => Raise IndexError
                  end
                else Raise IndexError)
             (seq 0 (n_clones + 1)) ;;
  Ok (map np_round6 us).

(** The colours of the bins of one sample:
<<
    if n_clones == 1:
        my_colors = [cmap(mapping[r]) for r in bbc_.cn_clone1]
    else:
        my_colors = [cmap(mapping[tuple(r)]) for _, r in
                     bbc_[[f'cn_clone{i + 1}' for i in range(n_clones)]].iterrows()]
>> *)
Definition bin_key (n_clones : nat) (b : Bin) : result pykey :=
  match n_clones with
  | 1%nat => c <- cn_of b 1 ;; Ok (KStr c)
  | _ => t <- state_tuple n_clones b ;; Ok (KTuple t)
  end.

Definition bin_colors (bbc_ : DataFrame) (n_clones : nat)
  (mapping : list (pykey * colorpos)) : result (list colorpos) :=
  match find (fun i => negb (has_column bbc_ ("cn_clone" ++ py_str (S i))))
             (seq 0 n_clones) with
  | Some i => Raise (match n_clones with
                     | 1%nat => AttributeError
                     | _ => KeyError ("cn_clone" ++ py_str (S i))
                     end)
  | None =>
      mapM (fun b => k <- bin_key n_clones b ;;
                     dict_lookup pykey_eq_dec show_key mapping k)
           (rows bbc_)
  end.

(** The label of a centroid: the one state all tumor clones share (in
    bold, only when there are several clones), or the states side by
    side. *)
Inductive centroid_label : Type :=
| SharedState (s : list Z)
| EachState (l : list (list Z)).

Definition list_Z_eqb (a b : list Z) : bool :=
  if list_eq_dec Z.eq_dec a b then true else false.

Record Centroid : Type := mkCentroid {
  label : centroid_label;
  ex : npfloat;
  ey : Q;
  color : colorpos
}.

(** One turn of the loop over [bbc_.groupby(...)] in [plot_clusters]:
<<
    if type(k) == str:
        state = [(1,1), str2state(k)]
    else:
        state = [(1,1)] + [str2state(a) for a in k]
    ey, ex = cn2evs(state, props)
    if all([a == state[1] for a in state[1:]]) and n_clones > 1: ...
    cs.append(cmap(mapping[k]))
>> *)
Definition centroid (n_clones : nat) (props : list Q)
  (mapping : list (pykey * colorpos)) (k : pykey) : result Centroid :=
  tumor <- match k with
           | KStr s => st <- str2state s ;; Ok [st]
           | KTuple t => mapM str2state t
           end ;;
  let state := [1; 1] :: tumor in
  '(ey, ex) <- cn2evs state props ;;
  lbl <- match tumor with
         | s1 :: _ =>
             Ok (if forallb (fun a => list_Z_eqb a s1) tumor
                    && (1 <? n_clones)%nat
                 then SharedState s1 else EachState tumor)
         | [] => Raise IndexError
         end ;;
  c <- dict_lookup pykey_eq_dec show_key mapping k ;;
  Ok (mkCentroid lbl ex ey c).

(** What the 2D view of one sample is drawn from. *)
Record SampleView : Type := mkView {
  view_sample : string;
  view_gamma : npfloat;
  view_colors : list colorpos;
  view_centroids : list Centroid
}.

Definition sample_rows (bbc : DataFrame) (sample : string) : DataFrame :=
  mkFrame (columns bbc)
          (filter (fun b => String.eqb (SAMPLE b) sample) (rows bbc)).

(** The body of the loop over samples in [plot_clusters]. *)
Definition plot_sample (balanced_options : list string) (bbc : DataFrame)
  (mapping : list (pykey * colorpos)) (sample : string) : result SampleView :=
  let bbc_ := sample_rows bbc sample in
  n_clones <- count_clones bbc_ ;;
  props <- sample_props bbc_ n_clones ;;
  '(n_clones2, gamma) <- compute_gamma balanced_options bbc_ ;;
  py_assert (n_clones2 =? Z.of_nat n_clones) ;;;
  my_colors <- bin_colors bbc_ n_clones mapping ;;
  ks <- groupby_states bbc_ n_clones ;;
  cs <- mapM (centroid n_clones props mapping) ks ;;
  Ok (mkView sample gamma my_colors cs).

(** [plot_clusters(bbc, mapping, ...)]: the data of the scatter plots,
    sample by sample; drawing and saving are left out. *)
Definition plot_clusters (balanced_options : list string) (bbc : DataFrame)
  (mapping : list (pykey * Z)) : result (list SampleView) :=
  if has_column bbc "SAMPLE" then
    let samples := unique (map SAMPLE (rows bbc)) in
    let mapping' := color_mapping mapping in
    mapM (plot_sample balanced_options bbc mapping') samples
  else Raise AttributeError.

(* ================================================================= *)
(** ** The entry point: [generate_1D2D_plots] *)

(** [bbc['#CHR'] = 'chr' + bbc['#CHR'].astype('str')], row by row. *)
Definition add_chr_prefix (b : Bin) : Bin :=
  mkBin ("chr" ++ CHR b) (START b) (END b) (SAMPLE b) (RD b) (BAF b)
        (cn_normal b) (u_normal b) (clones b).

(** Lines 61-75: the [#CHR] column must exist, and chromosome names
    either all start with ['chr'] or none does; in the second case
    ['chr'] is put in front of every name. *)
Definition normalize_chr (bbc : DataFrame) : result DataFrame :=
  if negb (has_column bbc "#CHR") then
    Raise (ValueError "Input table is malformed (missing #CHR column)")
  else
    let using_chr := map (startswith "chr") (unique (map CHR (rows bbc))) in
    use_chr <-
      (if existsb (fun x => x) using_chr then
         if negb (forallb (fun x => x) using_chr) then
           Raise (ValueError
                    "Some chromosomes use 'chr' notation while others do not.")
         else Ok true
       else Ok false) ;;
    if negb use_chr then
      Ok (mkFrame (columns bbc) (map add_chr_prefix (rows bbc)))
    else Ok bbc.

(** [chrlengths = {str(c): df.END.max() for c, df in bbc.groupby('#CHR')}] *)
Definition chrlengths (bbc : DataFrame) : result (list (string * Z)) :=
  mapM (fun c =>
          if has_column bbc "END" then
            match map END (filter (fun b => String.eqb (CHR b) c) (rows bbc)) with
            | e :: es => Ok (c, fold_left Z.max es e)
            | [] => Raise (ValueError "max of an empty group")
            end
          else Raise AttributeError)
       (group_keys string_dec String.leb (map CHR (rows bbc))).

(** The loop that lays the chromosomes end to end:
<<
    chr_ends = [0]
    for i in range(22):
        chr_ends.append(chr_ends[-1] + chrlengths[f'chr{i + 1}'])
>>
    [last] is [chr_ends[-1]]. *)
Fixpoint chr_ends_loop (lengths : list (string * Z)) (idxs : list nat)
  (chr_ends : list Z) (last : Z) : result (list Z) :=
  match idxs with
  | [] => Ok chr_ends
  | i :: idxs' =>
      len <- dict_lookup string_dec (fun s => s) lengths ("chr" ++ py_str (i + 1)) ;;
      chr_ends_loop lengths idxs' (chr_ends ++ [last + len]) (last + len)
  end.

(** Lines 78-81. *)
Definition chromosome_axis (bbc : DataFrame) : result (list Z) :=
  lengths <- chrlengths bbc ;;
  chr_ends_loop lengths (seq 0 22) [0] 0.

(** Lines 83-84:
<<
    n_clones = max([i for i in range(5) if f'cn_clone{i}' in bbc.columns])
    _, mapping = reindex([k for k, _ in bbc.groupby(
                     [f'cn_clone{i + 1}' for i in range(n_clones)])])
>> *)
Definition state_mapping (bbc : DataFrame) : result (list (pykey * Z)) :=
  n_clones <- count_clones bbc ;;
  ks <- groupby_states bbc n_clones ;;
  '(_, mapping) <- reindex pykey_eq_dec show_key ks ;;
  Ok mapping.

(** What [generate_1D2D_plots] has computed when it starts to draw. *)
Record PlotData : Type := mkPlotData {
  plot_table : DataFrame;
  plot_chr_ends : list Z;
  plot_mapping : list (pykey * Z);
  plot_views : list SampleView
}.

(** [generate_1D2D_plots(bbc, ...)] as [main] calls it (no centromeres,
    no resampling of balanced bins), up to and including the data of the
    2D view. The 1D view ([plot_genome]) starts from the same table,
    mapping and [chr_ends] and has its own definition further down; all
    drawing is outside the embedding. Nothing is logged or written
    before [state_mapping] has returned. [plots_of_normalized] is the part after the check of the
    chromosome names (from line 77 on). *)
Definition plots_of_normalized (balanced_options : list string)
  (bbc' : DataFrame) : result PlotData :=
  chr_ends <- chromosome_axis bbc' ;;
  mapping <- state_mapping bbc' ;;
  views <- plot_clusters balanced_options bbc' mapping ;;
  Ok (mkPlotData bbc' chr_ends mapping views).

Definition generate_1D2D_plots (balanced_options : list string)
  (bbc : DataFrame) : result PlotData :=
  bbc' <- normalize_chr bbc ;;
  plots_of_normalized balanced_options bbc'.

(* ================================================================= *)
(** ** Vocabulary of the statements *)

(** Every character of [s] satisfies [p]. *)
Fixpoint all_chars (p : ascii -> bool) (s : string) : bool :=
  match s with
  | EmptyString => true
  | String c r => p c && all_chars p r
  end.

Definition is_digit (c : ascii) : bool :=
  match digit_of c with Some _ => true | None => false end.

(** The consecutive integers [j, j+1, ...], [n] of them. *)
Fixpoint ranks_from (j : Z) (n : nat) : list Z :=
  match n with
  | O => []
  | S n' => j :: ranks_from (j + 1) n'
  end.

Section Prevalence.
Context {K : Type} (K_eq_dec : forall x y : K, {x = y} + {x <> y}).

(** Position of the first occurrence of [k] in [l] (its length when
    [k] does not occur). *)
Fixpoint first_index (k : K) (l : list K) : nat :=
  match l with
  | [] => O
  | x :: l' => if K_eq_dec k x then O else S (first_index k l')
  end.

(** [k1] comes before [k2] in the prevalence order of [labels]: it
    occurs more often, or as often and first. *)
Definition precedes (labels : list K) (k1 k2 : K) : Prop :=
  (count_occ K_eq_dec labels k2 < count_occ K_eq_dec labels k1)%nat \/
  (count_occ K_eq_dec labels k1 = count_occ K_eq_dec labels k2 /\
   first_index k1 labels < first_index k2 labels)%nat.

(** [m] ranks the distinct keys of [labels] by prevalence: its keys are
    the distinct labels, its ranks are 1..N in the order of the entries,
    and a key has a smaller rank exactly when it comes before in the
    prevalence order. *)
Definition prevalence_ranking (labels : list K) (m : list (K * Z)) : Prop :=
  NoDup (map fst m) /\
  (forall k, In k labels <-> In k (map fst m)) /\
  map snd m = ranks_from 1 (List.length m) /\
  (forall k1 k2 r1 r2,
      dict_get K_eq_dec m k1 = Some r1 ->
      dict_get K_eq_dec m k2 = Some r2 ->
      (r1 < r2 <-> precedes labels k1 k2)).

(** The order [most_common] sorts the items of a [Counter] in, [pos]
    being the position of a key in the [Counter]. *)
Definition by_prevalence (pos : K -> nat) (a b : K * nat) : Prop :=
  (snd b < snd a)%nat \/
  (snd a = snd b /\ pos (fst a) < pos (fst b))%nat.
End Prevalence.

(** A mapping of 21 states: what the indexer returns for 21 distinct
    labels. *)
Definition mapping_21 : list (nat * Z) :=
  reindex_mapping Nat.eq_dec (seq 1 21).

(** A table of [n] tumor clones in the layout the code relies on: the
    header of [bbc_header], every row with a state and a proportion for
    each clone. *)
Definition rectangular (n : nat) (bbc : DataFrame) : Prop :=
  columns bbc = bbc_header n /\
  Forall (fun b => List.length (clones b) = n) (rows bbc).

(** All the orders a list can be iterated in. *)
Fixpoint insert_everywhere {A : Type} (x : A) (l : list A) : list (list A) :=
  match l with
  | [] => [[x]]
  | y :: l' => (x :: l) :: map (cons y) (insert_everywhere x l')
  end.

Fixpoint permutations {A : Type} (l : list A) : list (list A) :=
  match l with
  | [] => [[]]
  | x :: l' => flat_map (insert_everywhere x) (permutations l')
  end.

(** The 24 orders in which Python may iterate the set of balanced
    candidates. *)
Definition iteration_orders : list (list string) :=
  permutations balanced_candidates.

(** One bin of a one-clone table, normal clone (1,1), both proportions
    1/2. *)
Definition bin_1clone (chr : string) (cn : string) (rd : Q) : Bin :=
  mkBin chr 0 100 "S" rd (1 # 2) "1|1" (1 # 2) [(cn, 1 # 2)].

(** One bin on each of chr1 .. chr22, all in state [cn]. *)
Definition whole_genome (cn : string) : list Bin :=
  map (fun i => bin_1clone ("chr" ++ py_str i) cn 1) (seq 1 22).

(** 22 bins in state (2,2), one per chromosome, and a single bin in
    state (1,1). *)
Definition table_prevalence : DataFrame :=
  mkFrame (bbc_header 1)
          (whole_genome "2|2" ++ [bin_1clone "chr1" "1|1" 1]).

(** The scenario of the specification: states (1,1) in two bins, (2,1)
    and (3,0) in one bin each. *)
Definition table_scenario : DataFrame :=
  mkFrame (bbc_header 1)
          [bin_1clone "chr1" "1|1" 1; bin_1clone "chr1" "1|1" 1;
           bin_1clone "chr1" "2|1" 1; bin_1clone "chr1" "3|0" 1].

(** The same chromosomes written without the prefix, and a table where
    chromosome 5 is missing. *)
Definition table_bare_names : DataFrame :=
  mkFrame (bbc_header 1)
          (map (fun i => bin_1clone (py_str i) "1|1" 1) (seq 1 22)).

Definition table_no_chr5 : DataFrame :=
  mkFrame (bbc_header 1)
          (filter (fun b => negb (String.eqb (CHR b) "chr5"))
                  (whole_genome "1|1")).

(** The grouping key of a row: the bare state string for one tumor
    clone, the tuple of state strings otherwise. *)
Definition state_key (b : Bin) : pykey :=
  match clones b with
  | [(c, _)] => KStr c
  | l => KTuple (map fst l)
  end.

(** What a run hands over as the state-index mapping. *)
Definition mapping_of_run (r : result PlotData) : result (list (pykey * Z)) :=
  d <- r ;; Ok (plot_mapping d).

(** The clones of a row, the normal clone first. *)
Definition all_clones (b : Bin) : list (string * Q) :=
  (cn_normal b, u_normal b) :: clones b.

Definition clone_at (b : Bin) (i : nat) : string * Q :=
  nth i (all_clones b) (EmptyString, 0%Q).

(** The total copy number a token stands for. *)
Definition token_total (s : string) : Z :=
  match cn2total s with Ok t => t | Raise _ => 0 end.

(** Every state token of the table is one [cn2total] accepts. *)
Definition tokens_ok (bbc : DataFrame) : Prop :=
  forall b, In b (rows bbc) ->
  forall cu, In cu (all_clones b) -> is_ok (cn2total (fst cu)) = true.

(** The fractional copy number of a row: the totals of its [n + 1]
    clones weighted by the proportions, added up from 0 in the order of
    the columns. *)
Definition row_fcn (n : nat) (b : Bin) : Q :=
  fold_left Qplus
            (map (fun i => inject_Z (token_total (fst (clone_at b i)))
                           * snd (clone_at b i))%Q
                 (seq 0 (n + 1)))
            0%Q.

(** A row is usable for calibration on candidate [c]: every tumor clone
    is in state [c] and [RD > 0]. *)
Definition usable (c : string) (b : Bin) : bool :=
  forallb (fun cu => String.eqb (fst cu) c) (clones b)
  && negb (Qle_bool (RD b) 0).

(** The tumor clone with the largest proportion in the first row (the
    first such clone), counted from 0. *)
Definition dominant_clone (bbc : DataFrame) : nat :=
  match rows bbc with
  | b0 :: _ =>
      match map snd (clones b0) with
      | u :: us => argmax_from u 0 1 us
      | [] => O
      end
  | [] => O
  end.

(** In how many rows the dominant clone is in state [c]. *)
Definition dominant_count (bbc : DataFrame) (c : string) : nat :=
  count_occ string_dec
            (map (fun b => fst (clone_at b (S (dominant_clone bbc)))) (rows bbc))
            c.

(** A list without the first occurrence of [x]. *)
Fixpoint without (x : string) (l : list string) : list string :=
  match l with
  | [] => []
  | y :: l' => if String.eqb x y then l' else y :: without x l'
  end.

(** The candidate tried first, and the one tried when the first has no
    usable row. *)
Definition first_choice (balanced_options : list string) (bbc : DataFrame)
  : string :=
  match balanced_options with
  | c :: l => max_by_from (dominant_count bbc) c l
  | [] => EmptyString
  end.

Definition second_choice (balanced_options : list string) (bbc : DataFrame)
  : string :=
  first_choice (without (first_choice balanced_options bbc) balanced_options)
               bbc.

(** The rows [compute_gamma] calibrates on. *)
Definition calibration_rows (balanced_options : list string) (bbc : DataFrame)
  : list Bin :=
  match filter (usable (first_choice balanced_options bbc)) (rows bbc) with
  | [] => filter (usable (second_choice balanced_options bbc)) (rows bbc)
  | l => l
  end.

(** One bin of a one-clone table in which the normal column reads (2,2)
    as well. *)
Definition bin_balanced (rd : Q) : Bin :=
  mkBin "chr1" 0 100 "S" rd (1 # 2) "2|2" (1 # 2) [("2|2", 1 # 2)].

(** Every clone in state (2,2), read-depth ratios 1 and 3. *)
Definition table_balanced_1_3 : DataFrame :=
  mkFrame (bbc_header 1) [bin_balanced 1; bin_balanced 3].

(** (1,1) in three bins and (2,2) in two, all with [RD = 0]; (3,3) in
    one bin with [RD = 1]. *)
Definition table_third_candidate : DataFrame :=
  mkFrame (bbc_header 1)
          [bin_1clone "chr1" "1|1" 0; bin_1clone "chr1" "1|1" 0;
           bin_1clone "chr1" "1|1" 0; bin_1clone "chr1" "2|2" 0;
           bin_1clone "chr1" "2|2" 0; bin_1clone "chr1" "3|3" 1].

(** No balanced state at all. *)
Definition table_unbalanced : DataFrame :=
  mkFrame (bbc_header 1)
          [bin_1clone "chr1" "2|1" 1; bin_1clone "chr1" "3|0" 1].

(** [np.mean] of the read-depth ratios, the table not being empty. *)
Definition mean_RD (bbc : DataFrame) : Q :=
  (Qsum (map RD (rows bbc)) / inject_Z (Z.of_nat (List.length (rows bbc))))%Q.

(* ================================================================= *)
(** ** Other helpers of the module *)

(** [cn2totals = lambda x: tuple(sum(a) for a in x)] *)
Definition cn2totals (x : list (list Z)) : list Z :=
  map (fun a => fold_left Z.add a 0) x.

(** [l[i]] on a list, for an index that is not negative. *)
Definition list_item {A : Type} (l : list A) (i : nat) : result A :=
  match nth_error l i with
  | Some a => Ok a
  | None => Raise IndexError
  end.

(** [recompose_state(l)]:
<<
    r = []
    for i in range(int(len(l) / 2)):
        r.append((int(l[i * 2]), int(l[i * 2 + 1])))
    return tuple(r)
>>
    The values of [l] are taken as [int] reads them from a string. *)
Definition recompose_state (l : list string) : result (list (Z * Z)) :=
  mapM (fun i =>
          a <- list_item l (i * 2) ;;
          a' <- py_int a ;;
          b <- list_item l (i * 2 + 1) ;;
          b' <- py_int b ;;
          Ok (a', b'))
       (seq 0 (List.length l / 2)).

(** [limits_valid(lim)]:
    [lim is not None and len(lim) == 2 and lim[0] is not None and
     lim[1] is not None]. *)
Definition limits_valid (lim : option (list (option Q))) : bool :=
  match lim with
  | None => false
  | Some l =>
      Nat.eqb (List.length l) 2
      && match nth_error l 0 with Some (Some _) => true | _ => false end
      && match nth_error l 1 with Some (Some _) => true | _ => false end
  end.

(* ================================================================= *)
(** ** The 1D view: [plot_genome] *)

(** [l[i]] on a list for any integer index: a negative index counts
    from the end. *)
Definition py_index {A : Type} (l : list A) (i : Z) : result A :=
  let n := Z.of_nat (List.length l) in
  let j := if i <? 0 then i + n else i in
  if (0 <=? j) && (j <? n) then list_item l (Z.to_nat j)
  else Raise IndexError.

(** [s[n:]] *)
Fixpoint string_drop (n : nat) (s : string) : string :=
  match n, s with
  | O, _ => s
  | S n', String _ r => string_drop n' r
  | S _, EmptyString => EmptyString
  end.

(** [chr_start = chr_ends[int(chromosome[3:]) - 1]] *)
Definition chr_start (chr_ends : list Z) (chromosome : string) : result Z :=
  k <- py_int (string_drop 3 chromosome) ;;
  py_index chr_ends (k - 1).

(** Lines 426-429:
<<
    n_bins = len(big_bbc) / len(samples)
    markersize = int(max(1, 4 - np.floor(n_bins / 500)))
>>
    [None] stands for the [ZeroDivisionError] of a table without
    samples. *)
Definition marker_size (n_rows n_samples : nat) : option Z :=
  match n_samples with
  | O => None
  | _ =>
      let n_bins := (inject_Z (Z.of_nat n_rows) / inject_Z (Z.of_nat n_samples))%Q in
      Some (Z.max 1 (4 - Qfloor (n_bins / 500)))
  end.

Definition set_BAF (b : Bin) (x : Q) : Bin :=
  mkBin (CHR b) (START b) (END b) (SAMPLE b) (RD b) x (cn_normal b)
        (u_normal b) (clones b).

(** Lines 403-407:
<<
    np.random.seed(0)
    flips = np.random.randint(2, size = len(big_bbc))
    big_bbc.loc[:, 'BAF'] = np.choose(flips, [big_bbc.loc[:, 'BAF'],
                                              1-big_bbc.loc[:, 'BAF']])
>>
    The draws of the generator are the parameter [flips]: [flips i] tells
    whether row [i] is mirrored. The same code opens [plot_genome]. *)
Fixpoint mirror_rows (flips : nat -> bool) (i : nat) (l : list Bin)
  : list Bin :=
  match l with
  | [] => []
  | b :: l' =>
      (if flips i then set_BAF b (1 - BAF b) else b)
        :: mirror_rows flips (S i) l'
  end.

Definition mirror_baf (flips : nat -> bool) (big_bbc : DataFrame)
  : result DataFrame :=
  if has_column big_bbc "BAF"
  then Ok (mkFrame (columns big_bbc) (mirror_rows flips 0 (rows big_bbc)))
  else Raise (KeyError "BAF").

(** [x * g] for a finite [x] and a numpy float [g]. *)
Definition np_scale (x : Q) (g : npfloat) : npfloat :=
  match g with
  | Finite q => Finite (x * q)
  | NaN => NaN
  | PosInf =>
      if Qeq_bool x 0 then NaN else if Qle_bool 0 x then PosInf else NegInf
  | NegInf =>
      if Qeq_bool x 0 then NaN else if Qle_bool 0 x then NegInf else PosInf
  end.

(** [1 - y] *)
Definition np_one_minus (y : npfloat) : npfloat :=
  match y with
  | Finite q => Finite (1 - q)
  | PosInf => NegInf
  | NegInf => PosInf
  | NaN => NaN
  end.

Definition np_is_nan (x : npfloat) : bool :=
  match x with NaN => true | _ => false end.

(** [x <= y] on numpy floats that are not [nan]. *)
Definition np_leb (x y : npfloat) : bool :=
  match x, y with
  | NegInf, _ => true
  | _, PosInf => true
  | Finite a, Finite b => Qle_bool a b
  | _, _ => false
  end.

(** [np.min] and [np.max] of a series: [nan] as soon as one value is
    [nan], [ValueError] on an empty series. *)
Definition np_min (l : list npfloat) : result npfloat :=
  match l with
  | [] => Raise (ValueError "zero-size array to reduction operation minimum which has no identity")
  | x :: l' =>
      if existsb np_is_nan l then Ok NaN
      else Ok (fold_left (fun m y => if np_leb y m then y else m) l' x)
  end.

Definition np_max (l : list npfloat) : result npfloat :=
  match l with
  | [] => Raise (ValueError "zero-size array to reduction operation maximum which has no identity")
  | x :: l' =>
      if existsb np_is_nan l then Ok NaN
      else Ok (fold_left (fun m y => if np_leb m y then y else m) l' x)
  end.

(** The value range of one axis: the limits given on the command line
    when both are given, the range of the data otherwise.
<<
    if limits_valid(fcn_ylim):
        minFCN, maxFCN = fcn_ylim
    else:
        minFCN = np.min(bbc_.RD * gamma)
        maxFCN = np.max(bbc_.RD * gamma)
>> *)
Definition axis_range (bbc_ : DataFrame) (name : string)
  (lim : option (list (option Q))) (values : list npfloat)
  : result (npfloat * npfloat) :=
  if limits_valid lim then
    match lim with
    | Some [Some lo; Some hi] => Ok (Finite lo, Finite hi)
    | _ => Raise IndexError
    end
  else if has_column bbc_ name then
    lo <- np_min values ;; hi <- np_max values ;; Ok (lo, hi)
  else Raise AttributeError.

(** What is drawn for one chromosome of one sample: the segments of
    expected fractional copy number and of expected BAF (a segment and
    its mirror image for each bin), and the points, with their colours,
    of the observed values. *)
Record Track : Type := mkTrack {
  track_chromosome : string;
  track_start : Z;
  track_fcn_lines : list (Z * Z * Q);
  track_baf_lines : list (Z * Z * npfloat);
  track_midpoints : list Q;
  track_colors : list colorpos;
  track_fcn : list npfloat;
  track_baf : list Q
}.

(** One turn of the loop over the rows of a chromosome:
<<
    x0 = r.START + chr_start
    x1 = r.END + chr_start
    state = [(1,1)] + [str2state(r[f'cn_clone{i + 1}']) for i in range(n_clones)]
    y_fcn, y_baf = cn2evs(state, props)
>> *)
Definition row_segment (bbc : DataFrame) (n_clones : nat) (props : list Q)
  (start : Z) (r : Bin) : result (Z * Z * Q * npfloat) :=
  let x0 := START r + start in
  let x1 := END r + start in
  tumor <- mapM (fun i =>
                   if has_column bbc ("cn_clone" ++ py_str (S i))
                   then c <- cn_of r (S i) ;; str2state c
                   else Raise (KeyError ("cn_clone" ++ py_str (S i))))
                (seq 0 n_clones) ;;
  '(y_fcn, y_baf) <- cn2evs ([1; 1] :: tumor) props ;;
  Ok (x0, x1, y_fcn, y_baf).

(** The body of the loop over chromosomes (lines 481-538). [alt_chr]
    reads the column [CHR] of a row for tables that have one besides
    [#CHR]. *)
Definition chromosome_track (alt_chr : Bin -> string) (bbc_ : DataFrame)
  (n_clones : nat) (props : list Q) (gamma : npfloat)
  (mapping : list (pykey * colorpos)) (chr_ends : list Z)
  (chromosome : string) : result Track :=
  let chrkey := if has_column bbc_ "CHR" then alt_chr else CHR in
  let bbc1 := filter (fun b => String.eqb (chrkey b) chromosome) (rows bbc_) in
  start <- chr_start chr_ends chromosome ;;
  let bbc := mkFrame (columns bbc_)
                     (filter (fun b => String.eqb (CHR b) chromosome) bbc1) in
  (if has_column bbc "#CHR" then Ok tt else Raise (KeyError "#CHR")) ;;;
  (if has_column bbc "END" then Ok tt else Raise AttributeError) ;;;
  (if has_column bbc "START" then Ok tt else Raise AttributeError) ;;;
  let midpoint :=
    map (fun b => (inject_Z (START b + END b) / 2 + inject_Z start)%Q)
        (rows bbc) in
  segments <- mapM (row_segment bbc n_clones props start) (rows bbc) ;;
  my_colors <- bin_colors bbc n_clones mapping ;;
  (if has_column bbc "RD" then Ok tt else Raise AttributeError) ;;;
  (if has_column bbc "BAF" then Ok tt else Raise AttributeError) ;;;
  Ok (mkTrack chromosome start
        (map (fun s => match s with (x0, x1, y_fcn, _) => (x0, x1, y_fcn) end)
             segments)
        (flat_map (fun s => match s with
                            | (x0, x1, _, y_baf) =>
                                [(x0, x1, y_baf); (x0, x1, np_one_minus y_baf)]
                            end) segments)
        midpoint my_colors
        (map (fun b => np_scale (RD b) gamma) (rows bbc))
        (map BAF (rows bbc))).

(** What the 1D view of one sample is drawn from. *)
Record GenomeView : Type := mkGenomeView {
  genome_sample : string;
  genome_gamma : npfloat;
  genome_fcn_range : npfloat * npfloat;
  genome_baf_range : npfloat * npfloat;
  genome_tracks : list Track;
  genome_xticks : list Q
}.

(** [xtick_locs = [(chr_ends[i] + chr_ends[i + 1]) / 2 for i in range(22)]] *)
Definition xtick_locs (chr_ends : list Z) : result (list Q) :=
  mapM (fun i =>
          a <- list_item chr_ends i ;;
          b <- list_item chr_ends (i + 1) ;;
          Ok (inject_Z (a + b) / 2)%Q)
       (seq 0 22).

(** The body of the loop over samples (lines 444-572), drawing left out.
    [chromosomes] is the variable of that name: [None] until the first
    sample has set it to its own chromosomes, sorted as strings, and
    then kept for the samples that follow. Returns the view and the
    value of [chromosomes]. *)
Definition genome_sample_view (alt_chr : Bin -> string)
  (balanced_options : list string) (big_bbc : DataFrame)
  (mapping : list (pykey * colorpos)) (chr_ends : list Z)
  (fcn_ylim baf_ylim : option (list (option Q)))
  (chromosomes : option (list string)) (sample : string)
  : result (GenomeView * list string) :=
  let bbc_ := sample_rows big_bbc sample in
  chromosomes' <-
    match chromosomes with
    | Some cs => Ok cs
    | None =>
        if has_column bbc_ "#CHR"
        then Ok (group_keys string_dec String.leb (map CHR (rows bbc_)))
        else Raise (KeyError "#CHR")
    end ;;
  n_clones <- count_clones bbc_ ;;
  props <- sample_props bbc_ n_clones ;;
  '(n_clones2, gamma) <- compute_gamma balanced_options bbc_ ;;
  py_assert (n_clones2 =? Z.of_nat n_clones) ;;;
  fcn_range <- axis_range bbc_ "RD" fcn_ylim
                 (map (fun b => np_scale (RD b) gamma) (rows bbc_)) ;;
  baf_range <- axis_range bbc_ "BAF" baf_ylim
                 (map (fun b => Finite (BAF b)) (rows bbc_)) ;;
  tracks <- mapM (chromosome_track alt_chr bbc_ n_clones props gamma mapping
                    chr_ends) chromosomes' ;;
  _ <- py_index chr_ends (-1) ;;
  xticks <- xtick_locs chr_ends ;;
  Ok (mkGenomeView sample gamma fcn_range baf_range tracks xticks,
      chromosomes').

Fixpoint genome_sample_views (alt_chr : Bin -> string)
  (balanced_options : list string) (big_bbc : DataFrame)
  (mapping : list (pykey * colorpos)) (chr_ends : list Z)
  (fcn_ylim baf_ylim : option (list (option Q)))
  (chromosomes : option (list string)) (samples : list string)
  : result (list GenomeView) :=
  match samples with
  | [] => Ok []
  | sample :: samples' =>
      '(v, cs) <- genome_sample_view alt_chr balanced_options big_bbc mapping
                    chr_ends fcn_ylim baf_ylim chromosomes sample ;;
      vs <- genome_sample_views alt_chr balanced_options big_bbc mapping
              chr_ends fcn_ylim baf_ylim (Some cs) samples' ;;
      Ok (v :: vs)
  end.

(** What [plot_genome] can raise: the exceptions of [exn], and the
    [ZeroDivisionError] of [len(big_bbc) / len(samples)]. *)
Inductive genome_exn : Type :=
| Exn (e : exn)
| ZeroDivisionError.

(** [plot_genome(big_bbc, mapping, chr_ends, ...)] as
    [generate_1D2D_plots] calls it ([chromosomes = None], no
    centromeres, a file name or prefix given): the marker size and the
    data of the tracks, sample by sample. This is the second definition
    of [plot_genome] in the module, the one in force. Of the drawing only
    the creation of the figure is kept, where it fails: without
    [save_samples] the figure gets two rows of axes per sample, and
    matplotlib refuses a figure without rows. *)
Definition plot_genome (flips : nat -> bool) (alt_chr : Bin -> string)
  (balanced_options : list string) (big_bbc : DataFrame)
  (mapping : list (pykey * Z)) (chr_ends : list Z)
  (fcn_ylim baf_ylim : option (list (option Q))) (save_samples : bool)
  : genome_exn + (Z * list GenomeView) :=
  match mirror_baf flips big_bbc with
  | Raise e => inl (Exn e)
  | Ok mirrored =>
      if has_column mirrored "SAMPLE" then
        let samples := unique (map SAMPLE (rows mirrored)) in
        if negb save_samples && Nat.eqb (List.length samples) 0 then
          inl (Exn (ValueError "Number of rows must be a positive integer, not 0"))
        else
          match marker_size (List.length (rows mirrored)) (List.length samples) with
          | None => inl ZeroDivisionError
          | Some markersize =>
              match genome_sample_views alt_chr balanced_options mirrored
                      (color_mapping mapping) chr_ends fcn_ylim baf_ylim
                      None samples with
              | Raise e => inl (Exn e)
              | Ok views => inr (markersize, views)
              end
          end
      else inl (Exn AttributeError)
  end.

(* ================================================================= *)
(** ** Vocabulary of the further properties *)

(** How often the character [c] occurs in [s]. *)
Fixpoint count_char (c : ascii) (s : string) : nat :=
  match s with
  | EmptyString => O
  | String x r => (if Ascii.eqb x c then 1 else 0) + count_char c r
  end.

(** The list [recompose_state] reads the states [l] back from. *)
Definition flatten_states (l : list (nat * nat)) : list string :=
  flat_map (fun ab => [py_str (fst ab); py_str (snd ab)]) l.

(** Two colour keys pick the same colour. *)
Definition same_color (c d : colorpos) : Prop :=
  match c, d with
  | PaletteIndex i, PaletteIndex j => i = j
  | Position x, Position y => (x == y)%Q
  | _, _ => False
  end.

(** The running totals [last + L s], [last + L s + L (s+1)], ... of [n]
    lengths. *)
Fixpoint running_sums (L : nat -> Z) (s n : nat) (last : Z) : list Z :=
  match n with
  | O => []
  | S n' => (last + L s) :: running_sums L (S s) n' (last + L s)
  end.

(** The largest [END] among the rows of chromosome [c] (0 without rows). *)
Definition max_END (bbc : DataFrame) (c : string) : Z :=
  match map END (filter (fun b => String.eqb (CHR b) c) (rows bbc)) with
  | e :: es => fold_left Z.max es e
  | [] => 0
  end.

(** A row with another read-depth ratio. *)
Definition set_RD (b : Bin) (x : Q) : Bin :=
  mkBin (CHR b) (START b) (END b) (SAMPLE b) x (BAF b) (cn_normal b)
        (u_normal b) (clones b).

(** Two numpy floats are the same number (or both [nan], both [inf],
    both [-inf]). *)
Definition np_same (x y : npfloat) : Prop :=
  match x, y with
  | Finite a, Finite b => (a == b)%Q
  | PosInf, PosInf => True
  | NegInf, NegInf => True
  | NaN, NaN => True
  | _, _ => False
  end.


(** One bin of a table of two tumor clones. *)
Definition bin_2clones (chr : string) (e : Z) (sample : string) (rd baf : Q)
  (c1 c2 : string) : Bin :=
  mkBin chr 0 e sample rd baf "1|1" (2 # 10) [(c1, 5 # 10); (c2, 3 # 10)].

(** Two samples with one bin each on every chromosome chr1 .. chr22. *)
Definition table_two_samples : DataFrame :=
  mkFrame (bbc_header 2)
          (flat_map (fun i =>
                       [bin_2clones ("chr" ++ py_str i) (100 * Z.of_nat i) "A"
                                    1 (1 # 2) "2|2" "2|2";
                        bin_2clones ("chr" ++ py_str i) (50 * Z.of_nat i) "B"
                                    (3 # 2) (2 # 5) "2|2" "2|1"])
                    (seq 1 22)).

(** The same table with one more bin, on chrX, in the first sample. *)
Definition table_with_chrX : DataFrame :=
  mkFrame (bbc_header 2)
          (rows table_two_samples
             ++ [bin_2clones "chrX" 70 "A" 1 (1 # 2) "1|1" "1|0"]).







(* ================================================================= *)
(** * Properties *)

(** ** The result monad *)

Lemma bind_Ok {A B : Type} (c : result A) (f : A -> result B) (b : B) :
  bind c f = Ok b -> exists a, c = Ok a /\ f a = Ok b.
Proof.
  destruct c as [a|e]; simpl; intros H; [eauto | discriminate].
Qed.

Lemma mapM_Ok_map {A B : Type} (f : A -> result B) (g : A -> B) (l : list A) :
  (forall a, In a l -> f a = Ok (g a)) -> mapM f l = Ok (map g l).
Proof.
  induction l as [|a l IH]; simpl; intros H; [reflexivity|].
  rewrite (H a) by auto. simpl. rewrite IH by auto. reflexivity.
Qed.


Lemma mapM_Raise {A B : Type} (f : A -> result B) (l : list A) (a : A) :
  In a l -> is_ok (f a) = false -> is_ok (mapM f l) = false.
Proof.
  induction l as [|x l IH]; simpl; [tauto|].
  intros [->|Hin] Ha.
  - destruct (f a); [discriminate | reflexivity].
  - destruct (f x); simpl; [|reflexivity].
    specialize (IH Hin Ha). destruct (mapM f l); [discriminate | reflexivity].
Qed.

Lemma mapM_is_ok {A B : Type} (f : A -> result B) (l : list A) :
  (forall a, In a l -> is_ok (f a) = true) -> is_ok (mapM f l) = true.
Proof.
  induction l as [|x l IH]; simpl; intros H; [reflexivity|].
  pose proof (H x (or_introl eq_refl)) as Hx.
  destruct (f x); [|discriminate]. simpl.
  assert (Hl : is_ok (mapM f l) = true) by (apply IH; auto).
  destruct (mapM f l); [reflexivity | discriminate].
Qed.

(* ----------------------------------------------------------------- *)
(** ** Strings *)

Lemma split_no_sep (sep : ascii) (s : string) :
  all_chars (fun c => negb (Ascii.eqb c sep)) s = true -> split sep s = [s].
Proof.
  induction s as [|c r IH]; simpl; [reflexivity|].
  intros H. apply andb_true_iff in H as [Hc Hr].
  apply negb_true_iff in Hc. rewrite Hc, (IH Hr). reflexivity.
Qed.

Lemma split_app_sep (sep : ascii) (s t : string) :
  all_chars (fun c => negb (Ascii.eqb c sep)) s = true ->
  split sep (s ++ String sep t) = s :: split sep t.
Proof.
  induction s as [|c r IH]; simpl.
  - intros _. rewrite Ascii.eqb_refl. reflexivity.
  - intros H. apply andb_true_iff in H as [Hc Hr].
    apply negb_true_iff in Hc. rewrite Hc, (IH Hr). reflexivity.
Qed.

Lemma all_chars_impl (p q : ascii -> bool) (s : string) :
  (forall c, p c = true -> q c = true) ->
  all_chars p s = true -> all_chars q s = true.
Proof.
  intros Hpq. induction s as [|c r IH]; simpl; [reflexivity|].
  intros H. apply andb_true_iff in H as [Hc Hr].
  rewrite (Hpq _ Hc), (IH Hr). reflexivity.
Qed.

Lemma is_digit_range (c : ascii) :
  is_digit c = true -> (48 <= nat_of_ascii c <= 57)%nat.
Proof.
  unfold is_digit, digit_of.
  destruct ((48 <=? Z.of_nat (nat_of_ascii c)) && (Z.of_nat (nat_of_ascii c) <=? 57))
    eqn:E; [|discriminate].
  intros _. apply andb_true_iff in E as [E1 E2].
  apply Z.leb_le in E1, E2. lia.
Qed.

Lemma digit_not_bar (c : ascii) :
  is_digit c = true -> negb (Ascii.eqb c "|"%char) = true.
Proof.
  intros H. apply is_digit_range in H. apply negb_true_iff.
  apply Ascii.eqb_neq. intros ->.
  change (nat_of_ascii "|") with 124%nat in H. lia.
Qed.

Lemma digit_not_space (c : ascii) : is_digit c = true -> is_space c = false.
Proof.
  intros H. apply is_digit_range in H. unfold is_space.
  repeat match goal with
         | |- context [(?a <=? ?b)%nat] =>
             destruct (Nat.leb_spec a b); simpl
         | |- context [(?a =? ?b)%nat] =>
             destruct (Nat.eqb_spec a b); simpl
         end; try reflexivity; lia.
Qed.

Lemma lstrip_digits (s : string) :
  all_chars is_digit s = true -> lstrip s = s.
Proof.
  destruct s as [|c r]; simpl; [reflexivity|].
  intros H. apply andb_true_iff in H as [Hc _].
  rewrite (digit_not_space _ Hc). reflexivity.
Qed.

Lemma rstrip_digits (s : string) :
  all_chars is_digit s = true -> rstrip s = s.
Proof.
  induction s as [|c r IH]; simpl; [reflexivity|].
  intros H. apply andb_true_iff in H as [Hc Hr].
  rewrite (IH Hr). destruct r; [|reflexivity].
  rewrite (digit_not_space _ Hc). reflexivity.
Qed.

Lemma uint_string_digits (d : Decimal.uint) :
  all_chars is_digit (NilEmpty.string_of_uint d) = true.
Proof.
  induction d; simpl; auto.
Qed.

Lemma py_str_digits (n : nat) : all_chars is_digit (py_str n) = true.
Proof.
  unfold py_str, NilZero.string_of_uint.
  destruct (Nat.to_uint n) eqn:E; try reflexivity;
    rewrite <- E; apply uint_string_digits.
Qed.

Lemma int_digits_uint (d : Decimal.uint) :
  forall (acc : nat) (prev : bool),
    d <> Decimal.Nil \/ prev = true ->
    int_digits (Z.of_nat acc) prev (NilEmpty.string_of_uint d)
    = Some (Z.of_nat (Nat.of_uint_acc d acc)).
Proof.
  induction d; intros acc prev H;
    try (cbn [NilEmpty.string_of_uint int_digits Nat.of_uint_acc];
         match goal with
         | |- context [digit_of ?c] =>
             let v := eval vm_compute in (digit_of c) in
             change (digit_of c) with v; cbv iota
         end;
         match goal with
         | |- int_digits ?z true _ = Some (Z.of_nat (Nat.of_uint_acc _ ?a)) =>
             replace z with (Z.of_nat a)
               by (rewrite Nat.tail_mul_spec; lia);
             apply IHd; right; reflexivity
         end).
  simpl. destruct H as [H | ->]; [congruence | reflexivity].
Qed.

Lemma py_int_py_str (n : nat) : py_int (py_str n) = Ok (Z.of_nat n).
Proof.
  pose proof (py_str_digits n) as Hd.
  unfold py_int, strip. rewrite (lstrip_digits _ Hd), (rstrip_digits _ Hd).
  assert (Hv : int_digits 0 false (py_str n) = Some (Z.of_nat n)).
  { unfold py_str, NilZero.string_of_uint.
    pose proof (Unsigned.of_to n) as Hn. unfold Nat.of_uint in Hn.
    destruct (Nat.to_uint n) eqn:E;
      try (rewrite <- Hn at 1;
           apply (int_digits_uint _ 0%nat false); left; discriminate).
    simpl in Hn. subst n. reflexivity. }
  destruct (py_str n) as [|c r] eqn:E; [simpl in Hv; discriminate|].
  simpl in Hd. apply andb_true_iff in Hd as [Hc _].
  destruct c as [[] [] [] [] [] [] [] []];
    try (vm_compute in Hc; discriminate Hc);
    cbv beta iota zeta; rewrite Hv; reflexivity.
Qed.

(* ----------------------------------------------------------------- *)
(** ** State codec *)

Lemma split_state_token (a b : nat) :
  split "|" (state_token a b) = [py_str a; py_str b].
Proof.
  unfold state_token. simpl append.
  rewrite split_app_sep, split_no_sep; [reflexivity| |];
    eapply all_chars_impl; try apply py_str_digits; apply digit_not_bar.
Qed.

(** On a well-formed token [str2state] yields the pair and [cn2total]
    its sum. *)
Lemma str2state_token (a b : nat) :
  str2state (state_token a b) = Ok [Z.of_nat a; Z.of_nat b].
Proof.
  unfold str2state. rewrite split_state_token. simpl.
  rewrite !py_int_py_str. reflexivity.
Qed.

Lemma cn2total_token (a b : nat) :
  cn2total (state_token a b) = Ok (Z.of_nat a + Z.of_nat b).
Proof.
  unfold cn2total. rewrite split_state_token. simpl.
  rewrite !py_int_py_str. reflexivity.
Qed.

(** [cn2total] returns exactly when the token splits into two pieces
    that [int] accepts. *)
Lemma cn2total_Ok_iff (s : string) (t : Z) :
  cn2total s = Ok t <->
  exists t0 t1 a b,
    split "|" s = [t0; t1] /\ py_int t0 = Ok a /\ py_int t1 = Ok b /\ t = a + b.
Proof.
  unfold cn2total. split.
  - destruct (split "|" s) as [|t0 [|t1 [|t2 l]]]; simpl; try discriminate.
    intros H. apply bind_Ok in H as (a & Ha & H).
    apply bind_Ok in H as (b & Hb & H). injection H as <-.
    exists t0, t1, a, b. auto.
  - intros (t0 & t1 & a & b & -> & Ha & Hb & ->). simpl.
    rewrite Ha, Hb. reflexivity.
Qed.

(** [str2state] returns exactly when [int] accepts every piece, however
    many pieces there are. *)
Lemma str2state_Ok_iff (s : string) (l : list Z) :
  str2state s = Ok l <-> Forall2 (fun t z => py_int t = Ok z) (split "|" s) l.
Proof.
  unfold str2state. generalize (split "|" s) as ts. intros ts. revert l.
  induction ts as [|t ts IH]; intros l; simpl.
  - split; intros H; [injection H as <-; constructor | inversion H; reflexivity].
  - split.
    + intros H. apply bind_Ok in H as (z & Hz & H).
      apply bind_Ok in H as (zs & Hzs & H). injection H as <-.
      constructor; [assumption | apply IH; assumption].
    + intros H. inversion H as [|? z ? zs Hz Hzs]; subst.
      rewrite Hz. simpl. apply IH in Hzs. rewrite Hzs. reflexivity.
Qed.

(** C9 (the code departs from the claim): a token must split into
    exactly two integers, and [cn2total] rejects any other token with its
    [assert]; [str2state], the parser that returns the state, has no
    such check: it returns a triple for ["1|2|3"] and a 1-tuple for
    ["5"], the very tokens [cn2total] refuses. *)
Theorem str2state_accepts_wrong_arity :
  str2state "1|2|3" = Ok [1; 2; 3] /\
  str2state "5" = Ok [5] /\
  cn2total "1|2|3" = Raise AssertionError /\
  cn2total "5" = Raise AssertionError.
Proof.
  repeat split; reflexivity.
Qed.

(* ----------------------------------------------------------------- *)
(** ** Expected-value projector *)

Lemma mapM_tuple_get_0 (states : list (Z * Z)) :
  mapM (fun x => tuple_get x 0) (map (fun s => [fst s; snd s]) states)
  = Ok (map fst states).
Proof.
  induction states as [|s l IH]; simpl; [reflexivity|].
  rewrite IH. reflexivity.
Qed.

Lemma mapM_tuple_get_1 (states : list (Z * Z)) :
  mapM (fun x => tuple_get x 1) (map (fun s => [fst s; snd s]) states)
  = Ok (map snd states).
Proof.
  induction states as [|s l IH]; simpl; [reflexivity|].
  rewrite IH. reflexivity.
Qed.

Lemma combine_fst_snd {A B : Type} (l : list (A * B)) :
  combine (map fst l) (map snd l) = l.
Proof.
  induction l as [|[a b] l IH]; simpl; [reflexivity | now rewrite IH].
Qed.





(* ----------------------------------------------------------------- *)
(** ** Colour mapping *)

Lemma dict_get_map {K V W : Type} (eq_dec : forall x y : K, {x = y} + {x <> y})
  (f : V -> W) (d : list (K * V)) (k : K) :
  dict_get eq_dec (map (fun kv => (fst kv, f (snd kv))) d) k
  = option_map f (dict_get eq_dec d k).
Proof.
  induction d as [|[k' v] d IH]; simpl; [reflexivity|].
  destruct (eq_dec k k'); [reflexivity | exact IH].
Qed.

(** C6: with N the number of entries of the mapping, a key of rank [r]
    is coloured by palette index [r mod 20] when N <= 20 and by position
    [(r mod 40) / N] when N > 20; 21 entries take the second branch. *)
Theorem color_mapping_rank {K : Type}
  (eq_dec : forall x y : K, {x = y} + {x <> y})
  (mapping : list (K * Z)) (k : K) (r : Z) :
  dict_get eq_dec mapping k = Some r ->
  let N := Z.of_nat (List.length mapping) in
  (N <= 20 ->
   dict_get eq_dec (color_mapping mapping) k = Some (PaletteIndex (r mod 20)))
  /\
  (N > 20 ->
   dict_get eq_dec (color_mapping mapping) k
   = Some (Position (inject_Z (r mod 40) / inject_Z N)))
  /\
  (N = 21 ->
   dict_get eq_dec (color_mapping mapping) k
   = Some (Position (inject_Z (r mod 40) / 21))).
Proof.
  intros Hk N. unfold color_mapping. fold N.
  assert (Hgt : N > 20 ->
                dict_get eq_dec
                  (if N <=? 20
                   then map (fun kv => (fst kv, PaletteIndex (snd kv mod 20))) mapping
                   else map (fun kv => (fst kv,
                          Position (inject_Z (snd kv mod 40) / inject_Z N))) mapping) k
                = Some (Position (inject_Z (r mod 40) / inject_Z N))).
  { intros HN. destruct (Z.leb_spec N 20) as [H|H]; [lia|].
    rewrite (dict_get_map eq_dec
               (fun v => Position (inject_Z (v mod 40) / inject_Z N))).
    rewrite Hk. reflexivity. }
  split; [|split].
  - intros HN. destruct (Z.leb_spec N 20) as [H|H]; [|lia].
    rewrite (dict_get_map eq_dec (fun v => PaletteIndex (v mod 20))).
    rewrite Hk. reflexivity.
  - exact Hgt.
  - intros HN. rewrite Hgt by lia. rewrite HN. reflexivity.
Qed.

(** With 21 states, rank 21 is placed at position 21/21 of the
    colormap. *)
Lemma color_mapping_rank_witness :
  dict_get Nat.eq_dec (color_mapping mapping_21) 21%nat
  = Some (Position (inject_Z (21 mod 40) / 21)).
Proof.
  apply (proj2 (proj2 (color_mapping_rank Nat.eq_dec mapping_21 21%nat 21
                         eq_refl))).
  reflexivity.
Defined.

(* ----------------------------------------------------------------- *)
(** ** State indexer *)

Section ReindexFacts.
Context {K : Type} (K_eq_dec : forall x y : K, {x = y} + {x <> y}).

Local Abbreviation count := (count_occ K_eq_dec).
Local Abbreviation fi := (first_index K_eq_dec).

Lemma counter_add_keys (c : list (K * nat)) (x : K) :
  map fst (counter_add K_eq_dec c x)
  = if in_dec K_eq_dec x (map fst c) then map fst c
    else (map fst c ++ [x])%list.
Proof.
  induction c as [|[k n] c IH]; simpl; [reflexivity|].
  destruct (K_eq_dec x k) as [->|Hne]; simpl.
  - destruct (K_eq_dec k k); [reflexivity | congruence].
  - rewrite IH. destruct (K_eq_dec k x); [congruence|].
    destruct (in_dec K_eq_dec x (map fst c)); reflexivity.
Qed.

Lemma counter_get_add (c : list (K * nat)) (x k : K) :
  counter_get K_eq_dec (counter_add K_eq_dec c x) k
  = if K_eq_dec x k then S (counter_get K_eq_dec c k)
    else counter_get K_eq_dec c k.
Proof.
  unfold counter_get.
  induction c as [|[k' n] c IH]; simpl.
  - destruct (K_eq_dec k x), (K_eq_dec x k); congruence.
  - destruct (K_eq_dec x k') as [->|Hne]; simpl.
    + destruct (K_eq_dec k k') as [->|Hk].
      * destruct (K_eq_dec k' k'); congruence.
      * destruct (K_eq_dec k' k); congruence.
    + destruct (K_eq_dec k k') as [->|Hk].
      * destruct (K_eq_dec x k'); congruence.
      * exact IH.
Qed.

Lemma Counter_snoc (l : list K) (x : K) :
  Counter K_eq_dec (l ++ [x]) = counter_add K_eq_dec (Counter K_eq_dec l) x.
Proof. unfold Counter. rewrite fold_left_app. reflexivity. Qed.

(** A [Counter] counts occurrences. *)
Lemma Counter_get (l : list K) (k : K) :
  counter_get K_eq_dec (Counter K_eq_dec l) k = count l k.
Proof.
  induction l as [|x l IH] using rev_ind; [reflexivity|].
  rewrite Counter_snoc, counter_get_add, count_occ_app, IH. simpl.
  destruct (K_eq_dec x k); lia.
Qed.

Lemma Counter_keys_In (l : list K) (k : K) :
  In k (map fst (Counter K_eq_dec l)) <-> In k l.
Proof.
  revert k. induction l as [|x l IH] using rev_ind; intros k; [simpl; tauto|].
  rewrite Counter_snoc, counter_add_keys, in_app_iff. simpl.
  destruct (in_dec K_eq_dec x (map fst (Counter K_eq_dec l))) as [Hin|Hnin].
  - rewrite IH. rewrite IH in Hin. intuition (subst; auto).
  - rewrite in_app_iff, IH. simpl. tauto.
Qed.

Lemma first_index_app_In (k x : K) (l : list K) :
  In k l -> fi k (l ++ [x]) = fi k l.
Proof.
  induction l as [|y l IH]; simpl; [tauto|].
  intros H. destruct (K_eq_dec k y); [reflexivity|].
  f_equal. apply IH. destruct H; congruence.
Qed.

Lemma first_index_lt (k : K) (l : list K) :
  In k l -> (fi k l < List.length l)%nat.
Proof.
  induction l as [|y l IH]; simpl; [tauto|].
  intros H. destruct (K_eq_dec k y); [lia|].
  assert (In k l) by (destruct H; congruence). specialize (IH H0). lia.
Qed.

Lemma first_index_app_new (x : K) (l : list K) :
  ~ In x l -> fi x (l ++ [x]) = List.length l.
Proof.
  induction l as [|y l IH]; simpl; intros H.
  - destruct (K_eq_dec x x); congruence.
  - destruct (K_eq_dec x y); [subst; tauto|]. f_equal. apply IH. tauto.
Qed.

Lemma StronglySorted_impl_In {A : Type} (R R' : A -> A -> Prop) (l : list A) :
  (forall a b, In a l -> In b l -> R a b -> R' a b) ->
  StronglySorted R l -> StronglySorted R' l.
Proof.
  induction l as [|x l IH]; intros Himp Hs; [constructor|].
  inversion Hs as [|? ? Hl Hx]; subst. constructor.
  - apply IH; [|assumption]. intros a b Ha Hb. apply Himp; simpl; auto.
  - rewrite Forall_forall in *. intros b Hb.
    apply Himp; simpl; auto.
Qed.

Lemma StronglySorted_snoc {A : Type} (R : A -> A -> Prop) (l : list A) (x : A) :
  StronglySorted R l -> (forall a, In a l -> R a x) ->
  StronglySorted R (l ++ [x]).
Proof.
  induction l as [|y l IH]; simpl; intros Hs Hx.
  - repeat constructor.
  - inversion Hs as [|? ? Hl Hy]; subst. constructor.
    + apply IH; auto.
    + rewrite Forall_forall in *. intros b Hb.
      apply in_app_iff in Hb as [Hb|[<-|[]]]; auto.
Qed.

(** The keys of a [Counter] are in order of first occurrence. *)
Lemma Counter_keys_sorted (l : list K) :
  StronglySorted (fun k1 k2 => fi k1 l < fi k2 l)%nat
                 (map fst (Counter K_eq_dec l)).
Proof.
  induction l as [|x l IH] using rev_ind; [constructor|].
  rewrite Counter_snoc, counter_add_keys.
  assert (Hold : StronglySorted
                   (fun k1 k2 => fi k1 (l ++ [x]) < fi k2 (l ++ [x]))%nat
                   (map fst (Counter K_eq_dec l))).
  { eapply StronglySorted_impl_In; [|exact IH].
    intros a b Ha Hb. rewrite Counter_keys_In in Ha, Hb.
    rewrite !first_index_app_In by assumption. auto. }
  destruct (in_dec K_eq_dec x (map fst (Counter K_eq_dec l))) as [Hin|Hnin];
    [exact Hold|].
  apply StronglySorted_snoc; [exact Hold|].
  intros a Ha. rewrite Counter_keys_In in Ha.
  rewrite first_index_app_In by assumption.
  rewrite first_index_app_new by (rewrite <- Counter_keys_In; exact Hnin).
  apply first_index_lt. assumption.
Qed.

Lemma insert_by_count_In (x b : K * nat) (l : list (K * nat)) :
  In b (insert_by_count x l) <-> b = x \/ In b l.
Proof.
  induction l as [|y l IH]; simpl; [intuition|].
  destruct (snd y <=? snd x)%nat; simpl; [intuition|].
  rewrite IH. intuition.
Qed.

Lemma insert_by_count_perm (x : K * nat) (l : list (K * nat)) :
  Permutation (x :: l) (insert_by_count x l).
Proof.
  induction l as [|y l IH]; simpl; [reflexivity|].
  destruct (snd y <=? snd x)%nat; [reflexivity|].
  rewrite perm_swap. apply perm_skip. exact IH.
Qed.

Lemma most_common_perm (c : list (K * nat)) :
  Permutation c (most_common c).
Proof.
  induction c as [|x c IH]; simpl; [constructor|].
  rewrite <- insert_by_count_perm. apply perm_skip. exact IH.
Qed.

(** Inserting an item that is older than all the others keeps the
    list sorted by prevalence. *)
Lemma insert_by_count_sorted (pos : K -> nat) (x : K * nat)
  (l : list (K * nat)) :
  StronglySorted (by_prevalence pos) l ->
  (forall b, In b l -> pos (fst x) < pos (fst b))%nat ->
  StronglySorted (by_prevalence pos) (insert_by_count x l).
Proof.
  induction l as [|y l IH]; simpl; intros Hs Hx.
  - repeat constructor.
  - inversion Hs as [|? ? Hl Hy]; subst. rewrite Forall_forall in Hy.
    destruct (Nat.leb_spec (snd y) (snd x)) as [Hle|Hlt].
    + constructor; [exact Hs|]. rewrite Forall_forall. intros b Hb.
      assert (Hbx : (snd b <= snd x)%nat).
      { destruct Hb as [<-|Hb]; [exact Hle|].
        destruct (Hy b Hb) as [H|[H _]]; lia. }
      specialize (Hx b Hb). unfold by_prevalence. lia.
    + constructor.
      * apply IH; [exact Hl|]. intros b Hb. apply Hx. auto.
      * rewrite Forall_forall. intros b Hb.
        apply insert_by_count_In in Hb as [->|Hb]; [left; exact Hlt | auto].
Qed.

(** [most_common] sorts by descending count and keeps items of equal
    count in the order of the [Counter]. *)
Lemma most_common_sorted (pos : K -> nat) (c : list (K * nat)) :
  StronglySorted (fun k1 k2 => pos k1 < pos k2)%nat (map fst c) ->
  StronglySorted (by_prevalence pos) (most_common c).
Proof.
  induction c as [|x c IH]; simpl; intros Hs; [constructor|].
  inversion Hs as [|? ? Hc Hx]; subst. rewrite Forall_forall in Hx.
  apply insert_by_count_sorted; [apply IH; exact Hc|].
  intros b Hb. apply Hx. apply in_map.
  eapply Permutation_in; [symmetry; apply most_common_perm | exact Hb].
Qed.

Lemma StronglySorted_lt_NoDup (pos : K -> nat) (l : list K) :
  StronglySorted (fun k1 k2 => pos k1 < pos k2)%nat l -> NoDup l.
Proof.
  induction 1 as [|x l Hl IH Hx]; constructor; [|exact IH].
  rewrite Forall_forall in Hx. intros Hin. specialize (Hx x Hin). lia.
Qed.

Lemma dict_set_new {V : Type} (d : list (K * V)) (k : K) (v : V) :
  ~ In k (map fst d) -> dict_set K_eq_dec d k v = (d ++ [(k, v)])%list.
Proof.
  induction d as [|[k' v'] d IH]; simpl; intros H; [reflexivity|].
  destruct (K_eq_dec k k'); [subst; tauto|]. f_equal. apply IH. tauto.
Qed.

(** With distinct keys the loop of [reindex] numbers the items in
    order. *)
Lemma reindex_loop_combine (items : list (K * nat)) :
  forall (acc : list (K * Z)) (j : Z),
    NoDup (map fst acc ++ map fst items) ->
    reindex_loop K_eq_dec items acc j
    = (acc ++ combine (map fst items) (ranks_from j (List.length items)))%list.
Proof.
  induction items as [|[k n] items IH]; intros acc j Hnd; simpl.
  - rewrite app_nil_r. reflexivity.
  - simpl in Hnd. rewrite dict_set_new.
    + rewrite IH.
      * rewrite <- app_assoc. reflexivity.
      * rewrite map_app, <- app_assoc. exact Hnd.
    + apply NoDup_remove_2 in Hnd. intros Hin. apply Hnd.
      apply in_app_iff. auto.
Qed.

Lemma dict_get_ranks_Some (ks : list K) (k : K) :
  forall (j r : Z),
    dict_get K_eq_dec (combine ks (ranks_from j (List.length ks))) k = Some r ->
    j <= r /\ In k ks.
Proof.
  induction ks as [|k0 ks IH]; intros j r; simpl; [discriminate|].
  destruct (K_eq_dec k k0) as [->|Hne].
  - intros H. injection H as <-. split; [lia | auto].
  - intros H. apply IH in H as [H1 H2]. split; [lia | auto].
Qed.

Lemma dict_get_ranks_In (ks : list K) (k : K) :
  forall (j : Z),
    In k ks ->
    exists r, dict_get K_eq_dec (combine ks (ranks_from j (List.length ks))) k
              = Some r.
Proof.
  induction ks as [|k0 ks IH]; intros j; simpl; [tauto|].
  intros H. destruct (K_eq_dec k k0) as [->|Hne]; [eauto|].
  apply IH. destruct H; congruence.
Qed.

Lemma dict_get_ranks_inj (ks : list K) (k1 k2 : K) :
  forall (j r : Z),
    dict_get K_eq_dec (combine ks (ranks_from j (List.length ks))) k1 = Some r ->
    dict_get K_eq_dec (combine ks (ranks_from j (List.length ks))) k2 = Some r ->
    k1 = k2.
Proof.
  induction ks as [|k0 ks IH]; intros j r; simpl; [discriminate|].
  destruct (K_eq_dec k1 k0) as [->|H1], (K_eq_dec k2 k0) as [->|H2].
  - reflexivity.
  - intros Ha Hb. injection Ha as <-. apply dict_get_ranks_Some in Hb. lia.
  - intros Ha Hb. injection Hb as <-. apply dict_get_ranks_Some in Ha. lia.
  - apply IH.
Qed.

(** In a sorted list of items numbered in order, a smaller number
    means an earlier item. *)
Lemma sorted_ranks (R : K * nat -> K * nat -> Prop) (l : list (K * nat))
  (k1 k2 : K) :
  forall (j r1 r2 : Z),
    StronglySorted R l ->
    dict_get K_eq_dec (combine (map fst l) (ranks_from j (List.length l))) k1
    = Some r1 ->
    dict_get K_eq_dec (combine (map fst l) (ranks_from j (List.length l))) k2
    = Some r2 ->
    r1 < r2 ->
    exists a b, In a l /\ In b l /\ fst a = k1 /\ fst b = k2 /\ R a b.
Proof.
  induction l as [|a0 l IH]; intros j r1 r2 Hs; simpl; [discriminate|].
  inversion Hs as [|? ? Hl Ha0]; subst. rewrite Forall_forall in Ha0.
  destruct (K_eq_dec k1 (fst a0)) as [->|H1], (K_eq_dec k2 (fst a0)) as [->|H2].
  - intros Ha Hb. injection Ha as <-. injection Hb as <-. lia.
  - intros Ha Hb _. rewrite <- (length_map fst) in Hb.
    apply dict_get_ranks_Some in Hb as [_ Hb].
    apply in_map_iff in Hb as (b & <- & Hb).
    exists a0, b. intuition.
  - intros Ha Hb Hlt. injection Hb as <-. rewrite <- (length_map fst) in Ha.
    apply dict_get_ranks_Some in Ha. lia.
  - intros Ha Hb Hlt.
    destruct (IH (j + 1) r1 r2 Hl Ha Hb Hlt) as (a & b & ? & ? & ? & ? & ?).
    exists a, b. intuition.
Qed.

Lemma combine_ranks_fst (ks : list K) (j : Z) :
  map fst (combine ks (ranks_from j (List.length ks))) = ks.
Proof.
  revert j. induction ks as [|k ks IH]; intros j; simpl; [reflexivity|].
  rewrite IH. reflexivity.
Qed.

Lemma combine_ranks_snd (ks : list K) (j : Z) :
  map snd (combine ks (ranks_from j (List.length ks)))
  = ranks_from j (List.length ks).
Proof.
  revert j. induction ks as [|k ks IH]; intros j; simpl; [reflexivity|].
  rewrite IH. reflexivity.
Qed.

Lemma dict_get_In_NoDup {V : Type} (d : list (K * V)) (k : K) (v : V) :
  NoDup (map fst d) -> In (k, v) d -> dict_get K_eq_dec d k = Some v.
Proof.
  induction d as [|[k' v'] d IH]; simpl; [tauto|].
  intros Hnd [H|H].
  - injection H as -> ->. destruct (K_eq_dec k k); congruence.
  - inversion Hnd as [|? ? Hk' Hd]; subst.
    destruct (K_eq_dec k k') as [->|Hne]; [|auto].
    exfalso. apply Hk'. apply (in_map fst) in H. exact H.
Qed.

Lemma Counter_keys_NoDup (l : list K) :
  NoDup (map fst (Counter K_eq_dec l)).
Proof.
  eapply StronglySorted_lt_NoDup. apply Counter_keys_sorted.
Qed.

(** The mapping of [reindex]: the items of [most_common], numbered
    from 1. *)
Lemma reindex_mapping_combine (labels : list K) :
  let items := most_common (Counter K_eq_dec labels) in
  reindex_mapping K_eq_dec labels
  = combine (map fst items) (ranks_from 1 (List.length items)).
Proof.
  intros items. unfold reindex_mapping. fold items.
  rewrite reindex_loop_combine; [reflexivity|]. simpl.
  eapply Permutation_NoDup; [|apply Counter_keys_NoDup].
  apply Permutation_map. apply most_common_perm.
Qed.

Lemma mapM_Forall2 {A B : Type} (f : A -> result B) (l : list A) :
  (forall a, In a l -> exists b, f a = Ok b) ->
  exists bs, mapM f l = Ok bs /\ Forall2 (fun a b => f a = Ok b) l bs.
Proof.
  induction l as [|a l IH]; simpl; intros H.
  - exists []. split; [reflexivity | constructor].
  - destruct (H a (or_introl eq_refl)) as (b & Hb).
    destruct IH as (bs & Hbs & HF); [auto|].
    exists (b :: bs). rewrite Hb. simpl. rewrite Hbs. simpl.
    split; [reflexivity | constructor; assumption].
Qed.

Lemma precedes_asym (labels : list K) (k1 k2 : K) :
  precedes K_eq_dec labels k1 k2 -> ~ precedes K_eq_dec labels k2 k1.
Proof. unfold precedes. lia. Qed.

Lemma reindex_mapping_keys (labels : list K) (k : K) :
  In k labels <-> In k (map fst (reindex_mapping K_eq_dec labels)).
Proof.
  rewrite reindex_mapping_combine. cbv zeta.
  rewrite <- (length_map fst (most_common _)), combine_ranks_fst.
  rewrite <- (Counter_keys_In labels k).
  split; apply Permutation_in; [|symmetry];
    apply Permutation_map, most_common_perm.
Qed.

Lemma dict_get_keys {V : Type} (d : list (K * V)) (k : K) :
  In k (map fst d) <-> exists v, dict_get K_eq_dec d k = Some v.
Proof.
  induction d as [|[k' v'] d IH]; simpl.
  - split; [tauto | intros [v H]; discriminate].
  - destruct (K_eq_dec k k') as [->|Hne].
    + split; eauto.
    + rewrite <- IH. split; [intros [H|H]; [congruence | exact H] | auto].
Qed.

Variable show : K -> string.

(** [reindex] does not raise: every label is a key of the mapping. *)
Lemma reindex_returns (labels : list K) :
  exists ranks,
    reindex K_eq_dec show labels
    = Ok (ranks, reindex_mapping K_eq_dec labels) /\
    Forall2 (fun a r => dict_get K_eq_dec (reindex_mapping K_eq_dec labels) a
                        = Some r) labels ranks.
Proof.
  unfold reindex. fold (reindex_mapping K_eq_dec labels).
  set (m := reindex_mapping K_eq_dec labels).
  destruct (mapM_Forall2 (dict_lookup K_eq_dec show m) labels)
    as (ranks & Hranks & HF).
  { intros a Ha. apply reindex_mapping_keys in Ha. fold m in Ha.
    apply dict_get_keys in Ha as (r & Hr).
    unfold dict_lookup. rewrite Hr. eauto. }
  exists ranks. rewrite Hranks. split; [reflexivity|].
  eapply Forall2_impl; [|exact HF]. intros a r. unfold dict_lookup.
  destruct (dict_get K_eq_dec m a);
    [intros H; injection H as <-; reflexivity | discriminate].
Qed.

(** The mapping of [reindex] ranks the labels by prevalence. *)
Lemma reindex_mapping_ranking (labels : list K) :
  prevalence_ranking K_eq_dec labels (reindex_mapping K_eq_dec labels).
Proof.
  set (m := reindex_mapping K_eq_dec labels).
  pose proof (reindex_mapping_combine labels) as Hm. fold m in Hm.
  cbv zeta in Hm.
  set (C := Counter K_eq_dec labels) in *.
  set (items := most_common C) in *.
  assert (Hperm : Permutation (map fst C) (map fst items))
    by (apply Permutation_map, most_common_perm).
  assert (Hkeys : map fst m = map fst items).
  { rewrite Hm. rewrite <- (length_map fst items). apply combine_ranks_fst. }
  assert (Hin : forall k, In k labels <-> In k (map fst m)).
  { intros k. rewrite Hkeys. rewrite <- (Counter_keys_In labels k).
    split; apply Permutation_in; [|symmetry]; exact Hperm. }
  assert (Hlt : forall k1 k2 r1 r2,
             dict_get K_eq_dec m k1 = Some r1 ->
             dict_get K_eq_dec m k2 = Some r2 ->
             r1 < r2 -> precedes K_eq_dec labels k1 k2).
  { intros k1 k2 r1 r2 H1 H2 Hr. rewrite Hm in H1, H2.
    pose proof (most_common_sorted (fun k => fi k labels) C
                  (Counter_keys_sorted labels)) as Hs.
    fold items in Hs.
    destruct (sorted_ranks _ items k1 k2 1 r1 r2 Hs H1 H2 Hr)
      as ([ka na] & [kb nb] & Ha & Hb & Hka & Hkb & HR).
    simpl in Hka, Hkb. subst ka kb.
    assert (Hcount : forall k n, In (k, n) items -> n = count labels k).
    { intros k n Hk. rewrite <- Counter_get. fold C. unfold counter_get.
      rewrite (dict_get_In_NoDup C k n); [reflexivity| |].
      - apply Counter_keys_NoDup.
      - eapply Permutation_in; [symmetry; apply most_common_perm | exact Hk]. }
    apply Hcount in Ha, Hb. subst na nb.
    exact HR. }
  split; [|split; [|split]].
  - rewrite Hkeys. eapply Permutation_NoDup; [exact Hperm|].
    apply Counter_keys_NoDup.
  - exact Hin.
  - rewrite Hm at 1. rewrite <- (length_map fst items).
    rewrite combine_ranks_snd. f_equal.
    rewrite <- (length_map fst m), Hkeys. reflexivity.
  - intros k1 k2 r1 r2 H1 H2. split; [apply Hlt; assumption|].
    intros Hp. destruct (Z.lt_trichotomy r1 r2) as [H|[H|H]]; [exact H| |].
    + exfalso. subst r2. rewrite Hm in H1, H2.
      rewrite <- (length_map fst items) in H1, H2.
      pose proof (dict_get_ranks_inj _ _ _ _ _ H1 H2). subst k2.
      exact (precedes_asym _ _ _ Hp Hp).
    + exfalso. exact (precedes_asym _ _ _ Hp (Hlt _ _ _ _ H2 H1 H)).
Qed.

Lemma ranks_from_ge (n : nat) : forall j r, In r (ranks_from j n) -> j <= r.
Proof.
  induction n as [|n IH]; intros j r; simpl; [tauto|].
  intros [<-|H]; [lia|]. apply IH in H. lia.
Qed.

Lemma dict_get_In {V : Type} (d : list (K * V)) (k : K) (v : V) :
  dict_get K_eq_dec d k = Some v -> In (k, v) d.
Proof.
  induction d as [|[k' v'] d IH]; simpl; [discriminate|].
  destruct (K_eq_dec k k') as [->|Hne].
  - intros H. injection H as <-. auto.
  - auto.
Qed.

(** Entries numbered in order whose numbers respect a relation on the
    keys list the keys sorted by that relation. *)
Lemma ranking_keys_sorted (R : K -> K -> Prop) (m : list (K * Z)) :
  forall j,
    NoDup (map fst m) ->
    map snd m = ranks_from j (List.length m) ->
    (forall k1 k2 r1 r2,
        dict_get K_eq_dec m k1 = Some r1 ->
        dict_get K_eq_dec m k2 = Some r2 ->
        r1 < r2 -> R k1 k2) ->
    StronglySorted R (map fst m).
Proof.
  induction m as [|[k0 r0] m IH]; intros j Hnd Hsnd HR; [constructor|].
  simpl in *. injection Hsnd as -> Hsnd.
  inversion Hnd as [|? ? Hk0 Hnd']; subst.
  assert (Htail : forall k r, dict_get K_eq_dec m k = Some r ->
                              k <> k0 /\ j + 1 <= r).
  { intros k r Hk. apply dict_get_In in Hk. split.
    - intros ->. apply Hk0. apply (in_map fst) in Hk. exact Hk.
    - apply (ranks_from_ge (List.length m)). rewrite <- Hsnd.
      apply (in_map snd) in Hk. exact Hk. }
  constructor.
  - apply (IH (j + 1)); [exact Hnd' | exact Hsnd|].
    intros k1 k2 r1 r2 H1 H2. apply HR.
    + destruct (K_eq_dec k1 k0); [destruct (Htail _ _ H1); congruence | exact H1].
    + destruct (K_eq_dec k2 k0); [destruct (Htail _ _ H2); congruence | exact H2].
  - rewrite Forall_forall. intros k Hk.
    apply (proj1 (dict_get_keys m k)) in Hk as (r & Hr).
    destruct (Htail _ _ Hr) as [Hne Hge].
    apply (HR k0 k j r).
    + destruct (K_eq_dec k0 k0); congruence.
    + destruct (K_eq_dec k k0); [congruence | exact Hr].
    + lia.
Qed.

(** Two lists sorted by the same asymmetric relation and holding the
    same elements are the same list. *)
Lemma sorted_same_elements (R : K -> K -> Prop) (l1 : list K) :
  (forall a b, R a b -> ~ R b a) ->
  forall l2,
    StronglySorted R l1 -> StronglySorted R l2 ->
    NoDup l1 -> NoDup l2 ->
    (forall x, In x l1 <-> In x l2) ->
    l1 = l2.
Proof.
  intros Hasym. induction l1 as [|x1 l1 IH]; intros [|x2 l2] S1 S2 N1 N2 Hin.
  - reflexivity.
  - exfalso. apply (proj2 (Hin x2)). simpl. auto.
  - exfalso. apply (proj1 (Hin x1)). simpl. auto.
  - inversion S1 as [|? ? S1' F1]; inversion S2 as [|? ? S2' F2]; subst.
    inversion N1 as [|? ? Hx1 N1']; inversion N2 as [|? ? Hx2 N2']; subst.
    rewrite Forall_forall in F1, F2.
    assert (E : x1 = x2).
    { destruct (proj1 (Hin x1) (or_introl eq_refl)) as [E|H1]; [auto|].
      destruct (proj2 (Hin x2) (or_introl eq_refl)) as [E|H2]; [auto|].
      exfalso. exact (Hasym _ _ (F1 _ H2) (F2 _ H1)). }
    subst x2. f_equal. apply IH; try assumption.
    intros x. split; intros Hx.
    + destruct (proj1 (Hin x) (or_intror Hx)) as [->|H]; [contradiction | exact H].
    + destruct (proj2 (Hin x) (or_intror Hx)) as [->|H]; [contradiction | exact H].
Qed.

Lemma fst_snd_eq {V : Type} (m m' : list (K * V)) :
  map fst m = map fst m' -> map snd m = map snd m' -> m = m'.
Proof.
  revert m'. induction m as [|[k v] m IH]; intros [|[k' v'] m']; simpl;
    try discriminate; [reflexivity|].
  intros H1 H2. injection H1 as -> H1. injection H2 as -> H2.
  f_equal. apply IH; assumption.
Qed.

(** A list of labels has one prevalence ranking. *)
Lemma prevalence_ranking_unique (labels : list K) (m m' : list (K * Z)) :
  prevalence_ranking K_eq_dec labels m ->
  prevalence_ranking K_eq_dec labels m' ->
  m = m'.
Proof.
  intros (N1 & I1 & S1 & O1) (N2 & I2 & S2 & O2).
  assert (Hkeys : map fst m = map fst m').
  { apply (sorted_same_elements (precedes K_eq_dec labels)).
    - apply precedes_asym.
    - apply (ranking_keys_sorted _ m 1 N1 S1).
      intros k1 k2 r1 r2 H1 H2. apply (O1 k1 k2 r1 r2 H1 H2).
    - apply (ranking_keys_sorted _ m' 1 N2 S2).
      intros k1 k2 r1 r2 H1 H2. apply (O2 k1 k2 r1 r2 H1 H2).
    - exact N1.
    - exact N2.
    - intros x. rewrite <- I1, <- I2. tauto. }
  apply fst_snd_eq; [exact Hkeys|].
  rewrite S1, S2. f_equal.
  rewrite <- (length_map fst m), <- (length_map fst m'), Hkeys. reflexivity.
Qed.

(** C5: [reindex] counts the occurrences of each distinct key, sorts
    the distinct keys by descending count, ties by first occurrence in
    the input, and numbers them 1..N in that order. It never fails and
    its first result gives each label its rank. The mapping is the only
    one of that description, so it is fixed by the input sequence alone:
    no other iteration order enters. *)
Theorem reindex_prevalence_ranks (labels : list K) :
  let m := reindex_mapping K_eq_dec labels in
  (exists ranks,
      reindex K_eq_dec show labels = Ok (ranks, m) /\
      Forall2 (fun a r => dict_get K_eq_dec m a = Some r) labels ranks) /\
  NoDup (map fst m) /\
  (forall k, In k labels <-> In k (map fst m)) /\
  map snd m = ranks_from 1 (List.length m) /\
  (forall k1 k2 r1 r2,
      dict_get K_eq_dec m k1 = Some r1 ->
      dict_get K_eq_dec m k2 = Some r2 ->
      (r1 < r2 <-> precedes K_eq_dec labels k1 k2)) /\
  (forall m', prevalence_ranking K_eq_dec labels m' -> m' = m).
Proof.
  intros m. pose proof (reindex_mapping_ranking labels) as Hrank. fold m in Hrank.
  split; [apply reindex_returns|].
  destruct Hrank as (H1 & H2 & H3 & H4).
  repeat (split; [assumption|]).
  intros m' Hm'. apply (prevalence_ranking_unique labels); [exact Hm'|].
  exact (conj H1 (conj H2 (conj H3 H4))).
Qed.
End ReindexFacts.

(** The ranking of six labels over four keys. *)
Lemma reindex_prevalence_ranks_witness :
  exists ranks,
    reindex string_dec (fun s => s) ["b"; "a"; "b"; "c"; "a"; "d"]
    = Ok (ranks, [("b", 1); ("a", 2); ("c", 3); ("d", 4)]).
Proof.
  destruct (proj1 (reindex_prevalence_ranks string_dec (fun s => s)
                     ["b"; "a"; "b"; "c"; "a"; "d"])) as (ranks & H & _).
  exists ranks. exact H.
Defined.

(* ----------------------------------------------------------------- *)
(** ** Chromosome names and the chromosome axis *)

Lemma unique_In (l : list string) (a : string) : In a (unique l) <-> In a l.
Proof.
  induction l as [|x l IH]; simpl; [tauto|].
  rewrite filter_In, IH, negb_true_iff, String.eqb_neq.
  destruct (string_dec x a) as [->|Hne]; [tauto|]. tauto.
Qed.

Lemma existsb_id_map {A : Type} (f : A -> bool) (l : list A) :
  existsb (fun x => x) (map f l) = existsb f l.
Proof. induction l as [|a l IH]; simpl; [reflexivity | now rewrite IH]. Qed.

Lemma forallb_id_map {A : Type} (f : A -> bool) (l : list A) :
  forallb (fun x => x) (map f l) = forallb f l.
Proof. induction l as [|a l IH]; simpl; [reflexivity | now rewrite IH]. Qed.

Lemma existsb_false_iff {A : Type} (f : A -> bool) (l : list A) :
  existsb f l = false <-> forall a, In a l -> f a = false.
Proof.
  induction l as [|x l IH]; simpl; [tauto|].
  rewrite orb_false_iff, IH. split.
  - intros [Hx Hl] a [<-|Ha]; auto.
  - intros H. split; auto.
Qed.

(** What [normalize_chr] does in each of its three cases. *)
Lemma normalize_chr_mixed (bbc : DataFrame) (b1 b2 : Bin) :
  has_column bbc "#CHR" = true ->
  In b1 (rows bbc) -> startswith "chr" (CHR b1) = true ->
  In b2 (rows bbc) -> startswith "chr" (CHR b2) = false ->
  normalize_chr bbc
  = Raise (ValueError "Some chromosomes use 'chr' notation while others do not.").
Proof.
  intros Hc H1 P1 H2 P2. unfold normalize_chr. rewrite Hc. simpl.
  rewrite existsb_id_map, forallb_id_map.
  assert (E : existsb (startswith "chr") (unique (map CHR (rows bbc))) = true).
  { apply existsb_exists. exists (CHR b1). split; [|exact P1].
    apply unique_In, in_map, H1. }
  assert (F : forallb (startswith "chr") (unique (map CHR (rows bbc))) = false).
  { destruct (forallb _ _) eqn:F; [|reflexivity].
    rewrite forallb_forall in F. rewrite (F (CHR b2)) in P2; [discriminate|].
    apply unique_In, in_map, H2. }
  rewrite E, F. reflexivity.
Qed.

Lemma normalize_chr_bare (bbc : DataFrame) :
  has_column bbc "#CHR" = true ->
  (forall b, In b (rows bbc) -> startswith "chr" (CHR b) = false) ->
  normalize_chr bbc
  = Ok (mkFrame (columns bbc) (map add_chr_prefix (rows bbc))).
Proof.
  intros Hc Hall. unfold normalize_chr. rewrite Hc. simpl.
  rewrite existsb_id_map.
  assert (E : existsb (startswith "chr") (unique (map CHR (rows bbc))) = false).
  { apply existsb_false_iff. intros a Ha. rewrite unique_In in Ha.
    apply in_map_iff in Ha as (b & <- & Hb). auto. }
  rewrite E. reflexivity.
Qed.

Lemma normalize_chr_prefixed (bbc : DataFrame) (b0 : Bin) :
  has_column bbc "#CHR" = true ->
  In b0 (rows bbc) ->
  (forall b, In b (rows bbc) -> startswith "chr" (CHR b) = true) ->
  normalize_chr bbc = Ok bbc.
Proof.
  intros Hc H0 Hall. unfold normalize_chr. rewrite Hc. simpl.
  rewrite existsb_id_map, forallb_id_map.
  assert (E : existsb (startswith "chr") (unique (map CHR (rows bbc))) = true).
  { apply existsb_exists. exists (CHR b0). split; [|auto].
    apply unique_In, in_map, H0. }
  assert (F : forallb (startswith "chr") (unique (map CHR (rows bbc))) = true).
  { apply forallb_forall. intros a Ha. rewrite unique_In in Ha.
    apply in_map_iff in Ha as (b & <- & Hb). auto. }
  rewrite E, F. reflexivity.
Qed.

(** C8: [generate_1D2D_plots] raises at once when the table has no
    [#CHR] column; it raises when some chromosome names start with
    ['chr'] and others do not; and when no name starts with ['chr'] it
    puts ['chr'] in front of every name, changes nothing else, and goes
    on with the table so normalised. (Names that all carry the prefix
    are left as they are.) *)
Theorem chr_notation_check (balanced_options : list string) (bbc : DataFrame) :
  (has_column bbc "#CHR" = false ->
   generate_1D2D_plots balanced_options bbc
   = Raise (ValueError "Input table is malformed (missing #CHR column)")) /\
  (has_column bbc "#CHR" = true ->
   (exists b, In b (rows bbc) /\ startswith "chr" (CHR b) = true) ->
   (exists b, In b (rows bbc) /\ startswith "chr" (CHR b) = false) ->
   generate_1D2D_plots balanced_options bbc
   = Raise (ValueError
              "Some chromosomes use 'chr' notation while others do not.")) /\
  (has_column bbc "#CHR" = true ->
   (forall b, In b (rows bbc) -> startswith "chr" (CHR b) = false) ->
   let bbc' := mkFrame (columns bbc) (map add_chr_prefix (rows bbc)) in
   normalize_chr bbc = Ok bbc' /\
   map CHR (rows bbc') = map (fun b => "chr" ++ CHR b) (rows bbc) /\
   generate_1D2D_plots balanced_options bbc
   = plots_of_normalized balanced_options bbc') /\
  (has_column bbc "#CHR" = true ->
   (forall b, In b (rows bbc) -> startswith "chr" (CHR b) = true) ->
   normalize_chr bbc = Ok bbc /\
   generate_1D2D_plots balanced_options bbc
   = plots_of_normalized balanced_options bbc).
Proof.
  repeat split.
  - intros Hc. unfold generate_1D2D_plots, normalize_chr. rewrite Hc.
    reflexivity.
  - intros Hc (b1 & H1 & P1) (b2 & H2 & P2). unfold generate_1D2D_plots.
    rewrite (normalize_chr_mixed bbc b1 b2); auto.
  - apply normalize_chr_bare; assumption.
  - simpl. rewrite map_map. reflexivity.
  - unfold generate_1D2D_plots. rewrite normalize_chr_bare by assumption.
    reflexivity.
  - destruct (rows bbc) as [|b0 l] eqn:E.
    + unfold normalize_chr. rewrite H, E. simpl. destruct bbc; simpl in *.
      subst. reflexivity.
    + apply (normalize_chr_prefixed bbc b0); rewrite ?E; simpl; auto.
  - unfold generate_1D2D_plots.
    destruct (rows bbc) as [|b0 l] eqn:E.
    + unfold normalize_chr. rewrite H, E. simpl. destruct bbc; simpl in *.
      subst. reflexivity.
    + rewrite (normalize_chr_prefixed bbc b0); rewrite ?E; simpl; auto.
Qed.

(** A table that writes its chromosomes [1 .. 22] is normalised to
    [chr1 .. chr22]. *)
Lemma chr_notation_check_witness :
  normalize_chr table_bare_names
  = Ok (mkFrame (columns table_bare_names)
                (map add_chr_prefix (rows table_bare_names))).
Proof.
  assert (H : forall b, In b (rows table_bare_names) ->
                        startswith "chr" (CHR b) = false).
  { apply Forall_forall. repeat constructor. }
  exact (proj1 (proj1 (proj2 (proj2
           (chr_notation_check balanced_candidates table_bare_names)))
           eq_refl H)).
Defined.

Section GroupKeys.
Context {K : Type} (K_eq_dec : forall x y : K, {x = y} + {x <> y}).
Variable leb : K -> K -> bool.

Lemma insert_key_In (k a : K) (l : list K) :
  In a (insert_key K_eq_dec leb k l) <-> a = k \/ In a l.
Proof.
  induction l as [|x l IH]; simpl; [intuition|].
  destruct (K_eq_dec k x) as [->|Hne]; [simpl; intuition|].
  destruct (leb k x); simpl; [intuition|].
  rewrite IH. intuition.
Qed.

(** [groupby] yields exactly the keys that occur. *)
Lemma group_keys_In (a : K) (l : list K) :
  In a (group_keys K_eq_dec leb l) <-> In a l.
Proof.
  induction l as [|x l IH]; simpl; [tauto|].
  rewrite insert_key_In, IH. intuition.
Qed.
End GroupKeys.

Lemma mapM_fst_keys {A V : Type} (f : A -> result (A * V)) (l : list A)
  (m : list (A * V)) :
  (forall a b, f a = Ok b -> fst b = a) ->
  mapM f l = Ok m -> map fst m = l.
Proof.
  intros Hf. revert m. induction l as [|a l IH]; simpl; intros m H.
  - injection H as <-. reflexivity.
  - apply bind_Ok in H as (b & Hb & H). apply bind_Ok in H as (bs & Hbs & H).
    injection H as <-. simpl. rewrite (Hf _ _ Hb), (IH _ Hbs). reflexivity.
Qed.

Lemma chrlengths_keys (bbc : DataFrame) (lengths : list (string * Z)) :
  chrlengths bbc = Ok lengths ->
  map fst lengths = group_keys string_dec String.leb (map CHR (rows bbc)).
Proof.
  apply mapM_fst_keys. intros c b.
  destruct (has_column bbc "END"); [|discriminate].
  destruct (map END _); [discriminate|].
  intros H. injection H as <-. reflexivity.
Qed.

Lemma chrlengths_returns (bbc : DataFrame) :
  has_column bbc "END" = true -> exists lengths, chrlengths bbc = Ok lengths.
Proof.
  intros HE. unfold chrlengths. rewrite HE.
  destruct (mapM_Forall2
              (fun c =>
                 match map END (filter (fun b => String.eqb (CHR b) c) (rows bbc)) with
                 | [] => Raise (ValueError "max of an empty group")
                 | e :: es => Ok (c, fold_left Z.max es e)
                 end)
              (group_keys string_dec String.leb (map CHR (rows bbc))))
    as (lengths & H & _); [|eauto].
  intros c Hc. rewrite group_keys_In in Hc.
  rewrite in_map_iff in Hc. destruct Hc as (b & <- & Hb).
  destruct (map END (filter (fun b0 => String.eqb (CHR b0) (CHR b)) (rows bbc)))
    eqn:E; [|eauto].
  exfalso. apply map_eq_nil in E.
  assert (Hin : In b (filter (fun b0 => String.eqb (CHR b0) (CHR b)) (rows bbc))).
  { apply filter_In. split; [exact Hb | apply String.eqb_refl]. }
  rewrite E in Hin. exact Hin.
Qed.

(** The loop over chr1 .. chr22 stops with a [KeyError] at the first
    chromosome that has no length. *)
Lemma chr_ends_loop_missing (lengths : list (string * Z)) (idxs : list nat) :
  forall (i : nat) (chr_ends : list Z) (last : Z),
    In i idxs ->
    dict_get string_dec lengths ("chr" ++ py_str (i + 1)) = None ->
    exists i0,
      In i0 idxs /\
      chr_ends_loop lengths idxs chr_ends last
      = Raise (KeyError ("chr" ++ py_str (i0 + 1))).
Proof.
  induction idxs as [|j idxs IH]; intros i chr_ends last Hi Hnone;
    [destruct Hi|].
  cbn [chr_ends_loop]. unfold dict_lookup.
  destruct (dict_get string_dec lengths ("chr" ++ py_str (j + 1))) as [len|] eqn:E.
  - cbn [bind]. destruct Hi as [->|Hi]; [congruence|].
    destruct (IH i (chr_ends ++ [last + len])%list (last + len) Hi Hnone)
      as (i0 & Hi0 & H).
    exists i0. split; [right; exact Hi0 | exact H].
  - exists j. split; [left; reflexivity | reflexivity].
Qed.

Lemma normalize_chr_Ok (bbc bbc' : DataFrame) :
  normalize_chr bbc = Ok bbc' ->
  columns bbc' = columns bbc /\
  (rows bbc' = rows bbc \/ rows bbc' = map add_chr_prefix (rows bbc)).
Proof.
  unfold normalize_chr. destruct (has_column bbc "#CHR"); [|discriminate].
  simpl.
  destruct (existsb _ _); [destruct (forallb _ _); [|discriminate]|]; simpl;
    intros H; injection H as <-; simpl; auto.
Qed.

(** C10: when one of chr1 .. chr22 has no bin in the table (under either
    way of writing its name), [generate_1D2D_plots] raises and returns
    nothing; when the table passes the check of the chromosome names (and
    has its [END] column) the exception is the [KeyError] of the
    chromosome axis, for a chromosome among chr1 .. chr22. *)
Theorem missing_chromosome_fails (balanced_options : list string)
  (bbc : DataFrame) (k : nat) :
  (1 <= k <= 22)%nat ->
  (forall b, In b (rows bbc) ->
             CHR b <> "chr" ++ py_str k /\ CHR b <> py_str k) ->
  (exists e, generate_1D2D_plots balanced_options bbc = Raise e) /\
  (forall bbc',
      normalize_chr bbc = Ok bbc' ->
      has_column bbc "END" = true ->
      exists k0,
        (1 <= k0 <= 22)%nat /\
        chromosome_axis bbc' = Raise (KeyError ("chr" ++ py_str k0)) /\
        generate_1D2D_plots balanced_options bbc
        = Raise (KeyError ("chr" ++ py_str k0))).
Proof.
  intros Hk Hmiss.
  assert (Haxis : forall bbc' lengths,
             normalize_chr bbc = Ok bbc' ->
             chrlengths bbc' = Ok lengths ->
             exists k0,
               (1 <= k0 <= 22)%nat /\
               chromosome_axis bbc' = Raise (KeyError ("chr" ++ py_str k0))).
  { intros bbc' lengths Hn Hl.
    assert (Hnone : dict_get string_dec lengths ("chr" ++ py_str (k - 1 + 1))
                    = None).
    { replace (k - 1 + 1)%nat with k by lia.
      destruct (dict_get string_dec lengths ("chr" ++ py_str k)) eqn:E;
        [|reflexivity].
      exfalso.
      assert (Hin : In ("chr" ++ py_str k) (map fst lengths))
        by (apply (proj2 (dict_get_keys string_dec lengths _)); eauto).
      rewrite (chrlengths_keys _ _ Hl) in Hin.
      rewrite group_keys_In in Hin. rewrite in_map_iff in Hin.
      destruct Hin as (b' & Hb' & Hin).
      apply normalize_chr_Ok in Hn as [_ [Hr|Hr]]; rewrite Hr in Hin.
      - apply (proj1 (Hmiss b' Hin)). exact Hb'.
      - rewrite in_map_iff in Hin. destruct Hin as (b & <- & Hin).
        simpl in Hb'.
        injection Hb' as Hb'. apply (proj2 (Hmiss b Hin)). exact Hb'. }
    destruct (chr_ends_loop_missing lengths (seq 0 22) (k - 1) [0] 0)
      as (i0 & Hi0 & H); [apply in_seq; lia | exact Hnone |].
    exists (i0 + 1)%nat. apply in_seq in Hi0. split; [lia|].
    unfold chromosome_axis. rewrite Hl. exact H. }
  split.
  - unfold generate_1D2D_plots.
    destruct (normalize_chr bbc) as [bbc'|e] eqn:Hn; [|simpl; eauto].
    simpl. unfold plots_of_normalized.
    destruct (chrlengths bbc') as [lengths|e] eqn:Hl.
    + destruct (Haxis bbc' lengths eq_refl Hl) as (k0 & _ & ->). simpl. eauto.
    + unfold chromosome_axis. rewrite Hl. simpl. eauto.
  - intros bbc' Hn HE.
    destruct (chrlengths_returns bbc') as (lengths & Hl).
    { unfold has_column in *. apply normalize_chr_Ok in Hn as [-> _].
      exact HE. }
    destruct (Haxis bbc' lengths Hn Hl) as (k0 & Hk0 & Hax).
    exists k0. split; [exact Hk0|]. split; [exact Hax|].
    unfold generate_1D2D_plots. rewrite Hn. simpl.
    unfold plots_of_normalized. rewrite Hax. reflexivity.
Qed.

Lemma missing_by_check (k : nat) (l : list Bin) :
  forallb (fun b => negb (String.eqb (CHR b) ("chr" ++ py_str k))
                    && negb (String.eqb (CHR b) (py_str k))) l = true ->
  forall b, In b l -> CHR b <> "chr" ++ py_str k /\ CHR b <> py_str k.
Proof.
  intros H b Hb. rewrite forallb_forall in H. specialize (H b Hb).
  apply andb_true_iff in H as [H1 H2].
  apply negb_true_iff in H1, H2. apply String.eqb_neq in H1, H2. auto.
Qed.

(** A table with every chromosome but chr5 is refused. *)
Lemma missing_chromosome_fails_witness :
  exists e, generate_1D2D_plots balanced_candidates table_no_chr5 = Raise e.
Proof.
  assert (Hk : (1 <= 5 <= 22)%nat) by lia.
  assert (H : forall b, In b (rows table_no_chr5) ->
                        CHR b <> "chr" ++ py_str 5 /\ CHR b <> py_str 5).
  { apply missing_by_check. vm_compute. reflexivity. }
  exact (proj1 (missing_chromosome_fails balanced_candidates table_no_chr5 5
                  Hk H)).
Defined.

(* ----------------------------------------------------------------- *)
(** ** Tables in the expected layout *)

Lemma has_column_In (bbc : DataFrame) (name : string) :
  In name (columns bbc) -> has_column bbc name = true.
Proof.
  intros H. unfold has_column. apply existsb_exists.
  exists name. split; [exact H | apply String.eqb_refl].
Qed.

Lemma header_has_cn (n j : nat) :
  (1 <= j <= n)%nat -> In ("cn_clone" ++ py_str j) (bbc_header n).
Proof.
  intros H. unfold bbc_header. apply in_app_iff. right.
  unfold clone_columns. apply in_flat_map. exists j.
  split; [apply in_seq; lia | simpl; auto].
Qed.

Lemma header_has_u (n j : nat) :
  (1 <= j <= n)%nat -> In ("u_clone" ++ py_str j) (bbc_header n).
Proof.
  intros H. unfold bbc_header. apply in_app_iff. right.
  unfold clone_columns. apply in_flat_map. exists j.
  split; [apply in_seq; lia | simpl; auto].
Qed.

Lemma header_has_RD (n : nat) : In "RD" (bbc_header n).
Proof. unfold bbc_header. apply in_app_iff. left. simpl. tauto. Qed.

Lemma header_length (n : nat) : List.length (bbc_header n) = (13 + 2 * n)%nat.
Proof.
  assert (H : forall s,
             List.length
               (flat_map (fun i => ["cn_clone" ++ py_str i; "u_clone" ++ py_str i])
                         (seq s n)) = (n + n)%nat).
  { induction n as [|n IH]; intros s; simpl; [reflexivity|].
    rewrite IH. lia. }
  unfold bbc_header, clone_columns. rewrite length_app, H. simpl. lia.
Qed.

Lemma count_clones_header (n : nat) (bbc : DataFrame) :
  (1 <= n <= 4)%nat -> columns bbc = bbc_header n -> count_clones bbc = Ok n.
Proof.
  intros Hn Hc. unfold count_clones, has_column. rewrite Hc.
  destruct n as [|[|[|[|[|n]]]]]; try lia; reflexivity.
Qed.

Lemma find_none_iff {A : Type} (f : A -> bool) (l : list A) :
  (forall a, In a l -> f a = false) -> find f l = None.
Proof.
  induction l as [|x l IH]; simpl; intros H; [reflexivity|].
  rewrite (H x) by auto. apply IH. auto.
Qed.

Lemma find_missing_cn (n : nat) (bbc : DataFrame) :
  columns bbc = bbc_header n ->
  find (fun i => negb (has_column bbc ("cn_clone" ++ py_str (S i)))) (seq 0 n)
  = None.
Proof.
  intros Hc. apply find_none_iff. intros i Hi. apply in_seq in Hi.
  apply negb_false_iff, has_column_In. rewrite Hc.
  apply header_has_cn. lia.
Qed.

Lemma mapM_map {A B C : Type} (g : A -> B) (f : B -> result C) (l : list A) :
  mapM f (map g l) = mapM (fun a => f (g a)) l.
Proof.
  induction l as [|a l IH]; simpl; [reflexivity | now rewrite IH].
Qed.

Lemma mapM_nth_fst {A B : Type} (l : list (A * B)) (e : exn) :
  mapM (fun i => match nth_error l i with
                 | Some (c, _) => Ok c
                 | None => Raise e
                 end) (seq 0 (List.length l))
  = Ok (map fst l).
Proof.
  induction l as [|[a b] l IH]; simpl; [reflexivity|].
  rewrite <- seq_shift, mapM_map. simpl. rewrite IH. reflexivity.
Qed.

Lemma mapM_nth_snd {A B : Type} (l : list (A * B)) (e : exn) :
  mapM (fun i => match nth_error l i with
                 | Some (_, u) => Ok u
                 | None => Raise e
                 end) (seq 0 (List.length l))
  = Ok (map snd l).
Proof.
  induction l as [|[a b] l IH]; simpl; [reflexivity|].
  rewrite <- seq_shift, mapM_map. simpl. rewrite IH. reflexivity.
Qed.

Lemma state_tuple_clones (n : nat) (b : Bin) :
  List.length (clones b) = n -> state_tuple n b = Ok (map fst (clones b)).
Proof. intros <-. unfold state_tuple. simpl. apply mapM_nth_fst. Qed.

(** In a rectangular table every row has its key. *)
Lemma row_key_state_key (b : Bin) :
  row_key (List.length (clones b)) b = Ok (state_key b).
Proof.
  unfold row_key, state_key.
  destruct (clones b) as [|[c u] [|p l]] eqn:E; cbn [List.length].
  - reflexivity.
  - simpl. rewrite E. reflexivity.
  - rewrite (state_tuple_clones _ b) by (rewrite E; reflexivity).
    rewrite E. reflexivity.
Qed.

Lemma groupby_states_rectangular (n : nat) (bbc : DataFrame) :
  (1 <= n)%nat -> rectangular n bbc ->
  groupby_states bbc n
  = Ok (group_keys pykey_eq_dec key_leb (map state_key (rows bbc))).
Proof.
  intros Hn [Hc Hr]. unfold groupby_states.
  destruct n as [|n']; [lia|]. rewrite (find_missing_cn _ _ Hc).
  rewrite (mapM_Ok_map _ state_key); [reflexivity|].
  intros b Hb. rewrite Forall_forall in Hr. rewrite <- (Hr b Hb).
  apply row_key_state_key.
Qed.

Lemma state_mapping_rectangular (n : nat) (bbc : DataFrame) :
  (1 <= n <= 4)%nat -> rectangular n bbc ->
  state_mapping bbc
  = Ok (reindex_mapping pykey_eq_dec
          (group_keys pykey_eq_dec key_leb (map state_key (rows bbc)))).
Proof.
  intros Hn Hrect. unfold state_mapping.
  rewrite (count_clones_header n) by (lia || apply Hrect). simpl.
  rewrite groupby_states_rectangular by (lia || assumption). simpl.
  destruct (reindex_returns pykey_eq_dec show_key
              (group_keys pykey_eq_dec key_leb (map state_key (rows bbc))))
    as (ranks & -> & _).
  reflexivity.
Qed.


Lemma sample_rows_rectangular (n : nat) (bbc : DataFrame) (sample : string) :
  rectangular n bbc -> rectangular n (sample_rows bbc sample).
Proof.
  intros [Hc Hr]. split; [exact Hc|]. simpl.
  rewrite Forall_forall in *. intros b Hb. apply filter_In in Hb as [Hb _].
  auto.
Qed.




(* ----------------------------------------------------------------- *)
(** ** The state-index mapping of the pipeline *)

(** C1 (the code departs from the claim): [reindex] ranks by prevalence,
    but [generate_1D2D_plots] hands it the keys of a [groupby], each
    distinct combination once, so every count is 1 and the ranks follow
    the order of the keys. In a table with 22 bins in state (2,2) and one
    bin in state (1,1) the mapping gives rank 1 to (1,1) and rank 2 to
    (2,2), whatever order the set of candidates is iterated in. In the
    scenario of the specification (1,1) has rank 1, as it is also the
    smallest key. *)
Theorem pipeline_mapping_ignores_prevalence :
  count_occ pykey_eq_dec (map state_key (rows table_prevalence)) (KStr "2|2")
  = 22%nat /\
  count_occ pykey_eq_dec (map state_key (rows table_prevalence)) (KStr "1|1")
  = 1%nat /\
  map (fun order =>
         mapping_of_run (generate_1D2D_plots order table_prevalence))
      iteration_orders
  = repeat (Ok [(KStr "1|1", 1); (KStr "2|2", 2)]) 24 /\
  state_mapping table_scenario
  = Ok [(KStr "1|1", 1); (KStr "2|1", 2); (KStr "3|0", 3)].
Proof.
  repeat split; vm_compute; reflexivity.
Qed.

(* ----------------------------------------------------------------- *)
(** ** Gamma estimator *)

Lemma mapM_ext_in {A B : Type} (f g : A -> result B) (l : list A) :
  (forall a, In a l -> f a = g a) -> mapM f l = mapM g l.
Proof.
  induction l as [|a l IH]; simpl; intros H; [reflexivity|].
  rewrite (H a) by auto. rewrite IH by auto. reflexivity.
Qed.

Lemma filterM_Ok_filter {A : Type} (f : A -> result bool) (g : A -> bool)
  (l : list A) :
  (forall a, In a l -> f a = Ok (g a)) -> filterM f l = Ok (filter g l).
Proof.
  induction l as [|a l IH]; simpl; intros H; [reflexivity|].
  rewrite (H a) by auto. simpl. rewrite IH by auto. reflexivity.
Qed.

(** Reading a list through its indices. *)
Lemma mapM_nth {A B : Type} (F : A -> B) (l : list A) (e : exn) :
  mapM (fun i => match nth_error l i with
                 | Some a => Ok (F a)
                 | None => Raise e
                 end) (seq 0 (List.length l))
  = Ok (map F l).
Proof.
  induction l as [|a l IH]; simpl; [reflexivity|].
  rewrite <- seq_shift, mapM_map. simpl. rewrite IH. reflexivity.
Qed.

Lemma filter_map_comm {A B : Type} (g : A -> B) (p : B -> bool) (l : list A) :
  filter p (map g l) = map g (filter (fun a => p (g a)) l).
Proof.
  induction l as [|a l IH]; simpl; [reflexivity|].
  destruct (p (g a)); simpl; rewrite IH; reflexivity.
Qed.

(** Selecting rows by index and reading them is selecting the rows. *)
Lemma index_filter {A B : Type} (P : A -> bool) (F : A -> B) (l : list A)
  (e : exn) :
  mapM (fun i => match nth_error l i with
                 | Some a => Ok (F a)
                 | None => Raise e
                 end)
       (filter (fun i => match nth_error l i with
                         | Some a => P a
                         | None => false
                         end) (seq 0 (List.length l)))
  = Ok (map F (filter P l)).
Proof.
  induction l as [|a l IH]; simpl; [reflexivity|].
  rewrite <- seq_shift, filter_map_comm. simpl.
  destruct (P a); simpl; rewrite mapM_map; simpl; rewrite IH; reflexivity.
Qed.

Lemma zip_with_map {A B C D : Type} (f : B -> C -> D) (a : A -> B)
  (b : A -> C) (l : list A) :
  zip_with f (map a l) (map b l) = map (fun x => f (a x) (b x)) l.
Proof.
  induction l as [|x l IH]; simpl; [reflexivity | now rewrite IH].
Qed.

(** Adding columns up is adding each row up. *)
Lemma fold_columns {A I : Type} (g : I -> A -> Q) (idxs : list I) (l : list A) :
  forall h : A -> Q,
    fold_left (zip_with Qplus) (map (fun i => map (g i) l) idxs) (map h l)
    = map (fun b => fold_left Qplus (map (fun i => g i b) idxs) (h b)) l.
Proof.
  induction idxs as [|i idxs IH]; intros h; simpl; [reflexivity|].
  rewrite zip_with_map. apply (IH (fun x => (h x + g i x)%Q)).
Qed.

Lemma repeat_map {A B : Type} (x : B) (l : list A) :
  repeat x (List.length l) = map (fun _ => x) l.
Proof. induction l as [|a l IH]; simpl; [reflexivity | now rewrite IH]. Qed.

Lemma argmax_from_bound (l : list Q) :
  forall (best : Q) (besti i : nat),
    (besti < i)%nat -> (argmax_from best besti i l < i + List.length l)%nat.
Proof.
  induction l as [|x l IH]; intros best besti i H; simpl; [lia|].
  destruct (Qle_bool x best).
  - specialize (IH best besti (S i)). lia.
  - specialize (IH x i (S i)). lia.
Qed.

Lemma max_by_from_In {A : Type} (key : A -> nat) (l : list A) :
  forall x, In (max_by_from key x l) (x :: l).
Proof.
  induction l as [|y l IH]; intros x; simpl; [auto|].
  destruct (key x <? key y)%nat.
  - right. apply IH.
  - destruct (IH x) as [H|H]; [left; exact H | right; right; exact H].
Qed.

Lemma max_by_from_ext {A : Type} (k1 k2 : A -> nat) (l : list A) :
  (forall a, k1 a = k2 a) ->
  forall x, max_by_from k1 x l = max_by_from k2 x l.
Proof.
  intros H. induction l as [|y l IH]; intros x; simpl; [reflexivity|].
  rewrite !H. destruct (k2 x <? k2 y)%nat; apply IH.
Qed.

(** [max] returns the element whose key is strictly the largest. *)
Lemma max_by_from_largest {A : Type}
  (eq_dec : forall a b : A, {a = b} + {a <> b})
  (key : A -> nat) (c : A) (l : list A) :
  forall x,
    In c (x :: l) ->
    (forall y, In y (x :: l) -> y <> c -> (key y < key c)%nat) ->
    max_by_from key x l = c.
Proof.
  induction l as [|y l IH]; intros x Hin Hmax; simpl.
  - destruct Hin as [H|[]]. exact H.
  - assert (Hmax' : forall x', In x' [x; y] ->
                      forall z, In z (x' :: l) -> z <> c -> (key z < key c)%nat).
    { intros x' Hx' z Hz. apply Hmax. simpl in *. intuition (subst; auto). }
    destruct (Nat.ltb_spec (key x) (key y)) as [Hlt|Hge].
    + apply IH; [|apply Hmax'; simpl; auto].
      destruct Hin as [<-|Hin]; [|exact Hin].
      exfalso. assert (key y < key x)%nat; [|lia].
      apply Hmax; [simpl; auto|]. intros ->. lia.
    + apply IH; [|apply Hmax'; simpl; auto].
      destruct Hin as [<-|[<-|Hin]]; simpl; auto.
      destruct (eq_dec x y) as [E|E]; [left; exact E|].
      exfalso. assert (key x < key y)%nat; [|lia].
      apply Hmax; [simpl; auto | exact E].
Qed.

Lemma set_remove_without (x : string) (l : list string) :
  In x l -> set_remove x l = Ok (without x l).
Proof.
  induction l as [|y l IH]; simpl; [tauto|].
  destruct (String.eqb_spec x y) as [->|Hne]; [reflexivity|].
  intros [H|H]; [congruence|]. rewrite (IH H). reflexivity.
Qed.

Section GammaFacts.
Variable n : nat.
Variable bbc : DataFrame.
Hypothesis Hn : (1 <= n)%nat.
Hypothesis Hcols : columns bbc = bbc_header n.
Hypothesis Hrows : Forall (fun b => List.length (clones b) = n) (rows bbc).

Lemma clones_length (b : Bin) : In b (rows bbc) -> List.length (clones b) = n.
Proof. intros Hb. rewrite Forall_forall in Hrows. auto. Qed.

Lemma cn_of_clone_at (b : Bin) (i : nat) :
  (i <= List.length (clones b))%nat -> cn_of b i = Ok (fst (clone_at b i)).
Proof.
  intros Hi. destruct i as [|j]; [reflexivity|].
  unfold cn_of, clone_at. simpl.
  rewrite (nth_error_nth' (clones b) (EmptyString, 0%Q)) by lia.
  destruct (nth j (clones b) _). reflexivity.
Qed.

Lemma u_of_clone_at (b : Bin) (i : nat) :
  (i <= List.length (clones b))%nat -> u_of b i = Ok (snd (clone_at b i)).
Proof.
  intros Hi. destruct i as [|j]; [reflexivity|].
  unfold u_of, clone_at. simpl.
  rewrite (nth_error_nth' (clones b) (EmptyString, 0%Q)) by lia.
  destruct (nth j (clones b) _). reflexivity.
Qed.

Lemma n_clones_header :
  Z.quot (Z.of_nat (List.length (columns bbc)) - 13) 2 = Z.of_nat n.
Proof.
  rewrite Hcols, header_length.
  replace (Z.of_nat (13 + 2 * n) - 13) with (Z.of_nat n * 2) by lia.
  apply Z.quot_mul. lia.
Qed.

Lemma iloc_cn_rect (i : nat) :
  (i <= n)%nat ->
  iloc_cn bbc i = Ok (map (fun b => fst (clone_at b i)) (rows bbc)).
Proof.
  intros Hi. unfold iloc_cn. rewrite Hcols, header_length.
  destruct (Nat.ltb_spec (11 + 2 * i) (13 + 2 * n)); [|lia].
  apply mapM_Ok_map. intros b Hb. apply cn_of_clone_at.
  rewrite (clones_length b Hb). exact Hi.
Qed.

Lemma iloc_u_rect (i : nat) :
  (i <= n)%nat ->
  iloc_u bbc i = Ok (map (fun b => snd (clone_at b i)) (rows bbc)).
Proof.
  intros Hi. unfold iloc_u. rewrite Hcols, header_length.
  destruct (Nat.ltb_spec (12 + 2 * i) (13 + 2 * n)); [|lia].
  apply mapM_Ok_map. intros b Hb. apply u_of_clone_at.
  rewrite (clones_length b Hb). exact Hi.
Qed.

Hypothesis Htok : tokens_ok bbc.

Lemma cn2total_token_total (s : string) :
  is_ok (cn2total s) = true -> cn2total s = Ok (token_total s).
Proof. unfold token_total. destruct (cn2total s); [reflexivity | discriminate]. Qed.

Lemma totals_rect (i : nat) :
  (i <= n)%nat ->
  mapM cn2total (map (fun b => fst (clone_at b i)) (rows bbc))
  = Ok (map (fun b => token_total (fst (clone_at b i))) (rows bbc)).
Proof.
  intros Hi. rewrite mapM_map. apply mapM_Ok_map. intros b Hb.
  apply cn2total_token_total. apply (Htok b Hb).
  unfold clone_at. apply nth_In. simpl.
  rewrite (clones_length b Hb). lia.
Qed.

(** The column [fractional_cn] holds the fractional copy number of
    each row. *)
Lemma fractional_cn_rect :
  fractional_cn bbc (Z.of_nat n) = Ok (map (row_fcn n) (rows bbc)).
Proof.
  unfold fractional_cn.
  replace (Z.to_nat (Z.of_nat n + 1)) with (n + 1)%nat by lia.
  rewrite (mapM_Ok_map _
             (fun i => map (fun b => (inject_Z (token_total (fst (clone_at b i)))
                                      * snd (clone_at b i))%Q) (rows bbc))).
  - simpl. rewrite repeat_map.
    rewrite (fold_columns
               (fun i b => (inject_Z (token_total (fst (clone_at b i)))
                            * snd (clone_at b i))%Q)).
    reflexivity.
  - intros i Hi. apply in_seq in Hi.
    rewrite iloc_cn_rect by lia. simpl.
    rewrite totals_rect by lia. simpl.
    rewrite iloc_u_rect by lia. simpl.
    rewrite zip_with_map. reflexivity.
Qed.

Variable b0 : Bin.
Variable rest : list Bin.
Hypothesis Hfirst : rows bbc = b0 :: rest.

Lemma first_row_proportions :
  mapM (fun i => cell bbc ("u_clone" ++ py_str (S i)) 0
                   (fun b => u_of b (S i)))
       (seq 0 n)
  = Ok (map snd (clones b0)).
Proof.
  assert (Hb0 : List.length (clones b0) = n)
    by (apply clones_length; rewrite Hfirst; simpl; auto).
  rewrite <- Hb0 at 1. rewrite <- (mapM_nth snd (clones b0) IndexError).
  apply mapM_ext_in. intros i Hi. apply in_seq in Hi.
  unfold cell. rewrite has_column_In
    by (rewrite Hcols; apply header_has_u; lia).
  rewrite Hfirst. simpl.
  destruct (nth_error (clones b0) i) as [[c u]|]; reflexivity.
Qed.

Lemma dominant_clone_bound : (dominant_clone bbc < n)%nat.
Proof.
  assert (Hb0 : List.length (clones b0) = n)
    by (apply clones_length; rewrite Hfirst; simpl; auto).
  unfold dominant_clone. rewrite Hfirst.
  destruct (clones b0) as [|[c u] l] eqn:E; simpl in *; [lia|].
  pose proof (argmax_from_bound (map snd l) u 0 1). rewrite length_map in H.
  lia.
Qed.

Lemma largest_clone_dominant :
  np_argmax (map snd (clones b0)) = Ok (dominant_clone bbc).
Proof.
  assert (Hb0 : List.length (clones b0) = n)
    by (apply clones_length; rewrite Hfirst; simpl; auto).
  unfold dominant_clone. rewrite Hfirst.
  destruct (clones b0) as [|[c u] l] eqn:E; simpl in *; [lia|].
  reflexivity.
Qed.

Lemma dominant_column :
  let j := S (dominant_clone bbc) in
  column bbc ("cn_clone" ++ py_str j) (fun b => cn_of b j)
  = Ok (map (fun b => fst (clone_at b j)) (rows bbc)).
Proof.
  intros j. pose proof dominant_clone_bound as Hd.
  unfold column. rewrite has_column_In
    by (rewrite Hcols; apply header_has_cn; unfold j; lia).
  apply mapM_Ok_map. intros b Hb. apply cn_of_clone_at.
  rewrite (clones_length b Hb). unfold j. lia.
Qed.

Lemma is_balanced_row_usable (c : string) (i : nat) (b : Bin) :
  nth_error (rows bbc) i = Some b ->
  is_balanced_row bbc (Z.of_nat n) c i = Ok (usable c b).
Proof.
  intros Hi. assert (Hb : In b (rows bbc)) by (eapply nth_error_In; eauto).
  unfold is_balanced_row. rewrite Nat2Z.id.
  rewrite (mapM_ext_in _
             (fun j => match nth_error (clones b) j with
                       | Some cu => Ok (String.eqb (fst cu) c)
                       | None => Raise IndexError
                       end)).
  - rewrite <- (clones_length b Hb), mapM_nth. simpl.
    rewrite forallb_id_map. unfold usable.
    destruct (forallb _ (clones b)); simpl; [|reflexivity].
    unfold cell. rewrite has_column_In.
    + rewrite Hi. reflexivity.
    + rewrite Hcols. apply header_has_RD.
  - intros j Hj. apply in_seq in Hj. unfold cell.
    rewrite has_column_In by (rewrite Hcols; apply header_has_cn; lia).
    rewrite Hi. simpl.
    destruct (nth_error (clones b) j) as [[c' u]|]; reflexivity.
Qed.

Lemma balanced_idx_rect (c : string) :
  balanced_idx bbc (Z.of_nat n) c
  = Ok (filter (fun i => match nth_error (rows bbc) i with
                         | Some b => usable c b
                         | None => false
                         end)
               (seq 0 (List.length (rows bbc)))).
Proof.
  unfold balanced_idx. apply filterM_Ok_filter. intros i Hi.
  apply in_seq in Hi.
  destruct (nth_error (rows bbc) i) as [b|] eqn:E.
  - apply is_balanced_row_usable. exact E.
  - apply nth_error_None in E. lia.
Qed.

Lemma calibration_ratios_rect (c : string) :
  calibration_ratios bbc (map (row_fcn n) (rows bbc))
    (filter (fun i => match nth_error (rows bbc) i with
                      | Some b => usable c b
                      | None => false
                      end)
            (seq 0 (List.length (rows bbc))))
  = Ok (map (fun b => row_fcn n b / RD b)%Q (filter (usable c) (rows bbc))).
Proof.
  unfold calibration_ratios.
  rewrite has_column_In by (rewrite Hcols; apply header_has_RD).
  rewrite <- (index_filter (usable c) (fun b => (row_fcn n b / RD b)%Q)
                (rows bbc) IndexError).
  apply mapM_ext_in. intros i _. rewrite nth_error_map.
  destruct (nth_error (rows bbc) i); reflexivity.
Qed.

Lemma balanced_idx_nil (c : string) :
  filter (fun i => match nth_error (rows bbc) i with
                   | Some b => usable c b
                   | None => false
                   end)
         (seq 0 (List.length (rows bbc))) = []
  <-> filter (usable c) (rows bbc) = [].
Proof.
  pose proof (index_filter (usable c) (fun b : Bin => b) (rows bbc) IndexError)
    as H.
  rewrite map_id in H. split; intros E; rewrite E in H.
  - simpl in H. injection H as <-. reflexivity.
  - destruct (filter _ (seq 0 _)); [reflexivity|].
    simpl in H. apply bind_Ok in H as (a & _ & H).
    apply bind_Ok in H as (bs & _ & H). discriminate.
Qed.

(** [compute_gamma] on a table in the expected layout whose tokens all
    parse: the mean of [fractional_cn / RD] over the calibration rows. *)
Lemma compute_gamma_rows (balanced_options : list string) :
  (2 <= List.length balanced_options)%nat ->
  compute_gamma balanced_options bbc
  = Ok (Z.of_nat n,
        np_mean (map (fun b => row_fcn n b / RD b)%Q
                     (calibration_rows balanced_options bbc))).
Proof.
  intros Hbo. unfold compute_gamma. rewrite n_clones_header.
  rewrite fractional_cn_rect. cbn [bind].
  rewrite Nat2Z.id, first_row_proportions. cbn [bind].
  rewrite largest_clone_dominant. cbn [bind].
  rewrite dominant_column. cbn [bind].
  set (dominant := map (fun b => fst (clone_at b (S (dominant_clone bbc))))
                       (rows bbc)).
  assert (Hkey : forall c, counter_get string_dec (Counter string_dec dominant) c
                           = dominant_count bbc c)
    by (intros c; apply Counter_get).
  destruct balanced_options as [|c1 [|c2 l]]; simpl in Hbo; try lia.
  unfold py_max_by at 1. cbn [bind].
  rewrite (max_by_from_ext _ _ _ Hkey).
  change (max_by_from (dominant_count bbc) c1 (c2 :: l))
    with (first_choice (c1 :: c2 :: l) bbc).
  set (lb1 := first_choice (c1 :: c2 :: l) bbc).
  rewrite balanced_idx_rect. cbn [bind].
  unfold calibration_rows. fold lb1.
  destruct (filter (usable lb1) (rows bbc)) as [|r rs] eqn:E1.
  - apply balanced_idx_nil in E1. rewrite E1. 
    rewrite set_remove_without by apply max_by_from_In. cbn [bind].
    assert (Hw : without lb1 (c1 :: c2 :: l) <> []).
    { simpl. destruct (String.eqb lb1 c1); [discriminate|].
      discriminate. }
    unfold second_choice. fold lb1.
    destruct (without lb1 (c1 :: c2 :: l)) as [|d1 dl] eqn:Ew; [congruence|].
    unfold py_max_by. cbn [bind].
    rewrite (max_by_from_ext _ _ _ Hkey).
    change (max_by_from (dominant_count bbc) d1 dl)
      with (first_choice (d1 :: dl) bbc).
    rewrite balanced_idx_rect. cbn [bind].
    rewrite calibration_ratios_rect. reflexivity.
  - destruct (filter _ (seq 0 _)) eqn:E2.
    + apply balanced_idx_nil in E2. congruence.
    + cbn [bind]. rewrite <- E2, calibration_ratios_rect, E1. reflexivity.
Qed.
End GammaFacts.

Lemma max_by_from_max {A : Type} (key : A -> nat) (l : list A) :
  forall x y, In y (x :: l) -> (key y <= key (max_by_from key x l))%nat.
Proof.
  induction l as [|z l IH]; intros x y Hy; simpl.
  - destruct Hy as [<-|[]]. lia.
  - destruct (Nat.ltb_spec (key x) (key z)) as [Hlt|Hge].
    + destruct Hy as [<-|Hy]; [|apply IH; exact Hy].
      specialize (IH z z (or_introl eq_refl)). lia.
    + destruct Hy as [<-|[<-|Hy]].
      * apply IH. simpl. auto.
      * specialize (IH x x (or_introl eq_refl)). lia.
      * apply IH. simpl. auto.
Qed.

Lemma without_In (x y : string) (l : list string) :
  In y (without x l) -> In y l.
Proof.
  induction l as [|z l IH]; simpl; [tauto|].
  destruct (String.eqb x z); simpl; intuition.
Qed.

Lemma without_length (x : string) (l : list string) :
  In x l -> S (List.length (without x l)) = List.length l.
Proof.
  induction l as [|z l IH]; simpl; [tauto|].
  destruct (String.eqb_spec x z) as [->|Hne]; [reflexivity|].
  intros [H|H]; [congruence|]. simpl. rewrite IH by exact H. reflexivity.
Qed.

Lemma without_In_other (x c : string) (l : list string) :
  In c l -> c <> x -> In c (without x l).
Proof.
  induction l as [|z l IH]; simpl; [tauto|].
  intros [E|H] Hne.
  - subst z. destruct (String.eqb_spec x c); [congruence | simpl; auto].
  - destruct (String.eqb_spec x z); [exact H | right; auto].
Qed.

Lemma without_NoDup_notin (x : string) (l : list string) :
  NoDup l -> ~ In x (without x l).
Proof.
  induction l as [|z l IH]; simpl; [tauto|].
  intros Hnd. inversion Hnd as [|? ? Hz Hl]; subst.
  destruct (String.eqb_spec x z) as [->|Hne]; [exact Hz|].
  simpl. intros [H|H]; [congruence | exact (IH Hl H)].
Qed.

Lemma first_choice_In (l : list string) (bbc : DataFrame) :
  l <> [] -> In (first_choice l bbc) l.
Proof.
  destruct l as [|c l]; [congruence|]. intros _. apply max_by_from_In.
Qed.

Lemma first_choice_max (l : list string) (bbc : DataFrame) (c : string) :
  In c l ->
  (dominant_count bbc c <= dominant_count bbc (first_choice l bbc))%nat.
Proof.
  destruct l as [|x l]; [intros []|]. intros H.
  apply (max_by_from_max (dominant_count bbc) l x c H).
Qed.

(** C3 (amended): on a table in the expected layout, [compute_gamma]
    first tries the candidate most frequent in the dominant clone; when
    that candidate has no row in which every tumor clone is in that state
    with [RD > 0], it is removed and the most frequent of the remaining
    three is tried, once; gamma is the mean over the rows of the
    candidate so reached, and when that one has no usable row either, no
    exception is raised: the result is [nan]. *)
Theorem compute_gamma_retries_once (n : nat) (bbc : DataFrame)
  (balanced_options : list string) :
  (1 <= n)%nat -> rectangular n bbc -> tokens_ok bbc -> rows bbc <> [] ->
  Permutation balanced_candidates balanced_options ->
  let c1 := first_choice balanced_options bbc in
  let c2 := second_choice balanced_options bbc in
  let ratios := map (fun b => row_fcn n b / RD b)%Q in
  (In c1 balanced_options /\
   forall c, In c balanced_options ->
             (dominant_count bbc c <= dominant_count bbc c1)%nat) /\
  (In c2 balanced_options /\ c2 <> c1 /\
   forall c, In c balanced_options -> c <> c1 ->
             (dominant_count bbc c <= dominant_count bbc c2)%nat) /\
  (filter (usable c1) (rows bbc) <> [] ->
   compute_gamma balanced_options bbc
   = Ok (Z.of_nat n, np_mean (ratios (filter (usable c1) (rows bbc))))) /\
  (filter (usable c1) (rows bbc) = [] ->
   compute_gamma balanced_options bbc
   = Ok (Z.of_nat n, np_mean (ratios (filter (usable c2) (rows bbc))))) /\
  (filter (usable c1) (rows bbc) = [] ->
   filter (usable c2) (rows bbc) = [] ->
   compute_gamma balanced_options bbc = Ok (Z.of_nat n, NaN)).
Proof.
  intros Hn [Hc Hr] Htok Hne Hperm c1 c2 ratios.
  destruct (rows bbc) as [|b0 rest] eqn:Hfirst; [congruence|].
  rewrite <- Hfirst in *.
  assert (Hlen : List.length balanced_options = 4%nat)
    by (rewrite <- (Permutation_length Hperm); reflexivity).
  assert (Hnd : NoDup balanced_options).
  { eapply Permutation_NoDup; [exact Hperm|].
    repeat constructor; simpl; intuition discriminate. }
  assert (Hbo : balanced_options <> [])
    by (intros E; rewrite E in Hlen; discriminate).
  pose proof (first_choice_In balanced_options bbc Hbo) as Hc1. fold c1 in Hc1.
  pose proof (without_length c1 balanced_options Hc1) as Hwl.
  assert (Hw : without c1 balanced_options <> [])
    by (intros E; rewrite E in Hwl; simpl in Hwl; lia).
  pose proof (first_choice_In _ bbc Hw) as Hc2. fold c1 in Hc2.
  change (first_choice (without c1 balanced_options) bbc) with c2 in Hc2.
  assert (Hwithout : forall c, In c balanced_options -> c <> c1 ->
                               In c (without c1 balanced_options))
    by (intros c; apply without_In_other).
  pose proof (without_NoDup_notin c1 balanced_options Hnd) as Hnotin.
  pose proof (compute_gamma_rows n bbc Hn Hc Hr Htok b0 rest Hfirst
                balanced_options) as Hg.
  rewrite Hlen in Hg. specialize (Hg ltac:(lia)).
  unfold calibration_rows in Hg. fold c1 c2 in Hg.
  split; [split; [exact Hc1 | intros c; apply first_choice_max]|].
  split.
  { split; [eapply without_In; exact Hc2|].
    split; [intros E; rewrite E in Hc2; exact (Hnotin Hc2)|].
    intros c Hin Hne'. apply first_choice_max. apply Hwithout; assumption. }
  split; [|split].
  - intros H1. rewrite Hg.
    destruct (filter (usable c1) (rows bbc)); [congruence | reflexivity].
  - intros H1. rewrite Hg, H1. reflexivity.
  - intros H1 H2. rewrite Hg, H1, H2. reflexivity.
Qed.

Lemma tokens_ok_check (bbc : DataFrame) :
  forallb (fun b => forallb (fun cu => is_ok (cn2total (fst cu))) (all_clones b))
          (rows bbc) = true ->
  tokens_ok bbc.
Proof.
  intros H b Hb cu Hcu. rewrite forallb_forall in H.
  specialize (H b Hb). rewrite forallb_forall in H. exact (H cu Hcu).
Qed.

(** With (1,1) and (2,2) unusable the estimator returns [nan]. *)
Lemma compute_gamma_retries_once_witness :
  compute_gamma balanced_candidates table_third_candidate = Ok (1, NaN).
Proof.
  assert (Hn : (1 <= 1)%nat) by lia.
  assert (Hr : rectangular 1 table_third_candidate)
    by (split; [reflexivity | repeat constructor]).
  assert (Ht : tokens_ok table_third_candidate)
    by (apply tokens_ok_check; vm_compute; reflexivity).
  assert (Hne : rows table_third_candidate <> []) by discriminate.
  exact (proj2 (proj2 (proj2 (proj2
           (compute_gamma_retries_once 1 table_third_candidate
              balanced_candidates Hn Hr Ht Hne (Permutation_refl _)))))
           eq_refl eq_refl).
Defined.

(** C3, the claim as written fails. In [table_third_candidate] the two
    most frequent candidates, (1,1) and (2,2), have no bin with
    [RD > 0] and (3,3) has one, yet [compute_gamma] stops after the
    second candidate and returns [nan]; and in [table_unbalanced], where
    no candidate has a usable bin, it returns [nan] rather than raising.
    Both hold for every order in which the set of candidates may be
    iterated. *)
Lemma compute_gamma_gives_up_after_two :
  map (fun order => compute_gamma order table_third_candidate) iteration_orders
  = repeat (Ok (1, NaN)) 24 /\
  filter (usable "3|3") (rows table_third_candidate)
  = [bin_1clone "chr1" "3|3" 1] /\
  map (fun order => compute_gamma order table_unbalanced) iteration_orders
  = repeat (Ok (1, NaN)) 24.
Proof.
  repeat split; vm_compute; reflexivity.
Qed.

Lemma fold_left_Qplus (l : list Q) (a : Q) :
  (fold_left Qplus l a == a + Qsum l)%Q.
Proof.
  revert a. induction l as [|x l IH]; intros a; simpl.
  - ring.
  - rewrite IH. ring.
Qed.

Lemma map_nth_seq {A B : Type} (F : A -> B) (l : list A) (d : A) :
  map (fun i => F (nth i l d)) (seq 0 (List.length l)) = map F l.
Proof.
  induction l as [|a l IH]; simpl; [reflexivity|].
  rewrite <- seq_shift, map_map. simpl. rewrite IH. reflexivity.
Qed.

(** The fractional copy number of a row is the sum over its clones,
    normal clone included, of total copy number times proportion. *)
Lemma row_fcn_sum (n : nat) (b : Bin) :
  List.length (clones b) = n ->
  (row_fcn n b
   == Qsum (map (fun cu => inject_Z (token_total (fst cu)) * snd cu)
                (all_clones b)))%Q.
Proof.
  intros Hlen. unfold row_fcn. rewrite fold_left_Qplus.
  replace (n + 1)%nat with (List.length (all_clones b))
    by (simpl; lia).
  unfold clone_at.
  rewrite (map_nth_seq (fun cu => (inject_Z (token_total (fst cu)) * snd cu)%Q)).
  ring.
Qed.

Lemma Qsum_map_ext {A : Type} (f g : A -> Q) (l : list A) :
  (forall a, In a l -> f a == g a)%Q -> (Qsum (map f l) == Qsum (map g l))%Q.
Proof.
  induction l as [|a l IH]; simpl; intros H; [reflexivity|].
  rewrite (H a) by auto. rewrite IH by auto. reflexivity.
Qed.

Lemma Qsum_map_scale {A : Type} (k : Q) (f : A -> Q) (l : list A) :
  (Qsum (map (fun a => k * f a) l) == k * Qsum (map f l))%Q.
Proof.
  induction l as [|a l IH]; simpl; [ring|]. rewrite IH. ring.
Qed.

Lemma Qsum_map_const {A : Type} (k : Q) (l : list A) :
  (Qsum (map (fun _ => k) l) == inject_Z (Z.of_nat (List.length l)) * k)%Q.
Proof.
  induction l as [|a l IH]; [simpl; ring|].
  cbn [map Qsum fold_right List.length]. fold (Qsum (map (fun _ : A => k) l)).
  rewrite IH, Nat2Z.inj_succ. unfold Z.succ. rewrite inject_Z_plus. ring.
Qed.

Lemma filter_all {A : Type} (p : A -> bool) (l : list A) :
  (forall a, In a l -> p a = true) -> filter p l = l.
Proof.
  induction l as [|a l IH]; simpl; intros H; [reflexivity|].
  rewrite (H a) by auto. rewrite IH by auto. reflexivity.
Qed.

Lemma count_occ_all (c : string) (l : list string) :
  (forall x, In x l -> x = c) ->
  count_occ string_dec l c = List.length l /\
  forall y, y <> c -> count_occ string_dec l y = 0%nat.
Proof.
  intros H. split.
  - induction l as [|x l IH]; simpl; [reflexivity|].
    destruct (string_dec x c) as [_|Hne].
    + f_equal. apply IH. intros y Hy. apply H. simpl. auto.
    + exfalso. apply Hne, H. simpl. auto.
  - intros y Hy. apply count_occ_not_In. intros Hin. apply Hy, H, Hin.
Qed.

Lemma np_mean_nonempty (l : list Q) :
  l <> [] ->
  np_mean l = Finite (Qsum l / inject_Z (Z.of_nat (List.length l))).
Proof. destruct l; [congruence | reflexivity]. Qed.

Lemma inject_Z_length_nonzero {A : Type} (l : list A) :
  l <> [] -> ~ (inject_Z (Z.of_nat (List.length l)) == 0)%Q.
Proof.
  intros Hne. destruct l as [|a l]; [congruence|].
  unfold Qeq. simpl. lia.
Qed.

Lemma choices_In (balanced_options : list string) (bbc : DataFrame) :
  Permutation balanced_candidates balanced_options ->
  In (first_choice balanced_options bbc) balanced_options /\
  In (second_choice balanced_options bbc) balanced_options.
Proof.
  intros Hperm.
  assert (Hlen : List.length balanced_options = 4%nat)
    by (rewrite <- (Permutation_length Hperm); reflexivity).
  assert (Hbo : balanced_options <> [])
    by (intros E; rewrite E in Hlen; discriminate).
  pose proof (first_choice_In balanced_options bbc Hbo) as Hc1.
  split; [exact Hc1|].
  pose proof (without_length _ balanced_options Hc1) as Hwl.
  unfold second_choice. eapply without_In. apply first_choice_In.
  intros E. rewrite E in Hwl. simpl in Hwl. lia.
Qed.

Lemma calibration_rows_usable (balanced_options : list string)
  (bbc : DataFrame) (b : Bin) :
  Permutation balanced_candidates balanced_options ->
  In b (calibration_rows balanced_options bbc) ->
  In b (rows bbc) /\
  exists c, In c balanced_options /\ usable c b = true.
Proof.
  intros Hperm. destruct (choices_In balanced_options bbc Hperm) as [H1 H2].
  unfold calibration_rows.
  destruct (filter (usable (first_choice balanced_options bbc)) (rows bbc))
    eqn:E.
  - intros Hb. apply filter_In in Hb as [Hb Hu]. eauto.
  - rewrite <- E. intros Hb. apply filter_In in Hb as [Hb Hu]. eauto.
Qed.

Lemma usable_positive (c : string) (b : Bin) :
  usable c b = true ->
  (0 < RD b)%Q /\ forall cu, In cu (clones b) -> fst cu = c.
Proof.
  unfold usable. intros H. apply andb_true_iff in H as [H1 H2]. split.
  - apply negb_true_iff in H2. apply Qnot_le_lt. intros Hle.
    apply Qle_bool_iff in Hle. congruence.
  - rewrite forallb_forall in H1. intros cu Hcu.
    apply String.eqb_eq. auto.
Qed.

(** On a table whose clones are all in state (2,2) the first candidate
    tried is (2,2) and every row with [RD > 0] is a calibration row. *)
Lemma all_balanced_choice (n : nat) (bbc : DataFrame)
  (balanced_options : list string) :
  (1 <= n)%nat -> rectangular n bbc -> rows bbc <> [] ->
  Permutation balanced_candidates balanced_options ->
  (forall b, In b (rows bbc) ->
             forall cu, In cu (all_clones b) -> fst cu = "2|2") ->
  first_choice balanced_options bbc = "2|2".
Proof.
  intros Hn [Hc Hr] Hne Hperm Hall.
  destruct (rows bbc) as [|b0 rest] eqn:Hfirst; [congruence|].
  rewrite <- Hfirst in *.
  pose proof (dominant_clone_bound n bbc Hn Hr b0 rest Hfirst) as Hd.
  assert (Hdom : forall x,
             In x (map (fun b => fst (clone_at b (S (dominant_clone bbc))))
                       (rows bbc)) -> x = "2|2").
  { intros x Hx. apply in_map_iff in Hx as (b & <- & Hb).
    apply (Hall b Hb). unfold clone_at. apply nth_In. simpl.
    rewrite Forall_forall in Hr. rewrite (Hr b Hb). lia. }
  destruct (count_occ_all "2|2" _ Hdom) as [Hcount Hzero].
  assert (Hin : In "2|2" balanced_options)
    by (eapply Permutation_in; [exact Hperm | simpl; auto]).
  destruct balanced_options as [|x l]; [destruct Hin|].
  unfold first_choice. apply (max_by_from_largest string_dec); [exact Hin|].
  intros y _ Hy. unfold dominant_count. rewrite Hcount, (Hzero y Hy).
  rewrite length_map, Hfirst. simpl. lia.
Qed.

(** C2 (amended): gamma is the mean, over the calibration rows, of
    fractional copy number divided by [RD], the fractional copy number of
    a row being the sum over its clones of total copy number times
    proportion. When every clone (the normal column included) is in
    state (2,2), every [RD] is positive and the proportions of each row
    sum to 1, that is the mean of [4 / RD] over all rows; it equals
    [4 / mean(RD)] when all rows have the same [RD]. *)
Theorem gamma_is_mean_of_ratios :
  (forall (n : nat) (bbc : DataFrame) (balanced_options : list string),
      (1 <= n)%nat -> rectangular n bbc -> tokens_ok bbc -> rows bbc <> [] ->
      Permutation balanced_candidates balanced_options ->
      compute_gamma balanced_options bbc
      = Ok (Z.of_nat n,
            np_mean (map (fun b => row_fcn n b / RD b)%Q
                         (calibration_rows balanced_options bbc))) /\
      (forall b, In b (rows bbc) ->
                 (row_fcn n b
                  == Qsum (map (fun cu => inject_Z (token_total (fst cu)) * snd cu)
                               (all_clones b)))%Q) /\
      (forall b, In b (calibration_rows balanced_options bbc) ->
                 In b (rows bbc) /\ (0 < RD b)%Q /\
                 exists c, In c balanced_options /\
                           forall cu, In cu (clones b) -> fst cu = c)) /\
  (forall (n : nat) (bbc : DataFrame) (balanced_options : list string),
      (1 <= n)%nat -> rectangular n bbc -> rows bbc <> [] ->
      Permutation balanced_candidates balanced_options ->
      (forall b, In b (rows bbc) ->
                 forall cu, In cu (all_clones b) -> fst cu = "2|2") ->
      (forall b, In b (rows bbc) -> (0 < RD b)%Q) ->
      (forall b, In b (rows bbc) -> (Qsum (map snd (all_clones b)) == 1)%Q) ->
      exists g,
        compute_gamma balanced_options bbc = Ok (Z.of_nat n, Finite g) /\
        (g == Qsum (map (fun b => 4 / RD b) (rows bbc))
              / inject_Z (Z.of_nat (List.length (rows bbc))))%Q /\
        (forall r, (forall b, In b (rows bbc) -> RD b == r)%Q ->
                   (g == 4 / r)%Q /\ (g == 4 / mean_RD bbc)%Q)).
Proof.
  assert (Hgen : forall n bbc balanced_options,
             (1 <= n)%nat -> rectangular n bbc -> tokens_ok bbc ->
             rows bbc <> [] ->
             Permutation balanced_candidates balanced_options ->
             compute_gamma balanced_options bbc
             = Ok (Z.of_nat n,
                   np_mean (map (fun b => row_fcn n b / RD b)%Q
                                (calibration_rows balanced_options bbc)))).
  { intros n bbc bo Hn [Hc Hr] Htok Hne Hperm.
    destruct (rows bbc) as [|b0 rest] eqn:Hfirst; [congruence|].
    rewrite <- Hfirst in *.
    apply (compute_gamma_rows n bbc Hn Hc Hr Htok b0 rest Hfirst).
    rewrite <- (Permutation_length Hperm). simpl. lia. }
  split.
  - intros n bbc bo Hn Hrect Htok Hne Hperm.
    split; [apply Hgen; assumption|]. split.
    + intros b Hb. apply row_fcn_sum. destruct Hrect as [_ Hr].
      rewrite Forall_forall in Hr. auto.
    + intros b Hb.
      destruct (calibration_rows_usable bo bbc b Hperm Hb) as (Hin & c & Hc & Hu).
      apply usable_positive in Hu as [Hrd Hst]. eauto.
  - intros n bbc bo Hn Hrect Hne Hperm Hall Hrd Hsum.
    assert (Htok : tokens_ok bbc).
    { intros b Hb cu Hcu. rewrite (Hall b Hb cu Hcu). reflexivity. }
    assert (Hcal : calibration_rows bo bbc = rows bbc).
    { unfold calibration_rows.
      rewrite (all_balanced_choice n bbc bo Hn Hrect Hne Hperm Hall).
      rewrite filter_all; [destruct (rows bbc); [congruence | reflexivity]|].
      intros b Hb. unfold usable. apply andb_true_iff. split.
      - apply forallb_forall. intros cu Hcu. apply String.eqb_eq.
        apply (Hall b Hb). simpl. auto.
      - apply negb_true_iff. destruct (Qle_bool (RD b) 0) eqn:E; [|reflexivity].
        apply Qle_bool_iff in E. specialize (Hrd b Hb).
        exfalso. exact (Qlt_not_le _ _ Hrd E). }
    assert (Hfcn : forall b, In b (rows bbc) -> (row_fcn n b == 4)%Q).
    { intros b Hb. destruct Hrect as [_ Hr]. rewrite Forall_forall in Hr.
      rewrite (row_fcn_sum n b (Hr b Hb)).
      rewrite (Qsum_map_ext _ (fun cu => 4 * snd cu)%Q).
      - rewrite Qsum_map_scale, (Hsum b Hb). reflexivity.
      - intros cu Hcu. rewrite (Hall b Hb cu Hcu). reflexivity. }
    pose proof (inject_Z_length_nonzero (rows bbc) Hne) as Hlen.
    rewrite (Hgen n bbc bo Hn Hrect Htok Hne Hperm), Hcal.
    destruct (rows bbc) as [|b0 rest] eqn:Hfirst; [congruence|].
    rewrite <- Hfirst in *.
    exists (Qsum (map (fun b => row_fcn n b / RD b) (rows bbc))
            / inject_Z (Z.of_nat (List.length
                                    (map (fun b => row_fcn n b / RD b)%Q
                                         (rows bbc)))))%Q.
    assert (Hg : (Qsum (map (fun b => row_fcn n b / RD b) (rows bbc))
                  / inject_Z (Z.of_nat (List.length
                                          (map (fun b => row_fcn n b / RD b)%Q
                                               (rows bbc))))
                  == Qsum (map (fun b => 4 / RD b) (rows bbc))
                     / inject_Z (Z.of_nat (List.length (rows bbc))))%Q).
    { rewrite length_map.
      rewrite (Qsum_map_ext (fun b => row_fcn n b / RD b)%Q
                 (fun b => 4 / RD b)%Q); [reflexivity|].
      intros b Hb. rewrite (Hfcn b Hb). reflexivity. }
    split; [|split].
    + rewrite np_mean_nonempty; [reflexivity|].
      intros E. apply map_eq_nil in E. congruence.
    + exact Hg.
    + intros r Hr.
      assert (Hr0 : (0 < r)%Q).
      { rewrite <- (Hr b0) by (rewrite Hfirst; simpl; auto).
        apply Hrd. rewrite Hfirst. simpl. auto. }
      assert (Hrne : ~ (r == 0)%Q)
        by (intros E; rewrite E in Hr0; exact (Qlt_irrefl _ Hr0)).
      assert (H4r : (Qsum (map (fun b => 4 / RD b) (rows bbc))
                     / inject_Z (Z.of_nat (List.length (rows bbc)))
                     == 4 / r)%Q).
      { rewrite (Qsum_map_ext _ (fun _ => 4 / r)%Q).
        - rewrite Qsum_map_const. field. split; assumption.
        - intros b Hb. rewrite (Hr b Hb). reflexivity. }
      split; [rewrite Hg; exact H4r|].
      rewrite Hg, H4r. unfold mean_RD.
      rewrite (Qsum_map_ext RD (fun _ => r)) by exact Hr.
      rewrite Qsum_map_const. field. split; assumption.
Qed.

(** Gamma of the all-balanced table with read-depth ratios 1 and 3. *)
Lemma gamma_is_mean_of_ratios_witness :
  exists g,
    compute_gamma balanced_candidates table_balanced_1_3 = Ok (1, Finite g) /\
    (g == Qsum (map (fun b => 4 / RD b) (rows table_balanced_1_3)) / 2)%Q.
Proof.
  assert (Hn : (1 <= 1)%nat) by lia.
  assert (Hr : rectangular 1 table_balanced_1_3)
    by (split; [reflexivity | repeat constructor]).
  assert (Hne : rows table_balanced_1_3 <> []) by discriminate.
  assert (Hall : forall b, In b (rows table_balanced_1_3) ->
                           forall cu, In cu (all_clones b) -> fst cu = "2|2").
  { intros b [<-|[<-|[]]] cu [<-|[<-|[]]]; reflexivity. }
  assert (Hrd : forall b, In b (rows table_balanced_1_3) -> (0 < RD b)%Q).
  { intros b [<-|[<-|[]]]; reflexivity. }
  assert (Hsum : forall b, In b (rows table_balanced_1_3) ->
                           (Qsum (map snd (all_clones b)) == 1)%Q).
  { intros b [<-|[<-|[]]]; reflexivity. }
  destruct (proj2 gamma_is_mean_of_ratios 1%nat table_balanced_1_3
              balanced_candidates Hn Hr Hne (Permutation_refl _)
              Hall Hrd Hsum) as (g & Hg & Hmean & _).
  exists g. split; [exact Hg | exact Hmean].
Defined.

(** C2, the claim as written fails. In [table_balanced_1_3] every clone
    is in state (2,2), the proportions are 1/2 and 1/2, and [RD] is 1 in
    one bin and 3 in the other: gamma is (4/1 + 4/3)/2 = 8/3, whereas
    [4 / mean(RD)] is 4/2 = 2. *)
Lemma gamma_not_four_over_mean_RD :
  forallb (fun b => forallb (fun cu => String.eqb (fst cu) "2|2") (all_clones b)
                    && negb (Qle_bool (RD b) 0)
                    && Qeq_bool (Qsum (map snd (all_clones b))) 1)
          (rows table_balanced_1_3) = true /\
  map (fun order => compute_gamma order table_balanced_1_3) iteration_orders
  = repeat (Ok (1, Finite (256 # 96))) 24 /\
  (mean_RD table_balanced_1_3 == 2)%Q /\
  ~ (256 # 96 == 4 / mean_RD table_balanced_1_3)%Q.
Proof.
  split; [vm_compute; reflexivity|].
  split; [vm_compute; reflexivity|].
  split; [reflexivity | discriminate].
Qed.

(* ----------------------------------------------------------------- *)
(** ** The order of [groupby] keys *)

Lemma string_compare_refl (x : string) : String.compare x x = Eq.
Proof.
  pose proof (String.compare_antisym x x) as H.
  destruct (String.compare x x); simpl in H; congruence.
Qed.

Lemma string_compare_lt_trans (x y z : string) :
  String.compare x y = Lt -> String.compare y z = Lt ->
  String.compare x z = Lt.
Proof.
  intros H1 H2. apply String_as_OT.cmp_lt.
  apply String_as_OT.cmp_lt in H1, H2.
  eapply String_as_OT.lt_trans; eassumption.
Qed.

Lemma string_leb_trans (x y z : string) :
  String.leb x y = true -> String.leb y z = true -> String.leb x z = true.
Proof.
  unfold String.leb.
  destruct (String.compare x y) eqn:E1; try discriminate;
    destruct (String.compare y z) eqn:E2; try discriminate; intros _ _.
  - apply String.compare_eq_iff in E1, E2. subst.
    rewrite string_compare_refl. reflexivity.
  - apply String.compare_eq_iff in E1. subst. rewrite E2. reflexivity.
  - apply String.compare_eq_iff in E2. subst. rewrite E1. reflexivity.
  - rewrite (string_compare_lt_trans _ _ _ E1 E2). reflexivity.
Qed.

Lemma tuple_leb_total (s t : list string) :
  tuple_leb s t = true \/ tuple_leb t s = true.
Proof.
  revert t. induction s as [|x s IH]; intros [|y t]; simpl; auto.
  rewrite (String.compare_antisym y x).
  destruct (String.compare x y); simpl; auto.
Qed.

Lemma tuple_leb_antisym (s t : list string) :
  tuple_leb s t = true -> tuple_leb t s = true -> s = t.
Proof.
  revert t. induction s as [|x s IH]; intros [|y t]; simpl;
    try discriminate; [reflexivity|].
  rewrite (String.compare_antisym y x).
  destruct (String.compare x y) eqn:E; simpl; try discriminate.
  intros H1 H2. apply String.compare_eq_iff in E. subst.
  f_equal. apply IH; assumption.
Qed.

Lemma tuple_leb_trans (s t u : list string) :
  tuple_leb s t = true -> tuple_leb t u = true -> tuple_leb s u = true.
Proof.
  revert t u. induction s as [|x s IH]; intros [|y t] [|z u]; simpl;
    try discriminate; try reflexivity.
  destruct (String.compare x y) eqn:E1; try discriminate;
    destruct (String.compare y z) eqn:E2; try discriminate.
  - apply String.compare_eq_iff in E1, E2. subst.
    rewrite string_compare_refl. apply IH.
  - apply String.compare_eq_iff in E1. subst. rewrite E2. reflexivity.
  - apply String.compare_eq_iff in E2. subst. rewrite E1. reflexivity.
  - rewrite (string_compare_lt_trans _ _ _ E1 E2). reflexivity.
Qed.

Lemma key_leb_total (a b : pykey) : key_leb a b = true \/ key_leb b a = true.
Proof.
  destruct a, b; simpl; auto using String.leb_total, tuple_leb_total.
Qed.

Lemma key_leb_antisym (a b : pykey) :
  key_leb a b = true -> key_leb b a = true -> a = b.
Proof.
  destruct a, b; simpl; try discriminate; intros H1 H2; f_equal.
  - apply String.leb_antisym; assumption.
  - apply tuple_leb_antisym; assumption.
Qed.

Lemma key_leb_trans (a b c : pykey) :
  key_leb a b = true -> key_leb b c = true -> key_leb a c = true.
Proof.
  destruct a, b, c; simpl; try discriminate; try reflexivity.
  - apply string_leb_trans.
  - apply tuple_leb_trans.
Qed.

Section GroupKeysOrder.
Context {K : Type} (K_eq_dec : forall x y : K, {x = y} + {x <> y}).
Variable leb : K -> K -> bool.
Hypothesis leb_total : forall a b, leb a b = true \/ leb b a = true.
Hypothesis leb_antisym : forall a b, leb a b = true -> leb b a = true -> a = b.
Hypothesis leb_trans :
  forall a b c, leb a b = true -> leb b c = true -> leb a c = true.

Lemma insert_key_sorted (k : K) (l : list K) :
  StronglySorted (fun a b => leb a b = true /\ a <> b) l ->
  StronglySorted (fun a b => leb a b = true /\ a <> b)
                 (insert_key K_eq_dec leb k l).
Proof.
  induction l as [|x l IH]; simpl; intros Hs; [repeat constructor|].
  inversion Hs as [|? ? Hl Hx]; subst. rewrite Forall_forall in Hx.
  destruct (K_eq_dec k x) as [->|Hne]; [exact Hs|].
  destruct (leb k x) eqn:E.
  - constructor; [exact Hs|]. rewrite Forall_forall.
    intros y [<-|Hy]; [auto|].
    destruct (Hx y Hy) as [Hxy Hnxy]. split; [eauto|].
    intros ->. apply Hnxy. apply leb_antisym; assumption.
  - constructor; [apply IH; exact Hl|]. rewrite Forall_forall.
    intros y Hy. apply insert_key_In in Hy as [->|Hy]; [|auto].
    split; [|congruence].
    destruct (leb_total x k) as [H|H]; [exact H | congruence].
Qed.

(** [groupby] iterates over the distinct keys in strictly ascending
    order. *)
Lemma group_keys_sorted (l : list K) :
  StronglySorted (fun a b => leb a b = true /\ a <> b)
                 (group_keys K_eq_dec leb l).
Proof.
  induction l as [|x l IH]; simpl; [constructor|].
  apply insert_key_sorted. exact IH.
Qed.

Lemma group_keys_NoDup (l : list K) : NoDup (group_keys K_eq_dec leb l).
Proof.
  pose proof (group_keys_sorted l) as Hs.
  induction Hs as [|x m Hm IH Hx]; constructor; [|exact IH].
  rewrite Forall_forall in Hx. intros Hin. destruct (Hx x Hin). congruence.
Qed.
End GroupKeysOrder.

Section DistinctLabels.
Context {K : Type} (K_eq_dec : forall x y : K, {x = y} + {x <> y}).

Lemma counter_add_new (c : list (K * nat)) (x : K) :
  ~ In x (map fst c) -> counter_add K_eq_dec c x = (c ++ [(x, 1%nat)])%list.
Proof.
  induction c as [|[k n] c IH]; simpl; intros H; [reflexivity|].
  destruct (K_eq_dec x k); [subst; tauto|]. f_equal. apply IH. tauto.
Qed.

Lemma Counter_distinct (l : list K) :
  NoDup l -> Counter K_eq_dec l = map (fun k => (k, 1%nat)) l.
Proof.
  induction l as [|x l IH] using rev_ind; intros Hnd; [reflexivity|].
  apply NoDup_remove in Hnd as [Hl Hx]. rewrite app_nil_r in Hl, Hx.
  rewrite Counter_snoc, (IH Hl), counter_add_new, map_app; [reflexivity|].
  rewrite map_map, map_id. exact Hx.
Qed.

Lemma most_common_ties (c : list (K * nat)) :
  (forall a, In a c -> snd a = 1%nat) -> most_common c = c.
Proof.
  induction c as [|x c IH]; simpl; intros H; [reflexivity|].
  rewrite IH by auto. destruct c as [|y c]; [reflexivity|]. simpl.
  rewrite (H x), (H y) by (simpl; auto). reflexivity.
Qed.

(** On labels that are all distinct, [reindex] numbers them in the order
    given: prevalence plays no part. *)
Lemma reindex_mapping_distinct (l : list K) :
  NoDup l ->
  reindex_mapping K_eq_dec l = combine l (ranks_from 1 (List.length l)).
Proof.
  intros Hnd. rewrite reindex_mapping_combine. cbv zeta.
  rewrite (Counter_distinct l Hnd), most_common_ties.
  - rewrite map_map, map_id, length_map. reflexivity.
  - intros a Ha. apply in_map_iff in Ha as (k & <- & _). reflexivity.
Qed.
End DistinctLabels.

(** What the pipeline computes as the state-index mapping of a table in
    the expected layout: the distinct combinations in ascending order of
    their keys, numbered from 1. The number of bins a combination occurs
    in does not enter. *)
Lemma state_mapping_key_order (n : nat) (bbc : DataFrame) :
  (1 <= n <= 4)%nat -> rectangular n bbc ->
  let keys := group_keys pykey_eq_dec key_leb (map state_key (rows bbc)) in
  state_mapping bbc = Ok (combine keys (ranks_from 1 (List.length keys))) /\
  StronglySorted (fun a b => key_leb a b = true /\ a <> b) keys.
Proof.
  intros Hn Hrect keys. split.
  - rewrite (state_mapping_rectangular n bbc Hn Hrect). fold keys.
    rewrite reindex_mapping_distinct; [reflexivity|].
    exact (group_keys_NoDup pykey_eq_dec key_leb key_leb_total
             key_leb_antisym key_leb_trans _).
  - exact (group_keys_sorted pykey_eq_dec key_leb key_leb_total
             key_leb_antisym key_leb_trans _).
Qed.

(* ----------------------------------------------------------------- *)
(** ** Iteration orders *)

Lemma insert_everywhere_In {A : Type} (x : A) (p1 p2 : list A) :
  In (p1 ++ x :: p2)%list (insert_everywhere x (p1 ++ p2)%list).
Proof.
  induction p1 as [|y p1 IH]; simpl.
  - destruct p2; simpl; auto.
  - right. apply in_map. exact IH.
Qed.

(** [permutations] lists every order of a list. *)
Lemma permutations_complete {A : Type} (l : list A) :
  forall p, Permutation l p -> In p (permutations l).
Proof.
  induction l as [|x l IH]; intros p Hp; simpl.
  - apply Permutation_nil in Hp. auto.
  - assert (Hx : In x p) by (eapply Permutation_in; [exact Hp | simpl; auto]).
    apply in_split in Hx as (p1 & p2 & ->).
    apply Permutation_cons_app_inv in Hp.
    apply in_flat_map. exists (p1 ++ p2)%list.
    split; [apply IH; exact Hp | apply insert_everywhere_In].
Qed.

Lemma iteration_orders_complete (order : list string) :
  Permutation balanced_candidates order -> In order iteration_orders.
Proof. apply permutations_complete. Qed.

(* ================================================================= *)
(** * Further properties of the module *)

(** ** Parsers of state tokens *)

Lemma split_length (sep : ascii) (s : string) :
  List.length (split sep s) = S (count_char sep s).
Proof.
  induction s as [|c r IH]; simpl; [reflexivity|].
  destruct (Ascii.eqb c sep); simpl.
  - rewrite IH. reflexivity.
  - destruct (split sep r) as [|h t]; simpl in *; [discriminate | exact IH].
Qed.

Lemma py_int_error (s : string) (e : exn) :
  py_int s = Raise e ->
  e = ValueError "invalid literal for int() with base 10".
Proof.
  unfold py_int.
  destruct (strip s) as [|c r].
  - simpl. intros H. injection H as <-. reflexivity.
  - destruct c as [[] [] [] [] [] [] [] []];
      repeat match goal with
             | |- context [match ?x with Some _ => _ | None => _ end] =>
                 destruct x
             end;
      intros H; try discriminate; injection H as <-; reflexivity.
Qed.

(** X1: [cn2total] raises [AssertionError] exactly on the tokens that do
    not hold exactly one ['|']; on a token with one ['|'] it returns the
    sum of the two sides when [int] reads both, and raises the
    [ValueError] of [int] otherwise. It raises nothing else. *)
Theorem cn2total_outcomes (s : string) :
  (cn2total s = Raise AssertionError <-> count_char "|" s <> 1%nat) /\
  (count_char "|" s = 1%nat ->
   exists t0 t1,
     split "|" s = [t0; t1] /\
     cn2total s = (a <- py_int t0 ;; b <- py_int t1 ;; Ok (a + b))) /\
  (forall e, cn2total s = Raise e ->
             e = AssertionError \/
             e = ValueError "invalid literal for int() with base 10").
Proof.
  pose proof (split_length "|" s) as Hlen.
  unfold cn2total.
  destruct (split "|" s) as [|t0 [|t1 [|t2 l]]] eqn:E; simpl in *;
    try (injection Hlen as Hlen).
  - discriminate.
  - split; [split; [intros _; lia | reflexivity]|].
    split; [intros H; lia|]. intros e H. injection H as <-. auto.
  - split.
    + split; [|intros H; lia].
      destruct (py_int t0) as [a|e0] eqn:E0; simpl.
      * destruct (py_int t1) as [b|e1] eqn:E1; simpl; [discriminate|].
        intros H. injection H as ->.
        apply py_int_error in E1. discriminate.
      * intros H. injection H as ->. apply py_int_error in E0. discriminate.
    + split; [intros _; exists t0, t1; split; reflexivity|].
      intros e. destruct (py_int t0) as [a|e0] eqn:E0; simpl.
      * destruct (py_int t1) as [b|e1] eqn:E1; simpl; [discriminate|].
        intros H. injection H as <-. right. eapply py_int_error; eauto.
      * intros H. injection H as <-. right. eapply py_int_error; eauto.
  - split; [split; [intros _; lia | reflexivity]|].
    split; [intros H; lia|]. intros e H. injection H as <-. auto.
Qed.

Lemma cn2total_outcomes_witness :
  exists t0 t1,
    split "|" "2|1" = [t0; t1] /\
    cn2total "2|1" = (a <- py_int t0 ;; b <- py_int t1 ;; Ok (a + b)).
Proof.
  exact (proj1 (proj2 (cn2total_outcomes "2|1")) eq_refl).
Defined.

(** X2: the two parsers agree. [cn2total] accepts a token exactly when
    [str2state] reads it as a pair, and the total is then the sum of the
    pair, which is also what [cn2totals] makes of the state. *)
Theorem cn2total_agrees_with_str2state (s : string) (t : Z) :
  cn2total s = Ok t <->
  exists a b, str2state s = Ok [a; b] /\ a + b = t /\
              cn2totals [[a; b]] = [t].
Proof.
  rewrite cn2total_Ok_iff. split.
  - intros (t0 & t1 & a & b & Hs & Ha & Hb & ->).
    exists a, b. unfold str2state. rewrite Hs. simpl. rewrite Ha, Hb.
    repeat split.
  - intros (a & b & Hs & <- & _).
    apply str2state_Ok_iff in Hs.
    inversion Hs as [|t0 ? l0 ? Ha Hl E0]; subst.
    inversion Hl as [|t1 ? l1 ? Hb Hl' E1]; subst.
    inversion Hl'; subst.
    exists t0, t1, a, b. auto.
Qed.

Lemma cn2total_agrees_with_str2state_witness :
  exists a b, str2state "3|0" = Ok [a; b] /\ a + b = 3 /\
              cn2totals [[a; b]] = [3].
Proof.
  exact (proj1 (cn2total_agrees_with_str2state "3|0" 3) eq_refl).
Defined.

(** X3: reading back what was written. For all numbers [a] and [b], the
    token ["a|b"] is read by [str2state] and [str2cn] as the pair
    [(a, b)] and by [cn2total] as [a + b], which is never negative. *)
Theorem state_token_round_trip (a b : nat) :
  str2state (state_token a b) = Ok [Z.of_nat a; Z.of_nat b] /\
  str2cn (state_token a b) = Ok [Z.of_nat a; Z.of_nat b] /\
  cn2total (state_token a b) = Ok (Z.of_nat (a + b)) /\
  0 <= Z.of_nat (a + b).
Proof.
  repeat split.
  - apply str2state_token.
  - apply str2state_token.
  - rewrite cn2total_token, Nat2Z.inj_add. reflexivity.
  - lia.
Qed.

(** ** [recompose_state] *)

Lemma recompose_state_app (pairs : list (nat * nat)) (tail : list string) :
  forall (pre : list string),
    List.length pre = (2 * (List.length pre / 2))%nat ->
    mapM (fun i =>
            a <- list_item (pre ++ flatten_states pairs ++ tail)%list (i * 2) ;;
            a' <- py_int a ;;
            b <- list_item (pre ++ flatten_states pairs ++ tail)%list (i * 2 + 1) ;;
            b' <- py_int b ;;
            Ok (a', b'))
         (seq (List.length pre / 2) (List.length pairs))
    = Ok (map (fun ab => (Z.of_nat (fst ab), Z.of_nat (snd ab))) pairs).
Proof.
  induction pairs as [|[a b] pairs IH]; intros pre Hpre; [reflexivity|].
  cbn [List.length seq mapM].
  assert (H0 : nth_error (pre ++ flatten_states ((a, b) :: pairs) ++ tail)%list
                 (List.length pre / 2 * 2) = Some (py_str a)).
  { rewrite nth_error_app2 by lia.
    replace (List.length pre / 2 * 2 - List.length pre)%nat with 0%nat by lia.
    reflexivity. }
  assert (H1 : nth_error (pre ++ flatten_states ((a, b) :: pairs) ++ tail)%list
                 (List.length pre / 2 * 2 + 1) = Some (py_str b)).
  { rewrite nth_error_app2 by lia.
    replace (List.length pre / 2 * 2 + 1 - List.length pre)%nat with 1%nat by lia.
    reflexivity. }
  unfold list_item at 1 2. rewrite H0, H1. cbn [bind].
  rewrite !py_int_py_str. cbn [bind].
  specialize (IH (pre ++ [py_str a; py_str b])%list).
  assert (Hlen : List.length (pre ++ [py_str a; py_str b])%list
                 = (List.length pre + 2)%nat)
    by (rewrite length_app; reflexivity).
  assert (Hdiv : ((List.length pre + 2) / 2 = S (List.length pre / 2))%nat).
  { replace (List.length pre + 2)%nat with (1 * 2 + List.length pre)%nat by lia.
    rewrite Nat.div_add_l by lia. lia. }
  rewrite Hlen, Hdiv in IH.
  replace ((pre ++ [py_str a; py_str b]) ++ flatten_states pairs ++ tail)%list
    with (pre ++ flatten_states ((a, b) :: pairs) ++ tail)%list in IH
    by (simpl; rewrite <- app_assoc; reflexivity).
  rewrite IH by lia. reflexivity.
Qed.

(** X4: [recompose_state] reads a flat list of values back into the
    states it came from, and an element left over at the end of a list of
    odd length is dropped without being looked at, whatever it is. *)
Theorem recompose_state_round_trip (pairs : list (nat * nat)) :
  recompose_state (flatten_states pairs)
  = Ok (map (fun ab => (Z.of_nat (fst ab), Z.of_nat (snd ab))) pairs) /\
  forall extra,
    recompose_state (flatten_states pairs ++ [extra])%list
    = Ok (map (fun ab => (Z.of_nat (fst ab), Z.of_nat (snd ab))) pairs).
Proof.
  assert (Hlen : forall l, List.length (flatten_states l) = (2 * List.length l)%nat).
  { induction l as [|[a b] l IH]; [reflexivity|].
    change (flatten_states ((a, b) :: l))
      with (py_str a :: py_str b :: flatten_states l).
    cbn [List.length]. rewrite IH. lia. }
  split.
  - unfold recompose_state. rewrite Hlen.
    replace (2 * List.length pairs / 2)%nat with (List.length pairs)
      by (rewrite Nat.mul_comm, Nat.div_mul; lia).
    pose proof (recompose_state_app pairs [] [] eq_refl) as H.
    simpl in H. rewrite app_nil_r in H. exact H.
  - intros extra. unfold recompose_state. rewrite length_app, Hlen.
    replace ((2 * List.length pairs + List.length [extra]) / 2)%nat
      with (List.length pairs).
    + exact (recompose_state_app pairs [extra] [] eq_refl).
    + simpl List.length.
      replace (2 * List.length pairs + 1)%nat
        with (1 + List.length pairs * 2)%nat by lia.
      rewrite Nat.div_add by lia. reflexivity.
Qed.

(** ** [cn2evs] *)

Lemma mapM_raises_only {A B : Type} (f : A -> result B) (e0 : exn)
  (l : list A) (a : A) :
  (forall x e, f x = Raise e -> e = e0) ->
  In a l -> is_ok (f a) = false -> mapM f l = Raise e0.
Proof.
  intros Hf. induction l as [|x l IH]; simpl; [tauto|].
  intros Hin Ha. destruct (f x) as [b|e] eqn:E; simpl.
  - destruct Hin as [->|Hin]; [rewrite E in Ha; discriminate|].
    rewrite (IH Hin Ha). reflexivity.
  - rewrite (Hf x e E). reflexivity.
Qed.

Lemma cn2evs_pairs (states : list (Z * Z)) (props : list Q) :
  List.length states = List.length props ->
  cn2evs (map (fun s => [fst s; snd s]) states) props
  = Ok (dot (map (fun s => (fst s + snd s)%Z) states) props,
        np_div (dot (map snd states) props)
               (dot (map (fun s => (fst s + snd s)%Z) states) props)).
Proof.
  intros Hlen. unfold cn2evs. rewrite length_map, Hlen, Nat.eqb_refl. simpl.
  rewrite mapM_tuple_get_0. simpl. rewrite mapM_tuple_get_1. simpl.
  rewrite combine_fst_snd. reflexivity.
Qed.







(** X7: failures of [cn2evs]. A list of proportions of another length
    than the list of states fails the assertion, whatever the states are;
    with equal lengths, a state of fewer than two entries raises
    [IndexError]; and an expected copy number of 0 raises nothing: the BAF
    returned is then not a finite number. *)
Theorem cn2evs_failures :
  (forall cns props,
     List.length cns <> List.length props ->
     cn2evs cns props = Raise AssertionError) /\
  (forall cns props x,
     List.length cns = List.length props ->
     In x cns -> (List.length x < 2)%nat ->
     cn2evs cns props = Raise IndexError) /\
  (forall (states : list (Z * Z)) props,
     List.length states = List.length props ->
     (dot (map (fun s => (fst s + snd s)%Z) states) props == 0)%Q ->
     exists fcn baf,
       cn2evs (map (fun s => [fst s; snd s]) states) props = Ok (fcn, baf) /\
       forall q, baf <> Finite q).
Proof.
  split; [|split].
  - intros cns props Hlen. unfold cn2evs.
    apply Nat.eqb_neq in Hlen. rewrite Hlen. reflexivity.
  - intros cns props x Hlen Hin Hx. unfold cn2evs.
    rewrite Hlen, Nat.eqb_refl. cbn [py_assert bind].
    assert (Honly : forall i (y : list Z) e, tuple_get y i = Raise e -> e = IndexError).
    { intros i y e. unfold tuple_get. destruct (nth_error y i); [discriminate|].
      intros H. injection H as <-. reflexivity. }
    destruct (mapM (fun y => tuple_get y 0%nat) cns) as [A|e] eqn:EA.
    + cbn [bind].
      rewrite (mapM_raises_only (fun y => tuple_get y 1%nat) IndexError cns x
                 (Honly 1%nat) Hin); [reflexivity|].
      unfold tuple_get. destruct x as [|x0 [|x1 x]]; simpl in *;
        [reflexivity | reflexivity | lia].
    + cbn [bind]. f_equal.
      destruct cns as [|c cns]; [discriminate|].
      revert EA. generalize (c :: cns). intros l. revert e.
      induction l as [|y l IH]; simpl; intros e; [discriminate|].
      destruct (tuple_get y 0%nat) as [v|e'] eqn:E; simpl.
      * destruct (mapM (fun y0 => tuple_get y0 0%nat) l) as [vs|e''] eqn:E';
          simpl; [discriminate|].
        intros H. injection H as <-. apply (IH e''). reflexivity.
      * intros H. injection H as <-. apply (Honly _ _ _ E).
  - intros states props Hlen Hz.
    eexists _, _. split; [apply cn2evs_pairs, Hlen|].
    intros q. unfold np_div. apply Qeq_bool_iff in Hz. rewrite Hz.
    cbv beta iota.
    destruct (Qeq_bool (dot (map snd states) props) 0);
      [intros H; discriminate H|].
    destruct (Qle_bool 0 (dot (map snd states) props));
      intros H; discriminate H.
Qed.

(** ** Colours of the states *)

Lemma ranks_dict_bound {K : Type}
  (eq_dec : forall x y : K, {x = y} + {x <> y}) (ks : list K) (k : K) :
  forall (j r : Z),
    dict_get eq_dec (combine ks (ranks_from j (List.length ks))) k = Some r ->
    j <= r < j + Z.of_nat (List.length ks).
Proof.
  induction ks as [|k0 ks IH]; intros j r; simpl List.length;
    cbn [ranks_from combine dict_get]; [discriminate|].
  destruct (eq_dec k k0) as [->|Hne].
  - intros H. injection H as <-. lia.
  - intros H. apply IH in H. lia.
Qed.

Lemma ranks_dict_nth {K : Type}
  (eq_dec : forall x y : K, {x = y} + {x <> y}) (d : K) (ks : list K) :
  NoDup ks ->
  forall (i : nat) (j : Z),
    (i < List.length ks)%nat ->
    dict_get eq_dec (combine ks (ranks_from j (List.length ks))) (nth i ks d)
    = Some (j + Z.of_nat i).
Proof.
  induction 1 as [|k0 ks Hk0 Hnd IH]; intros i j Hi; simpl in Hi; [lia|].
  simpl List.length. cbn [ranks_from combine dict_get].
  destruct i as [|i].
  - simpl. destruct (eq_dec k0 k0); [f_equal; lia | congruence].
  - cbn [nth]. destruct (eq_dec (nth i ks d) k0) as [E|_].
    + exfalso. apply Hk0. rewrite <- E. apply nth_In. lia.
    + rewrite IH by lia. f_equal. lia.
Qed.

Lemma color_of_rank {K : Type}
  (eq_dec : forall x y : K, {x = y} + {x <> y})
  (mapping : list (K * Z)) (k : K) (c : colorpos) :
  dict_get eq_dec (color_mapping mapping) k = Some c ->
  exists r,
    dict_get eq_dec mapping k = Some r /\
    c = (if Z.of_nat (List.length mapping) <=? 20
         then PaletteIndex (r mod 20)
         else Position (inject_Z (r mod 40)
                        / inject_Z (Z.of_nat (List.length mapping)))).
Proof.
  unfold color_mapping.
  destruct (Z.of_nat (List.length mapping) <=? 20).
  - rewrite (dict_get_map eq_dec (fun v => PaletteIndex (v mod 20))).
    destruct (dict_get eq_dec mapping k) as [r|]; simpl; [|discriminate].
    intros H. injection H as <-. eauto.
  - rewrite (dict_get_map eq_dec
               (fun v => Position (inject_Z (v mod 40)
                                   / inject_Z (Z.of_nat (List.length mapping))))).
    destruct (dict_get eq_dec mapping k) as [r|]; simpl; [|discriminate].
    intros H. injection H as <-. eauto.
Qed.

(** X8: colours of up to 40 states. When the labels handed to [reindex]
    have at most 40 distinct values, the colour step gives two different
    states two different colour keys (palette indices up to 20 states,
    positions in the colormap from 21 on). *)
Theorem colors_distinct_up_to_40 {K : Type}
  (eq_dec : forall x y : K, {x = y} + {x <> y}) (labels : list K)
  (k1 k2 : K) (c1 c2 : colorpos) :
  (List.length (reindex_mapping eq_dec labels) <= 40)%nat ->
  k1 <> k2 ->
  dict_get eq_dec (color_mapping (reindex_mapping eq_dec labels)) k1 = Some c1 ->
  dict_get eq_dec (color_mapping (reindex_mapping eq_dec labels)) k2 = Some c2 ->
  ~ same_color c1 c2.
Proof.
  intros HN Hne H1 H2.
  apply color_of_rank in H1 as (r1 & Hr1 & ->).
  apply color_of_rank in H2 as (r2 & Hr2 & ->).
  pose proof (reindex_mapping_combine eq_dec labels) as Hm. cbv zeta in Hm.
  set (m := reindex_mapping eq_dec labels) in *.
  set (items := most_common (Counter eq_dec labels)) in *.
  assert (Hlen : List.length m = List.length items).
  { rewrite Hm, length_combine, length_map.
    assert (Hr : forall n j, List.length (ranks_from j n) = n).
    { induction n as [|n IH]; intros j; simpl; [reflexivity|].
      rewrite IH. reflexivity. }
    rewrite Hr. apply Nat.min_id. }
  rewrite Hm in Hr1, Hr2.
  rewrite <- (length_map fst items) in Hr1, Hr2.
  assert (Hdiff : r1 <> r2).
  { intros ->. apply Hne.
    exact (dict_get_ranks_inj eq_dec _ k1 k2 _ _ Hr1 Hr2). }
  apply ranks_dict_bound in Hr1, Hr2.
  rewrite length_map, <- Hlen in Hr1, Hr2.
  destruct (Z.leb_spec (Z.of_nat (List.length m)) 20) as [H20|H20]; simpl.
  - intros E. apply Hdiff.
    assert (r1 mod 20 = r1 \/ r1 = 20) as [E1|E1].
    { destruct (Z.eq_dec r1 20); [auto|left]. apply Z.mod_small. lia. }
    + assert (r2 mod 20 = r2 \/ r2 = 20) as [E2|E2].
      { destruct (Z.eq_dec r2 20); [auto|left]. apply Z.mod_small. lia. }
      * congruence.
      * subst r2. change (20 mod 20) with 0 in E. lia.
    + subst r1. change (20 mod 20) with 0 in E.
      assert (r2 mod 20 = r2 \/ r2 = 20) as [E2|E2].
      { destruct (Z.eq_dec r2 20); [auto|left]. apply Z.mod_small. lia. }
      * lia.
      * congruence.
  - intros E. apply Hdiff.
    assert (HN0 : ~ (inject_Z (Z.of_nat (List.length m)) == 0)%Q).
    { change 0%Q with (inject_Z 0). rewrite inject_Z_injective. lia. }
    assert (E' : r1 mod 40 = r2 mod 40).
    { apply inject_Z_injective.
      rewrite <- (Qdiv_mult_l (inject_Z (r1 mod 40)) _ HN0).
      rewrite <- (Qdiv_mult_l (inject_Z (r2 mod 40)) _ HN0).
      unfold Qdiv. rewrite <- !Qmult_assoc.
      rewrite (Qmult_comm (inject_Z (Z.of_nat (List.length m)))).
      rewrite !Qmult_assoc. unfold Qdiv in E. rewrite E. reflexivity. }
    assert (r1 mod 40 = r1 \/ r1 = 40) as [E1|E1].
    { destruct (Z.eq_dec r1 40); [auto|left]. apply Z.mod_small. lia. }
    + assert (r2 mod 40 = r2 \/ r2 = 40) as [E2|E2].
      { destruct (Z.eq_dec r2 40); [auto|left]. apply Z.mod_small. lia. }
      * congruence.
      * subst r2. change (40 mod 40) with 0 in E'. lia.
    + subst r1. change (40 mod 40) with 0 in E'.
      assert (r2 mod 40 = r2 \/ r2 = 40) as [E2|E2].
      { destruct (Z.eq_dec r2 40); [auto|left]. apply Z.mod_small. lia. }
      * lia.
      * congruence.
Qed.

Lemma colors_distinct_up_to_40_witness :
  ~ same_color (PaletteIndex 1) (PaletteIndex 2).
Proof.
  apply (colors_distinct_up_to_40 string_dec ["2|2"; "1|1"; "2|2"; "3|1"]
           "2|2" "1|1").
  - vm_compute. lia.
  - discriminate.
  - reflexivity.
  - reflexivity.
Defined.

(** X9: colours beyond 40 states. When the labels have more than 40
    distinct values, the states of ranks 1 and 41 are different states
    with the same colour key: the colormap has 40 entries and the rank is
    taken modulo 40. *)
Theorem colors_repeat_beyond_40 {K : Type}
  (eq_dec : forall x y : K, {x = y} + {x <> y}) (labels : list K) :
  (40 < List.length (reindex_mapping eq_dec labels))%nat ->
  exists k1 k2 c,
    k1 <> k2 /\
    dict_get eq_dec (reindex_mapping eq_dec labels) k1 = Some 1 /\
    dict_get eq_dec (reindex_mapping eq_dec labels) k2 = Some 41 /\
    dict_get eq_dec (color_mapping (reindex_mapping eq_dec labels)) k1 = Some c /\
    dict_get eq_dec (color_mapping (reindex_mapping eq_dec labels)) k2 = Some c.
Proof.
  intros HN.
  pose proof (reindex_mapping_combine eq_dec labels) as Hm. cbv zeta in Hm.
  destruct (reindex_mapping_ranking eq_dec labels) as (Hnd & _ & _ & _).
  set (m := reindex_mapping eq_dec labels) in *.
  set (items := most_common (Counter eq_dec labels)) in *.
  assert (Hkeys : map fst m = map fst items).
  { rewrite Hm. rewrite <- (length_map fst items). apply combine_ranks_fst. }
  assert (Hlen : List.length (map fst items) = List.length m)
    by (rewrite <- Hkeys; apply length_map).
  destruct (map fst items) as [|d ks] eqn:Eks; [simpl in Hlen; lia|].
  rewrite <- Eks in *. rewrite <- Hkeys in Hlen.
  assert (H1 : dict_get eq_dec m (nth 0 (map fst items) d) = Some 1).
  { rewrite Hm at 1. rewrite <- (length_map fst items) at 1.
    rewrite (ranks_dict_nth eq_dec d); [reflexivity | rewrite <- Hkeys; exact Hnd|].
    rewrite <- Hkeys, length_map. lia. }
  assert (H41 : dict_get eq_dec m (nth 40 (map fst items) d) = Some 41).
  { rewrite Hm at 1. rewrite <- (length_map fst items) at 1.
    rewrite (ranks_dict_nth eq_dec d); [reflexivity | rewrite <- Hkeys; exact Hnd|].
    rewrite <- Hkeys, length_map. lia. }
  exists (nth 0 (map fst items) d), (nth 40 (map fst items) d),
    (Position (inject_Z 1 / inject_Z (Z.of_nat (List.length m)))).
  split; [|split; [exact H1|split; [exact H41|]]].
  - intros E. rewrite E in H1. rewrite H1 in H41. discriminate.
  - unfold color_mapping.
    destruct (Z.leb_spec (Z.of_nat (List.length m)) 20) as [H|H]; [lia|].
    rewrite !(dict_get_map eq_dec
                (fun v => Position (inject_Z (v mod 40)
                                    / inject_Z (Z.of_nat (List.length m))))).
    rewrite H1, H41. split; reflexivity.
Qed.

Lemma colors_repeat_beyond_40_witness :
  exists k1 k2 c,
    k1 <> k2 /\
    dict_get Nat.eq_dec (reindex_mapping Nat.eq_dec (seq 0 41)) k1 = Some 1 /\
    dict_get Nat.eq_dec (reindex_mapping Nat.eq_dec (seq 0 41)) k2 = Some 41 /\
    dict_get Nat.eq_dec (color_mapping (reindex_mapping Nat.eq_dec (seq 0 41))) k1
    = Some c /\
    dict_get Nat.eq_dec (color_mapping (reindex_mapping Nat.eq_dec (seq 0 41))) k2
    = Some c.
Proof.
  apply (colors_repeat_beyond_40 Nat.eq_dec (seq 0 41)).
  vm_compute. lia.
Defined.

(** ** Marker size of the 1D view *)

Lemma Qfloor_bounds (a b : Z) :
  0 < b -> b * Qfloor (inject_Z a / inject_Z b) <= a
           < b * (Qfloor (inject_Z a / inject_Z b) + 1).
Proof.
  intros Hb.
  set (x := (inject_Z a / inject_Z b)%Q).
  assert (Hb0 : ~ (inject_Z b == 0)%Q).
  { change 0%Q with (inject_Z 0). rewrite inject_Z_injective. lia. }
  assert (Hbpos : (0 < inject_Z b)%Q).
  { change 0%Q with (inject_Z 0). rewrite <- Zlt_Qlt. exact Hb. }
  assert (Hx : (inject_Z b * x == inject_Z a)%Q).
  { unfold x. field. exact Hb0. }
  pose proof (Qfloor_le x) as Hlo. pose proof (Qlt_floor x) as Hhi.
  split.
  - rewrite Zle_Qle, inject_Z_mult, <- Hx.
    apply Qmult_le_l; assumption.
  - rewrite Zlt_Qlt, inject_Z_mult, <- Hx.
    apply Qmult_lt_l; assumption.
Qed.

(** X10: the marker size of the 1D view. For a table with at least one
    sample it is [max(1, 4 - floor(bins per sample / 500))]: a whole
    number from 1 to 4, 4 exactly below 500 bins per sample (so 3 at 500)
    and 1 exactly from 1500 bins per sample on. *)
Theorem marker_size_steps (n_rows n_samples : nat) :
  n_samples <> 0%nat ->
  exists ms,
    marker_size n_rows n_samples = Some ms /\
    1 <= ms <= 4 /\
    (ms = 4 <-> (n_rows < 500 * n_samples)%nat) /\
    (ms = 1 <-> (1500 * n_samples <= n_rows)%nat).
Proof.
  intros Hs. unfold marker_size.
  destruct n_samples as [|s]; [congruence|].
  set (r := Z.of_nat n_rows). set (k := Z.of_nat (S s)).
  eexists. split; [reflexivity|].
  assert (Hq : (inject_Z r / inject_Z k / 500 == inject_Z r / inject_Z (500 * k))%Q).
  { rewrite inject_Z_mult. field.
    change 0%Q with (inject_Z 0). rewrite inject_Z_injective. unfold k. lia. }
  rewrite Hq.
  pose proof (Qfloor_bounds r (500 * k) ltac:(unfold k; lia)) as Hf.
  set (f := Qfloor (inject_Z r / inject_Z (500 * k))) in *.
  assert (Hr : 0 <= r) by (unfold r; lia).
  assert (Hk : 0 < k) by (unfold k; lia).
  assert (Hf0 : 0 <= f) by nia.
  assert (Hrows : r = Z.of_nat n_rows) by reflexivity.
  assert (Hsamp : k = Z.of_nat (S s)) by reflexivity.
  repeat split; try lia; intros H; nia.
Qed.

Lemma marker_size_steps_witness :
  exists ms,
    marker_size 1000 2 = Some ms /\
    1 <= ms <= 4 /\
    (ms = 4 <-> (1000 < 500 * 2)%nat) /\
    (ms = 1 <-> (1500 * 2 <= 1000)%nat).
Proof.
  apply (marker_size_steps 1000 2). discriminate.
Defined.

(** ** Chromosome names: [normalize_chr] *)

Lemma startswith_chr_app (s : string) : startswith "chr" ("chr" ++ s) = true.
Proof.
  unfold startswith. simpl. destruct s; reflexivity.
Qed.

(** X11: what the check of the chromosome names returns. When it
    accepts a table, the result has the same columns and as many rows,
    every name starts with [chr], a row differs from the row it comes
    from in the name at most (kept, or [chr] put in front), and running
    the check again on the result returns the result unchanged. *)
Theorem normalize_chr_normal_form (bbc bbc' : DataFrame) :
  normalize_chr bbc = Ok bbc' ->
  columns bbc' = columns bbc /\
  Forall2 (fun b b' =>
             (CHR b' = CHR b \/ CHR b' = "chr" ++ CHR b) /\
             startswith "chr" (CHR b') = true /\
             (START b', END b', SAMPLE b', RD b', BAF b')
             = (START b, END b, SAMPLE b, RD b, BAF b) /\
             all_clones b' = all_clones b)
          (rows bbc) (rows bbc') /\
  normalize_chr bbc' = Ok bbc'.
Proof.
  unfold normalize_chr at 1.
  destruct (has_column bbc "#CHR") eqn:Hc; [|discriminate]. simpl.
  rewrite existsb_id_map, forallb_id_map.
  destruct (existsb (startswith "chr") (unique (map CHR (rows bbc)))) eqn:E.
  - destruct (forallb (startswith "chr") (unique (map CHR (rows bbc)))) eqn:F;
      [|discriminate].
    simpl. intros H. injection H as <-.
    assert (Hall : forall b, In b (rows bbc) -> startswith "chr" (CHR b) = true).
    { intros b Hb. rewrite forallb_forall in F. apply F.
      apply unique_In, in_map, Hb. }
    split; [reflexivity|]. split.
    + clear E F Hc. induction (rows bbc) as [|b l IH]; constructor.
      * repeat split; auto. apply Hall. simpl. auto.
      * apply IH. intros b' Hb'. apply Hall. simpl. auto.
    + apply existsb_exists in E as (c & Hc' & _).
      rewrite unique_In in Hc'. apply in_map_iff in Hc' as (b0 & _ & Hb0).
      exact (normalize_chr_prefixed bbc b0 Hc Hb0 Hall).
  - simpl. intros H. injection H as <-. simpl.
    split; [reflexivity|]. split.
    + clear E Hc. induction (rows bbc) as [|b l IH]; constructor; [|exact IH].
      repeat split; auto. apply startswith_chr_app.
    + destruct (rows bbc) as [|b0 l] eqn:Er.
      * unfold normalize_chr.
        change (has_column (mkFrame (columns bbc) (map add_chr_prefix []))
                           "#CHR") with (has_column bbc "#CHR").
        rewrite Hc. reflexivity.
      * apply (normalize_chr_prefixed
                 (mkFrame (columns bbc) (map add_chr_prefix (b0 :: l)))
                 (add_chr_prefix b0) Hc).
        -- simpl. auto.
        -- intros b Hb. simpl in Hb. 
           change (In b (map add_chr_prefix (b0 :: l))) in Hb.
           apply in_map_iff in Hb as (b1 & <- & _).
           apply startswith_chr_app.
Qed.

Lemma normalize_chr_normal_form_witness :
  columns table_bare_names = columns table_bare_names /\
  Forall2 (fun b b' =>
             (CHR b' = CHR b \/ CHR b' = "chr" ++ CHR b) /\
             startswith "chr" (CHR b') = true /\
             (START b', END b', SAMPLE b', RD b', BAF b')
             = (START b, END b, SAMPLE b, RD b, BAF b) /\
             all_clones b' = all_clones b)
          (rows table_bare_names) (map add_chr_prefix (rows table_bare_names)) /\
  normalize_chr (mkFrame (columns table_bare_names)
                         (map add_chr_prefix (rows table_bare_names)))
  = Ok (mkFrame (columns table_bare_names)
                (map add_chr_prefix (rows table_bare_names))).
Proof.
  exact (normalize_chr_normal_form table_bare_names
           (mkFrame (columns table_bare_names)
                    (map add_chr_prefix (rows table_bare_names))) eq_refl).
Defined.

(** ** The chromosome axis: [chr_ends] *)

Lemma fold_max_spec (es : list Z) :
  forall e, In (fold_left Z.max es e) (e :: es) /\
            forall x, In x (e :: es) -> x <= fold_left Z.max es e.
Proof.
  induction es as [|y es IH]; intros e; simpl.
  - split; [auto | intros x [<-|[]]; lia].
  - destruct (IH (Z.max e y)) as [Hin Hle]. split.
    + destruct Hin as [H|H]; [|auto].
      rewrite <- H. destruct (Z.max_spec e y) as [[_ ->]|[_ ->]]; auto.
    + intros x [<-|[<-|Hx]].
      * specialize (Hle (Z.max e y) (or_introl eq_refl)). lia.
      * specialize (Hle (Z.max e y) (or_introl eq_refl)). lia.
      * apply Hle. simpl. auto.
Qed.

Lemma max_END_spec (bbc : DataFrame) (c : string) (b0 : Bin) :
  In b0 (rows bbc) -> CHR b0 = c ->
  (exists b, In b (rows bbc) /\ CHR b = c /\ END b = max_END bbc c) /\
  (forall b, In b (rows bbc) -> CHR b = c -> END b <= max_END bbc c).
Proof.
  intros H0 Hc0. unfold max_END.
  assert (Hin : forall x, In x (map END (filter (fun b => String.eqb (CHR b) c) (rows bbc)))
                          <-> exists b, In b (rows bbc) /\ CHR b = c /\ END b = x).
  { intros x. rewrite in_map_iff. split.
    - intros (b & <- & Hb). apply filter_In in Hb as [Hb He].
      apply String.eqb_eq in He. eauto.
    - intros (b & Hb & He & <-). exists b. split; [reflexivity|].
      apply filter_In. split; [exact Hb | apply String.eqb_eq, He]. }
  destruct (map END (filter (fun b => String.eqb (CHR b) c) (rows bbc)))
    as [|e es] eqn:E.
  - exfalso. apply (proj2 (Hin (END b0))). eauto.
  - destruct (fold_max_spec es e) as [H1 H2]. split.
    + apply Hin. exact H1.
    + intros b Hb Hc. apply H2. apply Hin. eauto.
Qed.

Lemma dict_get_graph {K V : Type}
  (eq_dec : forall x y : K, {x = y} + {x <> y}) (f : K -> V) (ks : list K)
  (k : K) :
  In k ks -> dict_get eq_dec (map (fun c => (c, f c)) ks) k = Some (f k).
Proof.
  induction ks as [|k0 ks IH]; simpl; [tauto|].
  intros H. destruct (eq_dec k k0) as [->|Hne]; [reflexivity|].
  apply IH. destruct H; congruence.
Qed.

Lemma chrlengths_max_END (bbc : DataFrame) :
  has_column bbc "END" = true ->
  chrlengths bbc
  = Ok (map (fun c => (c, max_END bbc c))
            (group_keys string_dec String.leb (map CHR (rows bbc)))).
Proof.
  intros HE. unfold chrlengths. rewrite HE.
  apply mapM_Ok_map. intros c Hc. rewrite group_keys_In in Hc.
  apply in_map_iff in Hc as (b & Hb & Hin).
  unfold max_END.
  destruct (map END (filter (fun b1 => String.eqb (CHR b1) c) (rows bbc)))
    as [|e es] eqn:E; [|reflexivity].
  exfalso.
  assert (H : In (END b) (map END (filter (fun b1 => String.eqb (CHR b1) c)
                                          (rows bbc)))).
  { apply in_map, filter_In. split; [exact Hin | apply String.eqb_eq, Hb]. }
  rewrite E in H. destruct H.
Qed.

Lemma chr_ends_loop_sums (lengths : list (string * Z)) (L : nat -> Z) :
  forall (n s : nat) (chr_ends : list Z) (last : Z),
    (forall i, (s <= i < s + n)%nat ->
               dict_get string_dec lengths ("chr" ++ py_str (i + 1)) = Some (L i)) ->
    chr_ends_loop lengths (seq s n) chr_ends last
    = Ok (chr_ends ++ running_sums L s n last)%list.
Proof.
  induction n as [|n IH]; intros s chr_ends last H.
  - simpl. rewrite app_nil_r. reflexivity.
  - cbn [seq chr_ends_loop running_sums]. unfold dict_lookup.
    rewrite (H s) by lia. cbn [bind].
    rewrite IH by (intros i Hi; apply H; lia).
    rewrite <- app_assoc. reflexivity.
Qed.

Lemma running_sums_length (L : nat -> Z) :
  forall n s last, List.length (running_sums L s n last) = n.
Proof.
  induction n as [|n IH]; intros s last; simpl; [reflexivity|].
  rewrite IH. reflexivity.
Qed.

Lemma running_sums_step (L : nat -> Z) :
  forall n s last i,
    (i < n)%nat ->
    nth i (running_sums L s n last) 0
    = nth i (last :: running_sums L s n last) 0 + L (s + i)%nat.
Proof.
  induction n as [|n IH]; intros s last i Hi; [lia|].
  destruct i as [|i].
  - simpl. rewrite Nat.add_0_r. reflexivity.
  - cbn [running_sums nth]. rewrite IH by lia.
    replace (S s + i)%nat with (s + S i)%nat by lia. reflexivity.
Qed.

(** The axis of a table with every chromosome. *)
Lemma chromosome_axis_sums (bbc : DataFrame) :
  has_column bbc "END" = true ->
  (forall k, (1 <= k <= 22)%nat ->
             exists b, In b (rows bbc) /\ CHR b = "chr" ++ py_str k) ->
  chromosome_axis bbc
  = Ok (0 :: running_sums (fun i => max_END bbc ("chr" ++ py_str (i + 1))) 0 22 0).
Proof.
  intros HE Hall. unfold chromosome_axis.
  rewrite (chrlengths_max_END bbc HE). cbn [bind].
  rewrite (chr_ends_loop_sums _ (fun i => max_END bbc ("chr" ++ py_str (i + 1))));
    [reflexivity|].
  intros i Hi.
  destruct (Hall (i + 1)%nat ltac:(lia)) as (b & Hb & Hc).
  apply dict_get_graph. apply group_keys_In. rewrite <- Hc. apply in_map, Hb.
Qed.

(** X12: the chromosome axis. For a table with an [END] column and at
    least one bin on each of chr1 .. chr22, the axis is computed: 23
    offsets starting at 0, each the one before plus the largest [END]
    among the bins of the next chromosome, taken in the order chr1, chr2,
    ..., chr22. Bins on other chromosomes do not enter. *)
Theorem chromosome_axis_offsets (bbc : DataFrame) :
  has_column bbc "END" = true ->
  (forall k, (1 <= k <= 22)%nat ->
             exists b, In b (rows bbc) /\ CHR b = "chr" ++ py_str k) ->
  exists chr_ends,
    chromosome_axis bbc = Ok chr_ends /\
    List.length chr_ends = 23%nat /\
    nth 0 chr_ends 0 = 0 /\
    forall k, (1 <= k <= 22)%nat ->
      exists b,
        In b (rows bbc) /\ CHR b = "chr" ++ py_str k /\
        (forall b', In b' (rows bbc) -> CHR b' = "chr" ++ py_str k ->
                    END b' <= END b) /\
        nth k chr_ends 0 = nth (k - 1) chr_ends 0 + END b.
Proof.
  intros HE Hall. eexists. split; [apply chromosome_axis_sums; assumption|].
  split; [cbn [List.length]; rewrite running_sums_length; reflexivity|].
  split; [reflexivity|].
  intros k Hk. destruct (Hall k Hk) as (b0 & Hb0 & Hc0).
  destruct (max_END_spec bbc _ b0 Hb0 Hc0) as ((b & Hb & Hc & Hmax) & Hle).
  exists b. split; [exact Hb|]. split; [exact Hc|]. split.
  - intros b' Hb' Hc'. rewrite Hmax. apply Hle; assumption.
  - destruct k as [|k]; [lia|].
    replace (S k - 1)%nat with k by lia.
    cbn [nth]. rewrite running_sums_step by lia.
    rewrite Hmax. cbn [Nat.add]. replace (k + 1)%nat with (S k) by lia.
    reflexivity.
Qed.

Lemma all_chromosomes_check (l : list Bin) :
  forallb (fun k => existsb (fun b => String.eqb (CHR b) ("chr" ++ py_str k)) l)
          (seq 1 22) = true ->
  forall k, (1 <= k <= 22)%nat ->
            exists b, In b l /\ CHR b = "chr" ++ py_str k.
Proof.
  intros H k Hk. rewrite forallb_forall in H.
  specialize (H k ltac:(apply in_seq; lia)).
  apply existsb_exists in H as (b & Hb & He).
  apply String.eqb_eq in He. eauto.
Qed.

Lemma chromosome_axis_offsets_witness :
  exists chr_ends,
    chromosome_axis table_prevalence = Ok chr_ends /\
    List.length chr_ends = 23%nat /\
    nth 0 chr_ends 0 = 0 /\
    forall k, (1 <= k <= 22)%nat ->
      exists b,
        In b (rows table_prevalence) /\ CHR b = "chr" ++ py_str k /\
        (forall b', In b' (rows table_prevalence) ->
                    CHR b' = "chr" ++ py_str k -> END b' <= END b) /\
        nth k chr_ends 0 = nth (k - 1) chr_ends 0 + END b.
Proof.
  apply (chromosome_axis_offsets table_prevalence).
  - reflexivity.
  - apply all_chromosomes_check. vm_compute. reflexivity.
Defined.

(** ** [compute_gamma] and the column [BAF] *)







(** ** Failures of [compute_gamma] *)

Lemma cn2total_raises (s : string) (e : exn) :
  cn2total s = Raise e ->
  e = AssertionError \/ e = ValueError "invalid literal for int() with base 10".
Proof.
  unfold cn2total.
  destruct (split "|" s) as [|t0 [|t1 [|t2 l]]]; simpl;
    try (intros H; injection H as <-; auto).
  destruct (py_int t0) as [a|e0] eqn:E0; simpl.
  - destruct (py_int t1) as [b|e1] eqn:E1; simpl; [discriminate|].
    intros H. injection H as <-. right. eapply py_int_error; eauto.
  - intros H. injection H as <-. right. eapply py_int_error; eauto.
Qed.

Lemma mapM_raises_among {A B : Type} (P : exn -> Prop) (f : A -> result B)
  (l : list A) (a : A) :
  (forall x e, In x l -> f x = Raise e -> P e) ->
  In a l -> is_ok (f a) = false ->
  exists e, mapM f l = Raise e /\ P e.
Proof.
  induction l as [|x l IH]; simpl; [tauto|].
  intros Hf Hin Ha. destruct (f x) as [b|e] eqn:E; simpl.
  - destruct Hin as [->|Hin]; [rewrite E in Ha; discriminate|].
    destruct (IH (fun y e Hy => Hf y e (or_intror Hy)) Hin Ha) as (e & -> & He).
    exists e. split; [reflexivity | exact He].
  - exists e. split; [reflexivity|]. apply (Hf x e); auto.
Qed.

(** X14: a state token that [cn2total] does not accept, in any row and
    for any clone (the normal one included), makes [compute_gamma] raise
    the exception of [cn2total], whether or not the row would be used for
    calibration. *)
Theorem compute_gamma_rejects_bad_token (n : nat) (bbc : DataFrame)
  (balanced_options : list string) (b : Bin) (cu : string * Q) :
  (1 <= n)%nat -> rectangular n bbc ->
  In b (rows bbc) -> In cu (all_clones b) ->
  is_ok (cn2total (fst cu)) = false ->
  exists e,
    compute_gamma balanced_options bbc = Raise e /\
    (e = AssertionError \/
     e = ValueError "invalid literal for int() with base 10").
Proof.
  intros Hn [Hcols Hrows] Hb Hcu Hbad.
  assert (Hlen : List.length (clones b) = n)
    by (rewrite Forall_forall in Hrows; auto).
  destruct (In_nth _ _ (EmptyString, 0%Q) Hcu) as (i & Hi & Hnth).
  simpl in Hi. rewrite Hlen in Hi.
  set (P := fun e => e = AssertionError \/
                     e = ValueError "invalid literal for int() with base 10").
  assert (Hstep : exists e,
             mapM (fun i =>
                     cns <- iloc_cn bbc i ;;
                     totals <- mapM cn2total cns ;;
                     us <- iloc_u bbc i ;;
                     Ok (zip_with (fun t u => inject_Z t * u)%Q totals us))
                  (seq 0 (n + 1)) = Raise e /\ P e).
  { apply (mapM_raises_among P _ _ i).
    - intros j e Hj. apply in_seq in Hj.
      rewrite (iloc_cn_rect n bbc Hn Hcols Hrows j) by lia. cbn [bind].
      destruct (mapM cn2total _) as [totals|e'] eqn:E; cbn [bind].
      + rewrite (iloc_u_rect n bbc Hn Hcols Hrows j) by lia. discriminate.
      + intros H. injection H as <-.
        assert (Hall : forall l e0, mapM cn2total l = Raise e0 -> P e0).
        { induction l as [|s l IH]; simpl; intros e0; [discriminate|].
          destruct (cn2total s) as [t|e1] eqn:E1; simpl.
          - destruct (mapM cn2total l) as [ts|e2]; simpl; [discriminate|].
            intros H. injection H as <-. apply IH. reflexivity.
          - intros H. injection H as <-. apply (cn2total_raises s), E1. }
        apply (Hall _ _ E).
    - apply in_seq. lia.
    - rewrite (iloc_cn_rect n bbc Hn Hcols Hrows i) by lia. cbn [bind].
      assert (Hraise : is_ok (mapM cn2total
                                (map (fun b1 => fst (clone_at b1 i)) (rows bbc)))
                       = false).
      { apply (mapM_Raise cn2total _ (fst cu)); [|exact Hbad].
        apply in_map_iff. exists b. split; [|exact Hb].
        unfold clone_at. rewrite Hnth. reflexivity. }
      destruct (mapM cn2total _); [discriminate | reflexivity]. }
  destruct Hstep as (e & He & HP). exists e. split; [|exact HP].
  unfold compute_gamma. rewrite (n_clones_header n bbc Hn Hcols).
  unfold fractional_cn.
  replace (Z.to_nat (Z.of_nat n + 1)) with (n + 1)%nat by lia.
  rewrite He. reflexivity.
Qed.

Lemma compute_gamma_rejects_bad_token_witness :
  exists e,
    compute_gamma balanced_candidates
      (mkFrame (bbc_header 1)
               [bin_1clone "chr1" "2|2" 1; bin_1clone "chr1" "2" 1]) = Raise e /\
    (e = AssertionError \/
     e = ValueError "invalid literal for int() with base 10").
Proof.
  apply (compute_gamma_rejects_bad_token 1
           (mkFrame (bbc_header 1)
                    [bin_1clone "chr1" "2|2" 1; bin_1clone "chr1" "2" 1])
           balanced_candidates (bin_1clone "chr1" "2" 1) ("2", 1 # 2)%Q).
  - lia.
  - split; [reflexivity | repeat constructor].
  - simpl. auto.
  - simpl. auto.
  - reflexivity.
Defined.

(** X15: on a table without rows (in the expected layout, with at least
    one tumor clone) [compute_gamma] raises [KeyError]: it reads the
    proportions of the clones from the row labelled 0. *)
Theorem compute_gamma_empty_table (n : nat) (bbc : DataFrame)
  (balanced_options : list string) :
  (1 <= n)%nat -> columns bbc = bbc_header n -> rows bbc = [] ->
  compute_gamma balanced_options bbc = Raise (KeyError "0").
Proof.
  intros Hn Hcols Hempty.
  assert (Hrows : Forall (fun b => List.length (clones b) = n) (rows bbc))
    by (rewrite Hempty; constructor).
  assert (Htok : tokens_ok bbc)
    by (intros b Hb; rewrite Hempty in Hb; destruct Hb).
  unfold compute_gamma. rewrite (n_clones_header n bbc Hn Hcols).
  rewrite (fractional_cn_rect n bbc Hn Hcols Hrows Htok). cbn [bind].
  rewrite Nat2Z.id. destruct n as [|n]; [lia|].
  cbn [seq mapM]. unfold cell at 1.
  rewrite has_column_In by (rewrite Hcols; apply header_has_u; lia).
  rewrite Hempty. reflexivity.
Qed.

Lemma compute_gamma_empty_table_witness :
  compute_gamma balanced_candidates (mkFrame (bbc_header 2) [])
  = Raise (KeyError "0").
Proof.
  apply (compute_gamma_empty_table 2 (mkFrame (bbc_header 2) [])
           balanced_candidates); [lia | reflexivity | reflexivity].
Defined.

(** ** [compute_gamma] and the unit of [RD] *)

Lemma filter_map_invariant {A : Type} (f : A -> A) (p : A -> bool) (l : list A) :
  (forall a, p (f a) = p a) -> filter p (map f l) = map f (filter p l).
Proof.
  intros H. induction l as [|a l IH]; simpl; [reflexivity|].
  rewrite H. destruct (p a); simpl; rewrite IH; reflexivity.
Qed.

Lemma usable_set_RD (c : string) (b : Bin) (k : Q) :
  (0 < k)%Q -> usable c (set_RD b (k * RD b)) = usable c b.
Proof.
  intros Hk. unfold usable. cbn [clones RD set_RD]. f_equal. f_equal.
  destruct (Qle_bool (RD b) 0) eqn:E.
  - apply Qle_bool_iff. apply Qle_bool_iff in E.
    setoid_replace 0%Q with (k * 0)%Q by ring.
    apply Qmult_le_l; assumption.
  - destruct (Qle_bool (k * RD b) 0) eqn:E'; [|reflexivity].
    apply Qle_bool_iff in E'.
    assert (H : (RD b <= 0)%Q).
    { apply (Qmult_le_l _ _ k Hk). setoid_replace (k * 0)%Q with 0%Q by ring.
      exact E'. }
    apply Qle_bool_iff in H. congruence.
Qed.

Lemma calibration_rows_set_RD (balanced_options : list string)
  (bbc : DataFrame) (k : Q) :
  (0 < k)%Q ->
  calibration_rows balanced_options
    (mkFrame (columns bbc) (map (fun b => set_RD b (k * RD b)) (rows bbc)))
  = map (fun b => set_RD b (k * RD b)) (calibration_rows balanced_options bbc).
Proof.
  intros Hk.
  set (sc := fun b => set_RD b (k * RD b)).
  set (bbc' := mkFrame (columns bbc) (map sc (rows bbc))).
  assert (Hdom : dominant_clone bbc' = dominant_clone bbc).
  { unfold dominant_clone, bbc'. cbn [rows].
    destruct (rows bbc) as [|b0 rest]; reflexivity. }
  assert (Hcount : forall c, dominant_count bbc' c = dominant_count bbc c).
  { intros c. unfold dominant_count. rewrite Hdom. unfold bbc'. cbn [rows].
    rewrite map_map. reflexivity. }
  assert (Hfirst : forall bo, first_choice bo bbc' = first_choice bo bbc).
  { intros [|c l]; [reflexivity|]. unfold first_choice.
    apply max_by_from_ext. exact Hcount. }
  unfold calibration_rows, second_choice. rewrite !Hfirst.
  unfold bbc'. cbn [rows].
  rewrite !filter_map_invariant by (intros; apply usable_set_RD; exact Hk).
  destruct (filter (usable (first_choice balanced_options bbc)) (rows bbc));
    reflexivity.
Qed.

(** X16: [compute_gamma] follows the unit of [RD]. When every read-depth
    ratio of a table is multiplied by the same [k > 0], the same bins are
    used for calibration and gamma is divided by [k], so the value
    [RD * gamma] drawn for a bin is the same number ([nan] in both tables
    when no bin can be used for calibration). *)
Theorem gamma_follows_RD_unit (n : nat) (bbc : DataFrame)
  (balanced_options : list string) (k : Q) :
  (1 <= n)%nat -> rectangular n bbc -> tokens_ok bbc -> rows bbc <> [] ->
  Permutation balanced_candidates balanced_options ->
  (0 < k)%Q ->
  exists g g',
    compute_gamma balanced_options bbc = Ok (Z.of_nat n, g) /\
    compute_gamma balanced_options
      (mkFrame (columns bbc) (map (fun b => set_RD b (k * RD b)) (rows bbc)))
    = Ok (Z.of_nat n, g') /\
    forall b, np_same (np_scale (k * RD b) g') (np_scale (RD b) g).
Proof.
  intros Hn [Hcols Hrows] Htok Hne Hperm Hk.
  set (sc := fun b => set_RD b (k * RD b)).
  set (bbc' := mkFrame (columns bbc) (map sc (rows bbc))).
  assert (Hbo : (2 <= List.length balanced_options)%nat)
    by (rewrite <- (Permutation_length Hperm); simpl; lia).
  assert (Hex : exists b0 rest, rows bbc = b0 :: rest)
    by (destruct (rows bbc) as [|b0 rest]; [congruence | eauto]).
  destruct Hex as (b0 & rest & Hfirst).
  assert (Hrows' : Forall (fun b => List.length (clones b) = n) (rows bbc')).
  { unfold bbc'. cbn [rows]. apply Forall_forall.
    intros b Hb. apply in_map_iff in Hb as (b1 & <- & Hb1).
    rewrite Forall_forall in Hrows. apply (Hrows b1 Hb1). }
  assert (Htok' : tokens_ok bbc').
  { intros b Hb. unfold bbc' in Hb. cbn [rows] in Hb.
    apply in_map_iff in Hb as (b1 & <- & Hb1). apply (Htok b1 Hb1). }
  assert (Hfirst' : rows bbc' = sc b0 :: map sc rest)
    by (unfold bbc'; cbn [rows]; rewrite Hfirst; reflexivity).
  eexists _, _.
  split; [exact (compute_gamma_rows n bbc Hn Hcols Hrows Htok b0 rest Hfirst
                   balanced_options Hbo)|].
  split; [exact (compute_gamma_rows n bbc' Hn Hcols Hrows' Htok' (sc b0)
                   (map sc rest) Hfirst' balanced_options Hbo)|].
  intros b. unfold bbc', sc. rewrite (calibration_rows_set_RD _ _ _ Hk).
  rewrite map_map.
  set (C := calibration_rows balanced_options bbc).
  destruct C as [|c C'] eqn:EC; [exact I|].
  rewrite <- EC.
  assert (HC : C <> []) by (rewrite EC; discriminate).
  rewrite !np_mean_nonempty
    by (try exact HC; rewrite EC; discriminate).
  cbn [np_scale np_same]. rewrite !length_map.
  change (fun x : Bin => row_fcn n (set_RD x (k * RD x)) / RD (set_RD x (k * RD x)))%Q
    with (fun x : Bin => row_fcn n x / (k * RD x))%Q.
  assert (Hk0 : ~ (k == 0)%Q) by (intros E; rewrite E in Hk; discriminate).
  rewrite (Qsum_map_ext (fun x => row_fcn n x / (k * RD x))%Q
             (fun x => / k * (row_fcn n x / RD x))%Q).
  - rewrite Qsum_map_scale. field. split; [|exact Hk0].
    apply inject_Z_length_nonzero. exact HC.
  - intros a _. unfold Qdiv. rewrite Qinv_mult_distr. ring.
Qed.

Lemma gamma_follows_RD_unit_witness :
  exists g g',
    compute_gamma balanced_candidates table_balanced_1_3
    = Ok (Z.of_nat 1, g) /\
    compute_gamma balanced_candidates
      (mkFrame (columns table_balanced_1_3)
               (map (fun b => set_RD b (2 * RD b)) (rows table_balanced_1_3)))
    = Ok (Z.of_nat 1, g') /\
    forall b, np_same (np_scale (2 * RD b) g') (np_scale (RD b) g).
Proof.
  apply (gamma_follows_RD_unit 1 table_balanced_1_3 balanced_candidates 2).
  - lia.
  - split; [reflexivity | repeat constructor].
  - apply tokens_ok_check. vm_compute. reflexivity.
  - discriminate.
  - apply Permutation_refl.
  - reflexivity.
Defined.

(** ** The 2D view on a table in the expected layout *)













Lemma rectangular_check (n : nat) (bbc : DataFrame) :
  columns bbc = bbc_header n ->
  forallb (fun b => Nat.eqb (List.length (clones b)) n) (rows bbc) = true ->
  rectangular n bbc.
Proof.
  intros Hc H. split; [exact Hc|]. apply Forall_forall. intros b Hb.
  rewrite forallb_forall in H. apply Nat.eqb_eq, H, Hb.
Qed.



(** ** Tables of more than four tumor clones *)

Lemma py_str_zero (i : nat) : py_str i = "0" -> i = 0%nat.
Proof.
  intros H. pose proof (py_int_py_str i) as Hi. rewrite H in Hi.
  assert (H0 : py_int "0" = Ok 0) by reflexivity.
  rewrite H0 in Hi. injection Hi as Hi. lia.
Qed.

Lemma header_no_clone0 (n : nat) : ~ In "cn_clone0" (bbc_header n).
Proof.
  unfold bbc_header. rewrite in_app_iff. intros [H|H].
  - simpl in H. repeat (destruct H as [H|H]; [discriminate|]). exact H.
  - unfold clone_columns in H. apply in_flat_map in H as (i & Hi & H).
    apply in_seq in Hi. destruct H as [H|[H|[]]].
    + simpl in H. injection H as H. apply py_str_zero in H. lia.
    + simpl in H. discriminate.
Qed.

Lemma count_clones_many (n : nat) (bbc : DataFrame) :
  (5 <= n)%nat -> columns bbc = bbc_header n -> count_clones bbc = Ok 4%nat.
Proof.
  intros Hn Hc. unfold count_clones. cbn [seq filter].
  assert (H0 : has_column bbc ("cn_clone" ++ py_str 0) = false).
  { unfold has_column. rewrite Hc. apply not_true_is_false. intros H.
    apply existsb_exists in H as (x & Hx & He). apply String.eqb_eq in He.
    subst x. exact (header_no_clone0 n Hx). }
  rewrite H0.
  rewrite !has_column_In by (rewrite Hc; apply header_has_cn; lia).
  reflexivity.
Qed.

(** X18: at most four tumor clones. On a table in the expected layout
    with five or more tumor clones (tokens that parse, at least one row)
    [plot_clusters] raises [AssertionError], whatever mapping it is
    given: the clone count read from the column names stops at 4, the one
    [compute_gamma] derives from the number of columns does not, and the
    two are asserted equal. *)
Theorem more_than_four_clones_rejected (n : nat) (bbc : DataFrame)
  (balanced_options : list string) (mapping : list (pykey * Z)) :
  (5 <= n)%nat -> rectangular n bbc -> tokens_ok bbc -> rows bbc <> [] ->
  Permutation balanced_candidates balanced_options ->
  count_clones bbc = Ok 4%nat /\
  (exists g, compute_gamma balanced_options bbc = Ok (Z.of_nat n, g)) /\
  plot_clusters balanced_options bbc mapping = Raise AssertionError.
Proof.
  intros Hn Hrect Htok Hne Hperm.
  assert (Hbo : (2 <= List.length balanced_options)%nat)
    by (rewrite <- (Permutation_length Hperm); simpl; lia).
  assert (Hgamma : forall D b0 rest,
             rectangular n D -> tokens_ok D -> rows D = b0 :: rest ->
             exists g, compute_gamma balanced_options D = Ok (Z.of_nat n, g)).
  { intros D b0 rest [Hc Hr] Ht Hf. eexists.
    exact (compute_gamma_rows n D ltac:(lia) Hc Hr Ht b0 rest Hf
             balanced_options Hbo). }
  split; [apply (count_clones_many n); [exact Hn | apply Hrect]|].
  split.
  { destruct (rows bbc) as [|b0 rest] eqn:E; [congruence|].
    exact (Hgamma bbc b0 rest Hrect Htok E). }
  unfold plot_clusters.
  rewrite has_column_In
    by (rewrite (proj1 Hrect); unfold bbc_header; simpl; tauto).
  cbv zeta.
  destruct (rows bbc) as [|b0 rest] eqn:Hfirst; [congruence|].
  cbn [map unique mapM].
  set (sample := SAMPLE b0).
  assert (Hsample : plot_sample balanced_options bbc (color_mapping mapping) sample
                    = Raise AssertionError).
  { unfold plot_sample.
    set (bbc_ := sample_rows bbc sample).
    pose proof (sample_rows_rectangular n bbc sample Hrect) as Hrect_.
    fold bbc_ in Hrect_.
    assert (Htok_ : tokens_ok bbc_).
    { intros b Hb. apply Htok. apply filter_In in Hb as [Hb _]. exact Hb. }
    assert (Hex : exists rest_, rows bbc_ = b0 :: rest_).
    { unfold bbc_, sample_rows. cbn [rows]. rewrite Hfirst. cbn [filter].
      unfold sample. rewrite String.eqb_refl. eauto. }
    destruct Hex as (rest_ & Hfirst_).
    rewrite (count_clones_many n bbc_ Hn (proj1 Hrect_)). cbn [bind].
    assert (Hprops : exists props, sample_props bbc_ 4 = Ok props).
    { unfold sample_props.
      rewrite (mapM_Ok_map _ (fun i => snd (clone_at b0 i))); [cbn [bind]; eauto|].
      intros i Hi. apply in_seq in Hi.
      rewrite (proj1 Hrect_), header_length.
      destruct (Nat.ltb_spec (2 * i + 12) (13 + 2 * n)); [|lia].
      rewrite Hfirst_. apply (u_of_clone_at 1%nat (le_n 1)).
      destruct Hrect_ as [_ Hr]. rewrite Forall_forall in Hr.
      rewrite (Hr b0) by (rewrite Hfirst_; simpl; auto). lia. }
    destruct Hprops as (props & ->). cbn [bind].
    destruct (Hgamma bbc_ b0 rest_ Hrect_ Htok_ Hfirst_) as (g & ->).
    cbn [bind].
    destruct (Z.eqb_spec (Z.of_nat n) (Z.of_nat 4)) as [E|_]; [lia|].
    reflexivity. }
  fold sample. rewrite Hsample. reflexivity.
Qed.

Lemma more_than_four_clones_rejected_witness :
  count_clones
    (mkFrame (bbc_header 5)
       [mkBin "chr1" 0 100 "S" 1 (1 # 2) "1|1" (1 # 6)
              [("2|2", 1 # 6); ("2|2", 1 # 6); ("2|2", 1 # 6); ("2|2", 1 # 6);
               ("2|2", 1 # 6)]])
  = Ok 4%nat /\
  (exists g,
      compute_gamma balanced_candidates
        (mkFrame (bbc_header 5)
           [mkBin "chr1" 0 100 "S" 1 (1 # 2) "1|1" (1 # 6)
                  [("2|2", 1 # 6); ("2|2", 1 # 6); ("2|2", 1 # 6); ("2|2", 1 # 6);
                   ("2|2", 1 # 6)]])
      = Ok (Z.of_nat 5, g)) /\
  plot_clusters balanced_candidates
    (mkFrame (bbc_header 5)
       [mkBin "chr1" 0 100 "S" 1 (1 # 2) "1|1" (1 # 6)
              [("2|2", 1 # 6); ("2|2", 1 # 6); ("2|2", 1 # 6); ("2|2", 1 # 6);
               ("2|2", 1 # 6)]])
    []
  = Raise AssertionError.
Proof.
  apply (more_than_four_clones_rejected 5 _ balanced_candidates []).
  - lia.
  - apply rectangular_check; reflexivity.
  - apply tokens_ok_check. vm_compute. reflexivity.
  - discriminate.
  - apply Permutation_refl.
Defined.

(** ** Ranks of the pipeline's mapping *)

Lemma sorted_keys_ranks {K : Type}
  (eq_dec : forall x y : K, {x = y} + {x <> y}) (R : K -> K -> Prop)
  (ks : list K) :
  StronglySorted R ks ->
  forall (j r1 r2 : Z) (k1 k2 : K),
    dict_get eq_dec (combine ks (ranks_from j (List.length ks))) k1 = Some r1 ->
    dict_get eq_dec (combine ks (ranks_from j (List.length ks))) k2 = Some r2 ->
    r1 < r2 -> R k1 k2.
Proof.
  induction 1 as [|k0 ks Hs IH Hall]; intros j r1 r2 k1 k2;
    cbn [List.length ranks_from combine dict_get]; [discriminate|].
  destruct (eq_dec k1 k0) as [->|H1], (eq_dec k2 k0) as [->|H2].
  - intros E1 E2. injection E1 as <-. injection E2 as <-. lia.
  - intros E1 E2 _. rewrite Forall_forall in Hall. apply Hall.
    apply (dict_get_ranks_Some eq_dec) in E2. tauto.
  - intros E1 E2 Hlt. injection E2 as <-.
    apply (dict_get_ranks_Some eq_dec) in E1. lia.
  - apply IH.
Qed.

(** X19: the ranks of the pipeline's mapping follow the order of the
    keys. For a table in the expected layout with one to four tumor
    clones, the mapping [generate_1D2D_plots] builds gives every state
    combination of the table a rank from 1 to the number of distinct
    combinations, and one combination has a smaller rank than another
    exactly when its key is the smaller one in the order of [groupby]; in
    how many bins a combination occurs plays no part. *)
Theorem pipeline_ranks_follow_keys (n : nat) (bbc : DataFrame) :
  (1 <= n <= 4)%nat -> rectangular n bbc ->
  exists mapping,
    state_mapping bbc = Ok mapping /\
    (forall b, In b (rows bbc) ->
               exists r, dict_get pykey_eq_dec mapping (state_key b) = Some r /\
                         1 <= r <= Z.of_nat (List.length mapping)) /\
    forall k1 k2 r1 r2,
      dict_get pykey_eq_dec mapping k1 = Some r1 ->
      dict_get pykey_eq_dec mapping k2 = Some r2 ->
      (r1 < r2 <-> key_leb k1 k2 = true /\ k1 <> k2).
Proof.
  intros Hn Hrect.
  set (keys := group_keys pykey_eq_dec key_leb (map state_key (rows bbc))).
  pose proof (group_keys_NoDup pykey_eq_dec key_leb key_leb_total
                key_leb_antisym key_leb_trans (map state_key (rows bbc))) as Hnd.
  pose proof (group_keys_sorted pykey_eq_dec key_leb key_leb_total
                key_leb_antisym key_leb_trans (map state_key (rows bbc))) as Hs.
  fold keys in Hnd, Hs.
  exists (combine keys (ranks_from 1 (List.length keys))).
  assert (Hlen : List.length (combine keys (ranks_from 1 (List.length keys)))
                 = List.length keys).
  { rewrite <- (length_map fst), combine_ranks_fst. reflexivity. }
  split; [|split].
  - rewrite (state_mapping_rectangular n bbc Hn Hrect). fold keys.
    rewrite (reindex_mapping_distinct pykey_eq_dec keys Hnd). reflexivity.
  - intros b Hb.
    destruct (dict_get_ranks_In pykey_eq_dec keys (state_key b) 1) as (r & Hr).
    { apply group_keys_In, in_map, Hb. }
    exists r. split; [exact Hr|]. rewrite Hlen.
    apply ranks_dict_bound in Hr. lia.
  - intros k1 k2 r1 r2 H1 H2. split.
    + intros Hlt.
      exact (sorted_keys_ranks pykey_eq_dec _ keys Hs 1 r1 r2 k1 k2 H1 H2 Hlt).
    + intros [Hle Hne].
      destruct (Z.lt_trichotomy r1 r2) as [Hlt|[Heq|Hgt]]; [exact Hlt| |].
      * exfalso. apply Hne. subst r2.
        exact (dict_get_ranks_inj pykey_eq_dec keys k1 k2 1 r1 H1 H2).
      * exfalso. apply Hne.
        destruct (sorted_keys_ranks pykey_eq_dec _ keys Hs 1 r2 r1 k2 k1 H2 H1
                    ltac:(lia)) as [Hle' _].
        apply key_leb_antisym; assumption.
Qed.

Lemma pipeline_ranks_follow_keys_witness :
  exists mapping,
    state_mapping table_prevalence = Ok mapping /\
    (forall b, In b (rows table_prevalence) ->
               exists r, dict_get pykey_eq_dec mapping (state_key b) = Some r /\
                         1 <= r <= Z.of_nat (List.length mapping)) /\
    forall k1 k2 r1 r2,
      dict_get pykey_eq_dec mapping k1 = Some r1 ->
      dict_get pykey_eq_dec mapping k2 = Some r2 ->
      (r1 < r2 <-> key_leb k1 k2 = true /\ k1 <> k2).
Proof.
  apply (pipeline_ranks_follow_keys 1 table_prevalence).
  - lia.
  - apply rectangular_check; [reflexivity | vm_compute; reflexivity].
Defined.

(** ** The 1D view: chromosome names *)

Lemma mirror_rows_In (flips : nat -> bool) (l : list Bin) (b : Bin) (i : nat) :
  In b l -> exists x, In (set_BAF b x) (mirror_rows flips i l).
Proof.
  revert i. induction l as [|b1 l IH]; intros i; [intros []|].
  intros [->|H]; cbn [mirror_rows].
  - destruct (flips i).
    + eexists. left. reflexivity.
    + exists (BAF b). left. destruct b; reflexivity.
  - destruct (IH (S i) H) as (x & Hx). exists x. right. exact Hx.
Qed.

Lemma mirror_rows_head (flips : nat -> bool) (b0 : Bin) (rest : list Bin) :
  exists b0' rest',
    mirror_rows flips 0 (b0 :: rest) = b0' :: rest' /\ SAMPLE b0' = SAMPLE b0.
Proof.
  cbn [mirror_rows]. destruct (flips 0%nat); eexists _, _; split; reflexivity.
Qed.

Lemma genome_sample_view_bad_name (alt_chr : Bin -> string)
  (balanced_options : list string) (big_bbc : DataFrame)
  (mapping : list (pykey * colorpos)) (chr_ends : list Z)
  (fcn_ylim baf_ylim : option (list (option Q))) (sample : string) (b : Bin) :
  In b (rows big_bbc) -> SAMPLE b = sample ->
  is_ok (py_int (string_drop 3 (CHR b))) = false ->
  is_ok (genome_sample_view alt_chr balanced_options big_bbc mapping chr_ends
           fcn_ylim baf_ylim None sample) = false.
Proof.
  intros Hb Hs Hbad. unfold genome_sample_view.
  set (bbc_ := sample_rows big_bbc sample).
  destruct (has_column bbc_ "#CHR"); [|reflexivity]. cbn [bind].
  destruct (count_clones bbc_) as [n_clones|]; [|reflexivity]. cbn [bind].
  destruct (sample_props bbc_ n_clones) as [props|]; [|reflexivity]. cbn [bind].
  destruct (compute_gamma balanced_options bbc_) as [[n2 gamma]|]; [|reflexivity].
  cbn [bind].
  destruct (py_assert _); [|reflexivity]. cbn [bind].
  destruct (axis_range bbc_ "RD" _ _); [|reflexivity]. cbn [bind].
  destruct (axis_range bbc_ "BAF" _ _); [|reflexivity]. cbn [bind].
  assert (Ht : is_ok (mapM (chromosome_track alt_chr bbc_ n_clones props gamma
                              mapping chr_ends)
                           (group_keys string_dec String.leb
                                       (map CHR (rows bbc_)))) = false).
  { apply (mapM_Raise _ _ (CHR b)).
    - apply group_keys_In, in_map. apply filter_In.
      split; [exact Hb | apply String.eqb_eq, Hs].
    - unfold chromosome_track, chr_start.
      destruct (py_int (string_drop 3 (CHR b))); [discriminate | reflexivity]. }
  destruct (mapM _ _); [discriminate | reflexivity].
Qed.

(** X20: chromosomes that are not numbered. When the first sample of the
    table has a bin on a chromosome whose name, after its first three
    characters, does not read as an integer ([chrX], [chrY], [chrM]),
    [plot_genome] raises and returns no plot, for every draw of the
    flips, every mapping and every axis: the start of a chromosome is
    looked up as [chr_ends[int(chromosome[3:]) - 1]]. *)
Theorem plot_genome_needs_numbered_chromosomes (flips : nat -> bool)
  (alt_chr : Bin -> string) (balanced_options : list string)
  (big_bbc : DataFrame) (mapping : list (pykey * Z)) (chr_ends : list Z)
  (fcn_ylim baf_ylim : option (list (option Q))) (save_samples : bool)
  (b0 b : Bin) (rest : list Bin) :
  rows big_bbc = b0 :: rest ->
  In b (rows big_bbc) -> SAMPLE b = SAMPLE b0 ->
  is_ok (py_int (string_drop 3 (CHR b))) = false ->
  exists e,
    plot_genome flips alt_chr balanced_options big_bbc mapping chr_ends
                fcn_ylim baf_ylim save_samples = inl e.
Proof.
  intros Hfirst Hb Hs Hbad. unfold plot_genome, mirror_baf.
  destruct (has_column big_bbc "BAF"); [|eauto].
  set (mirrored := mkFrame (columns big_bbc)
                           (mirror_rows flips 0 (rows big_bbc))).
  destruct (has_column mirrored "SAMPLE"); [|eauto].
  destruct (negb save_samples && _); [eauto|].
  destruct (marker_size _ _); [|eauto].
  destruct (mirror_rows_head flips b0 rest) as (b0' & rest' & Hm & Hs0).
  destruct (mirror_rows_In flips (rows big_bbc) b 0 Hb) as (x & Hx).
  assert (Hsamples : exists others,
             unique (map SAMPLE (rows mirrored)) = SAMPLE b0 :: others).
  { unfold mirrored. cbn [rows]. rewrite Hfirst, Hm. cbn [map unique].
    rewrite Hs0. eauto. }
  destruct Hsamples as (others & ->). cbn [genome_sample_views].
  pose proof (genome_sample_view_bad_name alt_chr balanced_options mirrored
                (color_mapping mapping) chr_ends fcn_ylim baf_ylim (SAMPLE b0)
                (set_BAF b x) Hx Hs Hbad) as Hview.
  destruct (genome_sample_view _ _ _ _ _ _ _ _ _); [discriminate|].
  cbn [bind]. eauto.
Qed.

Lemma plot_genome_needs_numbered_chromosomes_witness :
  exists e,
    plot_genome Nat.even CHR balanced_candidates table_with_chrX
      [(KTuple ["1|1"; "1|0"], 1); (KTuple ["2|2"; "2|1"], 2);
       (KTuple ["2|2"; "2|2"], 3)]
      (0 :: running_sums (fun i => 100 * Z.of_nat (i + 1)) 0 22 0)
      None None false = inl e.
Proof.
  apply (plot_genome_needs_numbered_chromosomes Nat.even CHR balanced_candidates
           table_with_chrX _ _ None None false
           (bin_2clones "chr1" 100 "A" 1 (1 # 2) "2|2" "2|2")
           (bin_2clones "chrX" 70 "A" 1 (1 # 2) "1|1" "1|0")
           (tl (rows table_with_chrX))).
  - reflexivity.
  - unfold table_with_chrX. cbn [rows]. apply in_or_app. right. left. reflexivity.
  - reflexivity.
  - reflexivity.
Defined.

(** ** The 1D view on a table in the expected layout *)



















(** ** The whole pipeline: the 2D and the 1D view *)












